(** * BOP Stack Builder: storage layer, option derivation and report lines

    A shallow embedding of [server/storage.ts], [server/routes.ts],
    [server/services/pdfGenerator.ts] and of the option derivation of the
    [PartConfiguration] component, over the tables of [shared/schema.ts].

    Conventions.
    - Text is a [string] of bytes (UTF-8); integers of the database and of
      JavaScript are [Z]; a nullable column is an [option].
    - A table is the list of its rows, in storage order.  Foreign keys and
      cascades are the ones [shared/schema.ts] declares with [references].
    - [ORDER BY ... ASC] is a stable sort; NULLs sort last, as PostgreSQL
      does for an ascending order; text is compared byte-wise. *)

From Stdlib Require Import List ZArith NArith String Ascii Bool Lia.
From Stdlib Require Import Permutation Sorted DecimalString.
Import ListNotations.

Open Scope string_scope.
Open Scope list_scope.
Open Scope Z_scope.

(* ================================================================== *)
(** ** Generic list machinery: stable sort, first-occurrence dedup     *)
(* ================================================================== *)

Section OrderBy.
Context {A : Type} (leb : A -> A -> bool).

Fixpoint insert_sorted (x : A) (l : list A) : list A :=
  match l with
  | [] => [x]
  | y :: l' => if leb x y then x :: l else y :: insert_sorted x l'
  end.

(** Stable: an element is placed before the first element it is [leb]. *)
Definition sort_by (l : list A) : list A := fold_right insert_sorted [] l.
End OrderBy.

Section Distinct.
Context {A : Type} (eqb : A -> A -> bool).

Definition memb (x : A) (l : list A) : bool := existsb (eqb x) l.

(** [Array.from(new Set(l))]: first occurrences, in encounter order. *)
Fixpoint distinct_acc (seen l : list A) : list A :=
  match l with
  | [] => []
  | x :: l' =>
      if memb x seen then distinct_acc seen l'
      else x :: distinct_acc (x :: seen) l'
  end.

Definition distinct (l : list A) : list A := distinct_acc [] l.
End Distinct.

(** JavaScript truthiness of a string-or-undefined and a number-or-null. *)
Definition truthy_string (s : option string) : bool :=
  match s with
  | Some v => negb (v =? "")%string
  | None => false
  end.

Definition truthy_number (n : option Z) : bool :=
  match n with
  | Some v => negb (v =? 0)
  | None => false
  end.

(** Ascending order on a nullable integer column, NULLs last. *)
Definition opt_leb (a b : option Z) : bool :=
  match a, b with
  | Some x, Some y => x <=? y
  | Some _, None => true
  | None, Some _ => false
  | None, None => true
  end.

(** Template-literal rendering of an integer. *)
Definition string_of_Z (n : Z) : string := NilZero.string_of_int (Z.to_int n).

(* ================================================================== *)
(** ** shared/schema.ts                                                *)
(* ================================================================== *)

Module PartType.
Definition ANNULAR := "ANNULAR".
Definition SINGLE_RAM := "SINGLE_RAM".
Definition DOUBLE_RAMS := "DOUBLE_RAMS".
Definition MUD_CROSS := "MUD_CROSS".
Definition ANACONDA_LINES := "ANACONDA_LINES".
Definition ROTATING_HEAD := "ROTATING_HEAD".
Definition ADAPTER_SPOOL_SIDE := "ADAPTER_SPOOL_SIDE".
End PartType.

Module FlangeSpec.
Record t := mk {
  id : string;
  nominalBore : string;
  pressureClassLabel : string;
  pressureClassPsi : Z;
  boltCount : Z;
  sizeOfBolts : string;
  wrenchNo : Z;
  truckUnitPsi : Z;
  ringNeeded : string;
  flangeSizeRaw : string;
  annularPressure : option Z;
  singleRamPressure : option Z;
  doubleRamsPressure : option Z;
  mudCrossPressure : option Z;
  createdAt : option Z
}.
End FlangeSpec.

Module StackHeader.
Record t := mk {
  id : string;
  title : option string;
  createdAt : option Z
}.
End StackHeader.

Module PartSelection.
Record t := mk {
  id : string;
  stackId : string;
  partType : string;
  spoolGroupId : option string;
  pressureValue : option Z;
  flangeSpecId : string;
  createdAt : option Z
}.
End PartSelection.

Module StackOrder.
Record t := mk {
  stackId : string;
  partSelectionId : string;
  position : Z
}.
End StackOrder.

(** The database: one list of rows per table. *)
Record Db := mkDb {
  flangeSpecs : list FlangeSpec.t;
  stackHeaders : list StackHeader.t;
  partSelections : list PartSelection.t;
  stackOrders : list StackOrder.t
}.

Module InsertPartSelection.
Record t := mk {
  stackId : string;
  partType : string;
  spoolGroupId : option string;
  pressureValue : option Z;
  flangeSpecId : string
}.
End InsertPartSelection.

(** [PartSelection & { flangeSpec: FlangeSpec }]. *)
Record PartWithSpec := mkPartWithSpec {
  part : PartSelection.t;
  flangeSpec : FlangeSpec.t
}.

Record StackData := mkStackData {
  stack : StackHeader.t;
  parts : list PartWithSpec
}.

(** Outcome of an [async] storage call: a value, or a rejected promise. *)
Inductive result (A : Type) : Type :=
| Ok (a : A)
| Throw (msg : string).
Arguments Ok {A} a.
Arguments Throw {A} msg.

(* ================================================================== *)
(** ** server/storage.ts                                               *)
(* ================================================================== *)

Module FlangeFilterOptions.
Record t := mk {
  partType : option string;
  pressure : option Z;
  flangeSize : option string;
  boltCount : option Z;
  boltSize : option string
}.
End FlangeFilterOptions.

Module Storage.
Import FlangeFilterOptions.

Definition condition := FlangeSpec.t -> bool.

(** drizzle's [eq] on a nullable integer column: NULL never matches. *)
Definition eq_opt (col : FlangeSpec.t -> option Z) (v : Z) : condition :=
  fun r => match col r with Some x => x =? v | None => false end.

Definition isNotNull (col : FlangeSpec.t -> option Z) : condition :=
  fun r => match col r with Some _ => true | None => false end.

Definition eq_int (col : FlangeSpec.t -> Z) (v : Z) : condition :=
  fun r => col r =? v.

Definition eq_text (col : FlangeSpec.t -> string) (v : string) : condition :=
  fun r => (col r =? v)%string.

Definition and_ (conditions : list condition) : condition :=
  fun r => forallb (fun c => c r) conditions.

Definition orderBy_flangeSizeRaw : list FlangeSpec.t -> list FlangeSpec.t :=
  sort_by (fun a b => String.leb (FlangeSpec.flangeSizeRaw a)
                                 (FlangeSpec.flangeSizeRaw b)).

(** One arm of the [switch] for a pressure-driven part type. *)
Definition pressureCondition (col : FlangeSpec.t -> option Z)
           (filters : t) : list condition :=
  match pressure filters with
  | Some p => [eq_opt col p]
  | None => [isNotNull col]
  end.

(** The [switch (filters.partType)] block: the conditions it pushes, or
    [None] for the [default] arm, which returns the empty list. *)
Definition partTypeConditions (filters : t) : option (list condition) :=
  if truthy_string (partType filters) then
    let pt := match partType filters with Some s => s | None => "" end in
    if (pt =? PartType.ANNULAR)%string then
      Some (pressureCondition FlangeSpec.annularPressure filters)
    else if (pt =? PartType.SINGLE_RAM)%string then
      Some (pressureCondition FlangeSpec.singleRamPressure filters)
    else if (pt =? PartType.DOUBLE_RAMS)%string then
      Some (pressureCondition FlangeSpec.doubleRamsPressure filters)
    else if (pt =? PartType.MUD_CROSS)%string then
      Some (pressureCondition FlangeSpec.mudCrossPressure filters)
    else if ((pt =? PartType.ANACONDA_LINES) || (pt =? PartType.ROTATING_HEAD)
             || (pt =? PartType.ADAPTER_SPOOL_SIDE))%string then
      Some []
    else None
  else Some [].

(** The progressive-narrowing filters pushed after the switch. *)
Definition narrowingConditions (filters : t) : list condition :=
  (if truthy_string (flangeSize filters)
   then match flangeSize filters with
        | Some v => [eq_text FlangeSpec.flangeSizeRaw v] | None => [] end
   else [])
  ++ (match boltCount filters with
      | Some n => [eq_int FlangeSpec.boltCount n] | None => [] end)
  ++ (if truthy_string (boltSize filters)
      then match boltSize filters with
           | Some v => [eq_text FlangeSpec.sizeOfBolts v] | None => [] end
      else []).

Definition getFlangeSpecs (db : Db) (filters : option t)
  : list FlangeSpec.t :=
  match filters with
  | None => flangeSpecs db
  | Some filters =>
      match partTypeConditions filters with
      | None => []
      | Some pushed =>
          let conditions := pushed ++ narrowingConditions filters in
          match conditions with
          | _ :: _ =>
              orderBy_flangeSizeRaw
                (filter (and_ conditions) (flangeSpecs db))
          | [] => orderBy_flangeSizeRaw (flangeSpecs db)
          end
      end
  end.

Definition getFlangeSpecById (db : Db) (id : string)
  : option FlangeSpec.t :=
  hd_error (filter (fun r => (FlangeSpec.id r =? id)%string)
                   (flangeSpecs db)).

(** The column chosen by the [switch] of [getPressureOptions]. *)
Definition pressureColumn (partType : string)
  : option (FlangeSpec.t -> option Z) :=
  if (partType =? PartType.ANNULAR)%string then
    Some FlangeSpec.annularPressure
  else if (partType =? PartType.SINGLE_RAM)%string then
    Some FlangeSpec.singleRamPressure
  else if (partType =? PartType.DOUBLE_RAMS)%string then
    Some FlangeSpec.doubleRamsPressure
  else if (partType =? PartType.MUD_CROSS)%string then
    Some FlangeSpec.mudCrossPressure
  else None.

(** [SELECT DISTINCT col WHERE col IS NOT NULL ORDER BY col ASC]. *)
Definition selectDistinctNotNull (col : FlangeSpec.t -> option Z)
           (rows : list FlangeSpec.t) : list Z :=
  sort_by Z.leb
    (distinct Z.eqb
       (flat_map (fun r => match col r with Some v => [v] | None => [] end)
                 rows)).

Definition getPressureOptions (db : Db) (partType : string) : list Z :=
  match pressureColumn partType with
  | None => []
  | Some col =>
      filter (fun p => 0 <? p) (selectDistinctNotNull col (flangeSpecs db))
  end.

(* ---------------------------------------------------------------- *)
(** *** Stacks, part selections and their order                      *)
(* ---------------------------------------------------------------- *)

Definition getStack (db : Db) (id : string) : option StackHeader.t :=
  hd_error (filter (fun s => (StackHeader.id s =? id)%string)
                   (stackHeaders db)).

(** One row of the join of [getStackWithParts], before the projection
    that drops [position]. *)
Definition joinedRow : Type := (PartWithSpec * option Z)%type.

Definition innerJoin_flangeSpecs (db : Db) (p : PartSelection.t)
  : list PartWithSpec :=
  map (fun f => {| part := p; flangeSpec := f |})
      (filter (fun f => (PartSelection.flangeSpecId p =? FlangeSpec.id f)%string)
              (flangeSpecs db)).

Definition leftJoin_stackOrders (db : Db) (r : PartWithSpec)
  : list joinedRow :=
  match filter (fun o => (PartSelection.id (part r)
                          =? StackOrder.partSelectionId o)%string)
               (stackOrders db) with
  | [] => [(r, None)]
  | os => map (fun o => (r, Some (StackOrder.position o))) os
  end.

(** [ORDER BY position] is modelled as a stable sort of the joined rows.
    Rows with equal positions, or several rows without one, come out in
    the order of the lists here; PostgreSQL leaves their order open, so
    what is stated of the order of a read-back is stated for rows with
    pairwise different positions, or up to permutation. *)
Definition selectStackParts (db : Db) (id : string) : list joinedRow :=
  sort_by (fun a b => opt_leb (snd a) (snd b))
    (filter (fun row => (PartSelection.stackId (part (fst row)) =? id)%string)
       (flat_map (leftJoin_stackOrders db)
          (flat_map (innerJoin_flangeSpecs db) (partSelections db)))).

Definition getStackWithParts (db : Db) (id : string) : option StackData :=
  match getStack db id with
  | None => None
  | Some stack =>
      Some {| stack := stack; parts := map fst (selectStackParts db id) |}
  end.

(** Constraints declared in [shared/schema.ts] for [part_selection]:
    primary key [id], [stack_id] and [flange_spec_id] reference existing
    rows.  These are the key constraints only: PostgreSQL also refuses a
    value that does not fit the type of its column (a text that is no
    uuid, an integer outside [integer]).  The conditions are therefore
    necessary for an insertion, and where a property needs an insertion to
    be accepted, acceptance is its hypothesis. *)
Definition partSelection_insertable (db : Db) (p : PartSelection.t) : bool :=
  negb (existsb (fun q => (PartSelection.id q =? PartSelection.id p)%string)
                (partSelections db))
  && existsb (fun s => (StackHeader.id s =? PartSelection.stackId p)%string)
             (stackHeaders db)
  && existsb (fun f => (FlangeSpec.id f =? PartSelection.flangeSpecId p)%string)
             (flangeSpecs db).

(** Constraints declared for [stack_order]: both columns reference
    existing rows. *)
Definition stackOrder_insertable (db : Db) (o : StackOrder.t) : bool :=
  existsb (fun s => (StackHeader.id s =? StackOrder.stackId o)%string)
          (stackHeaders db)
  && existsb (fun q => (PartSelection.id q =? StackOrder.partSelectionId o)%string)
             (partSelections db).

Definition set_partSelections (db : Db) (ps : list PartSelection.t) : Db :=
  {| flangeSpecs := flangeSpecs db; stackHeaders := stackHeaders db;
     partSelections := ps; stackOrders := stackOrders db |}.

Definition set_stackOrders (db : Db) (os : list StackOrder.t) : Db :=
  {| flangeSpecs := flangeSpecs db; stackHeaders := stackHeaders db;
     partSelections := partSelections db; stackOrders := os |}.

(** [Math.max(...l)] on a non-empty argument list. *)
Definition Math_max (l : list Z) : Z :=
  match l with
  | [] => 0
  | x :: l' => fold_left Z.max l' x
  end.

(** [Math.min(...l)] on a non-empty argument list. *)
Definition Math_min (l : list Z) : Z :=
  match l with
  | [] => 0
  | x :: l' => fold_left Z.min l' x
  end.

(** [newId] and [now] stand for the defaults the database draws for the
    new row: [gen_random_uuid()] and [now()]. *)
Definition addPartToStack (newId : string) (now : Z)
           (part : InsertPartSelection.t) (db : Db)
  : Db * result PartSelection.t :=
  let created :=
    {| PartSelection.id := newId;
       PartSelection.stackId := InsertPartSelection.stackId part;
       PartSelection.partType := InsertPartSelection.partType part;
       PartSelection.spoolGroupId := InsertPartSelection.spoolGroupId part;
       PartSelection.pressureValue := InsertPartSelection.pressureValue part;
       PartSelection.flangeSpecId := InsertPartSelection.flangeSpecId part;
       PartSelection.createdAt := Some now |} in
  if partSelection_insertable db created then
    let db1 := set_partSelections db (partSelections db ++ [created]) in
    let existingOrders :=
      sort_by Z.leb
        (map StackOrder.position
           (filter (fun o => (StackOrder.stackId o
                              =? InsertPartSelection.stackId part)%string)
                   (stackOrders db1))) in
    let nextPosition :=
      match existingOrders with
      | _ :: _ => Math_max existingOrders + 1
      | [] => 0
      end in
    let row :=
      {| StackOrder.stackId := InsertPartSelection.stackId part;
         StackOrder.partSelectionId := PartSelection.id created;
         StackOrder.position := nextPosition |} in
    if stackOrder_insertable db1 row then
      (set_stackOrders db1 (stackOrders db1 ++ [row]), Ok created)
    else (db1, Throw "insert into stack_order failed")
  else (db, Throw "insert into part_selection failed").

(** [ON DELETE CASCADE] removes the order rows of the deleted part. *)
Definition removePartFromStack (partId : string) (db : Db)
  : Db * result unit :=
  let ps := filter (fun p => negb (PartSelection.id p =? partId)%string)
                   (partSelections db) in
  let os := filter (fun o => negb (StackOrder.partSelectionId o =? partId)%string)
                   (stackOrders db) in
  ({| flangeSpecs := flangeSpecs db; stackHeaders := stackHeaders db;
      partSelections := ps; stackOrders := os |}, Ok tt).

(** [orderedPartIds.map((partId, index) => ...)]. *)
Fixpoint orderValues (stackId : string) (index : Z)
         (orderedPartIds : list string) : list StackOrder.t :=
  match orderedPartIds with
  | [] => []
  | partId :: rest =>
      {| StackOrder.stackId := stackId;
         StackOrder.partSelectionId := partId;
         StackOrder.position := index |}
      :: orderValues stackId (index + 1) rest
  end.

(** Two statements, no transaction: the delete is kept when the insert
    is refused. *)
Definition updateStackOrder (stackId : string)
           (orderedPartIds : list string) (db : Db) : Db * result unit :=
  let db1 :=
    set_stackOrders db
      (filter (fun o => negb (StackOrder.stackId o =? stackId)%string)
              (stackOrders db)) in
  match orderedPartIds with
  | _ :: _ =>
      let values := orderValues stackId 0 orderedPartIds in
      if forallb (stackOrder_insertable db1) values then
        (set_stackOrders db1 (stackOrders db1 ++ values), Ok tt)
      else (db1, Throw "insert into stack_order failed")
  | [] => (db1, Ok tt)
  end.
End Storage.

(* ================================================================== *)
(** ** server/routes.ts: the stack endpoints                           *)
(* ================================================================== *)

Module Routes.
(** [res.json(body)] answers 200; [res.status(s).json({ error })]
    answers [s]. *)
Inductive Response (A : Type) : Type :=
| Json (body : A)
| Error (status : Z) (error : string).
Arguments Json {A} body.
Arguments Error {A} status error.

Definition status {A : Type} (r : Response A) : Z :=
  match r with
  | Json _ => 200
  | Error s _ => s
  end.

(** [POST /api/stack/:id/items]; the body arrives already parsed by
    [insertPartSelectionSchema] with [stackId] set from the path. *)
Definition post_stack_items (newId : string) (now : Z)
           (validatedPart : InsertPartSelection.t) (db : Db)
  : Db * Response PartSelection.t :=
  match Storage.getFlangeSpecById db
          (InsertPartSelection.flangeSpecId validatedPart) with
  | None => (db, Error 400 "Invalid flange specification")
  | Some _ =>
      match Storage.addPartToStack newId now validatedPart db with
      | (db', Ok part) => (db', Json part)
      | (db', Throw _) => (db', Error 500 "Failed to add part to stack")
      end
  end.

(** [PATCH /api/stack/:id/order]; [orderedPartIds] is [None] when the
    body field is not an array. *)
Definition patch_stack_order (stackId : string)
           (orderedPartIds : option (list string)) (db : Db)
  : Db * Response unit :=
  match orderedPartIds with
  | None => (db, Error 400 "orderedPartIds must be an array")
  | Some ids =>
      match Storage.updateStackOrder stackId ids db with
      | (db', Ok _) => (db', Json tt)
      | (db', Throw _) => (db', Error 500 "Failed to update stack order")
      end
  end.

(** [GET /api/stack/:id]. *)
Definition get_stack (stackId : string) (db : Db) : Response StackData :=
  match Storage.getStackWithParts db stackId with
  | None => Error 404 "Stack not found"
  | Some stackData => Json stackData
  end.

(** [DELETE /api/stack/:stackId/items/:partId]. *)
Definition delete_stack_item (partId : string) (db : Db)
  : Db * Response unit :=
  match Storage.removePartFromStack partId db with
  | (db', Ok _) => (db', Json tt)
  | (db', Throw _) => (db', Error 500 "Failed to remove part")
  end.
End Routes.

(* ================================================================== *)
(** ** client: PartConfiguration option lists, useStack.addPartMutation *)
(* ================================================================== *)

Module PartConfiguration.
Definition uniqueFlangeSizes (flangeOptions : list FlangeSpec.t)
  : list string :=
  distinct String.eqb (map FlangeSpec.flangeSizeRaw flangeOptions).

Definition uniqueBoltCounts (flangeOptions : list FlangeSpec.t) : list Z :=
  distinct Z.eqb (map FlangeSpec.boltCount flangeOptions).

Definition uniqueBoltSizes (flangeOptions : list FlangeSpec.t)
  : list string :=
  distinct String.eqb (map FlangeSpec.sizeOfBolts flangeOptions).

(** [handleFlangeSelectionChange(field, value)] on the filter state that
    feeds the next [/api/options/flanges] query. *)
Definition select_flangeSize (value : string) (f : FlangeFilterOptions.t)
  : FlangeFilterOptions.t :=
  {| FlangeFilterOptions.partType := FlangeFilterOptions.partType f;
     FlangeFilterOptions.pressure := FlangeFilterOptions.pressure f;
     FlangeFilterOptions.flangeSize := Some value;
     FlangeFilterOptions.boltCount := FlangeFilterOptions.boltCount f;
     FlangeFilterOptions.boltSize := FlangeFilterOptions.boltSize f |}.

Definition select_boltCount (value : Z) (f : FlangeFilterOptions.t)
  : FlangeFilterOptions.t :=
  {| FlangeFilterOptions.partType := FlangeFilterOptions.partType f;
     FlangeFilterOptions.pressure := FlangeFilterOptions.pressure f;
     FlangeFilterOptions.flangeSize := FlangeFilterOptions.flangeSize f;
     FlangeFilterOptions.boltCount := Some value;
     FlangeFilterOptions.boltSize := FlangeFilterOptions.boltSize f |}.

Definition select_boltSize (value : string) (f : FlangeFilterOptions.t)
  : FlangeFilterOptions.t :=
  {| FlangeFilterOptions.partType := FlangeFilterOptions.partType f;
     FlangeFilterOptions.pressure := FlangeFilterOptions.pressure f;
     FlangeFilterOptions.flangeSize := FlangeFilterOptions.flangeSize f;
     FlangeFilterOptions.boltCount := FlangeFilterOptions.boltCount f;
     FlangeFilterOptions.boltSize := Some value |}.
End PartConfiguration.

Module UseStack.
(** One entry of [partData.sides]. *)
Record Side := mkSide {
  flangeSpecId : string;
  pressureValue : option Z
}.

Section AddPartMutation.
(** [apiRequest] comes from [lib/queryClient], which is not among the
    sources; [rejects r] tells whether it throws on the response [r]. *)
Variable rejects : forall A : Type, Routes.Response A -> bool.

(** The [for (const side of partData.sides)] loop of the adapter-spool
    branch: one POST per side, in order; [fresh n] is the id and the
    timestamp the database draws for the [n]-th request. *)
Fixpoint postSides (currentStackId : string) (spoolGroupId : option string)
         (sides : list Side) (fresh : nat -> string * Z) (n : nat)
         (db : Db) (responses : list (Routes.Response PartSelection.t))
  : Db * result (list (Routes.Response PartSelection.t)) :=
  match sides with
  | [] => (db, Ok responses)
  | side :: sides' =>
      let body :=
        {| InsertPartSelection.stackId := currentStackId;
           InsertPartSelection.partType := PartType.ADAPTER_SPOOL_SIDE;
           InsertPartSelection.spoolGroupId := spoolGroupId;
           InsertPartSelection.pressureValue := pressureValue side;
           InsertPartSelection.flangeSpecId := flangeSpecId side |} in
      let '(db', response) :=
        Routes.post_stack_items (fst (fresh n)) (snd (fresh n)) body db in
      if rejects _ response then (db', Throw "request failed")
      else postSides currentStackId spoolGroupId sides' fresh (S n) db'
                     (responses ++ [response])
  end.

Definition addPartMutation_sides (currentStackId : option string)
           (spoolGroupId : option string) (sides : list Side)
           (fresh : nat -> string * Z) (db : Db)
  : Db * result (list (Routes.Response PartSelection.t)) :=
  match currentStackId with
  | None => (db, Throw "No stack selected")
  | Some sid => postSides sid spoolGroupId sides fresh 0 db []
  end.
End AddPartMutation.
End UseStack.

(* ================================================================== *)
(** ** server/services/pdfGenerator.ts                                 *)
(* ================================================================== *)

Module PdfGenerator.
(** The [names] table.  Only its own keys are looked up. *)
Definition names (partType : string) : option string :=
  if (partType =? PartType.ANNULAR)%string then Some "Annular"
  else if (partType =? PartType.SINGLE_RAM)%string then
    Some "Single B.O.P (RAM)"
  else if (partType =? PartType.DOUBLE_RAMS)%string then
    Some "Double B.O.P (RAMs)"
  else if (partType =? PartType.MUD_CROSS)%string then Some "Mud Cross"
  else if (partType =? PartType.ANACONDA_LINES)%string then
    Some "Anaconda Lines"
  else if (partType =? PartType.ROTATING_HEAD)%string then
    Some "Rotating Head"
  else if (partType =? PartType.ADAPTER_SPOOL_SIDE)%string then
    Some "Adapter Spool"
  else None.

Definition pressureDrivenParts : list string :=
  [PartType.ANNULAR; PartType.SINGLE_RAM; PartType.DOUBLE_RAMS;
   PartType.MUD_CROSS].

(** The segment appended for a pressure-driven part. *)
Definition pressureSegment (pressure : Z) : string :=
  (" – Pressure " ++ string_of_Z pressure)%string.

(** [names[partType] || partType]; every label of the table is truthy. *)
Definition baseName (partType : string) : string :=
  match names partType with
  | Some n => n
  | None => partType
  end.

Definition getPartDisplayName (partType : string) (pressure : option Z)
  : string :=
  if memb String.eqb partType pressureDrivenParts && truthy_number pressure
  then match pressure with
       | Some p => (baseName partType ++ pressureSegment p)%string
       | None => baseName partType
       end
  else baseName partType.

(** The field list both line templates end with. *)
Definition specFields (flangeSpec : FlangeSpec.t) : string :=
  (" – Ring: " ++ FlangeSpec.ringNeeded flangeSpec
   ++ " | Size of Bolts: " ++ FlangeSpec.sizeOfBolts flangeSpec
   ++ " | # Bolts: " ++ string_of_Z (FlangeSpec.boltCount flangeSpec)
   ++ " | Flange: " ++ FlangeSpec.flangeSizeRaw flangeSpec
   ++ " | Wrench Required: " ++ string_of_Z (FlangeSpec.wrenchNo flangeSpec)
   ++ " | Set Truck PSI to: "
   ++ string_of_Z (FlangeSpec.truckUnitPsi flangeSpec))%string.

Definition regularLine (p : PartWithSpec) : string :=
  (getPartDisplayName (PartSelection.partType (part p))
                      (PartSelection.pressureValue (part p))
   ++ specFields (flangeSpec p))%string.

(** [String.fromCharCode] of one UTF-16 code unit, as UTF-8 bytes. *)
Definition fromCharCode (c : N) : string :=
  let c := (c mod 65536)%N in
  if (c <? 128)%N then String (ascii_of_N c) ""
  else if (c <? 2048)%N then
    String (ascii_of_N (192 + c / 64))
      (String (ascii_of_N (128 + c mod 64)) "")
  else
    String (ascii_of_N (224 + c / 4096))
      (String (ascii_of_N (128 + (c / 64) mod 64))
         (String (ascii_of_N (128 + c mod 64)) "")).

(** [spoolLetter] is kept as its code unit, [spoolLetter.charCodeAt(0)]. *)
Definition nextLetter (spoolLetter : N) : N :=
  ((spoolLetter + 1) mod 65536)%N.

Definition spoolLine (spoolLetter : N) (sideNumber : Z) (side : PartWithSpec)
  : string :=
  ("Adapter Spool " ++ fromCharCode spoolLetter ++ " — Side "
   ++ string_of_Z sideNumber ++ specFields (flangeSpec side))%string.

(** The insertion-ordered [Map] from group id to its sides. *)
Definition SpoolGroups : Type := list (string * list PartWithSpec).

Definition has (groups : SpoolGroups) (key : string) : bool :=
  existsb (fun e => (fst e =? key)%string) groups.

(** [spoolGroups.get(key)!.push(p)]. *)
Fixpoint push_to (groups : SpoolGroups) (key : string) (p : PartWithSpec)
  : SpoolGroups :=
  match groups with
  | [] => []
  | (k, sides) :: rest =>
      if (k =? key)%string then (k, sides ++ [p]) :: rest
      else (k, sides) :: push_to rest key p
  end.

(** One iteration of the partitioning loop over [stackData.parts]. *)
Definition classify (acc : SpoolGroups * list PartWithSpec) (p : PartWithSpec)
  : SpoolGroups * list PartWithSpec :=
  let '(spoolGroups, regularParts) := acc in
  if (PartSelection.partType (part p) =? PartType.ADAPTER_SPOOL_SIDE)%string
     && truthy_string (PartSelection.spoolGroupId (part p))
  then
    let key := match PartSelection.spoolGroupId (part p) with
               | Some g => g | None => "" end in
    let spoolGroups :=
      if has spoolGroups key then spoolGroups
      else spoolGroups ++ [(key, [])] in
    (push_to spoolGroups key p, regularParts)
  else (spoolGroups, regularParts ++ [p]).

(** [(a.createdAt?.getTime() || 0)]. *)
Definition createdKey (p : PartWithSpec) : Z :=
  match PartSelection.createdAt (part p) with
  | Some ms => ms
  | None => 0
  end.

Definition sortSides (spoolSides : list PartWithSpec) : list PartWithSpec :=
  sort_by (fun a b => createdKey a <=? createdKey b) spoolSides.

(** [spoolSides.forEach((side, index) => ...)] with
    [sideNumber = index + 1]. *)
Fixpoint sideLines (spoolLetter : N) (index : Z)
         (spoolSides : list PartWithSpec) : list string :=
  match spoolSides with
  | [] => []
  | side :: rest =>
      spoolLine spoolLetter (index + 1) side
      :: sideLines spoolLetter (index + 1) rest
  end.

(** The loop over [spoolGroups.entries()], threading [spoolLetter]. *)
Fixpoint spoolLines (spoolLetter : N) (groups : SpoolGroups)
  : list string :=
  match groups with
  | [] => []
  | (_, spoolSides) :: rest =>
      sideLines spoolLetter 0 (sortSides spoolSides)
      ++ spoolLines (nextLetter spoolLetter) rest
  end.

Definition generateReportLines (stackData : StackData) : list string :=
  let '(spoolGroups, regularParts) :=
    fold_left classify (parts stackData) ([], []) in
  map regularLine regularParts ++ spoolLines 65%N spoolGroups.

(** [p > 0] on a number-or-null. *)
Definition positive_number (p : option Z) : bool :=
  match p with
  | Some v => 0 <? v
  | None => false
  end.

Definition numbers (l : list (option Z)) : list Z :=
  flat_map (fun p => match p with Some v => [v] | None => [] end) l.

Definition getPressureRanges (parts : list PartWithSpec) : string :=
  let pressures :=
    sort_by Z.leb
      (numbers
         (filter (fun p => truthy_number p && positive_number p)
                 (map (fun p => PartSelection.pressureValue (part p)) parts)))
  in
  match pressures with
  | [] => "N/A"
  | _ :: _ =>
      let min := Storage.Math_min pressures in
      let max := Storage.Math_max pressures in
      if min =? max then (string_of_Z min ++ " PSI")%string
      else (string_of_Z min ++ "-" ++ string_of_Z max ++ " PSI")%string
  end.

Definition getFlangeClasses (parts : list PartWithSpec) : string :=
  let classes :=
    sort_by String.leb
      (distinct String.eqb
         (map (fun p => FlangeSpec.pressureClassLabel (flangeSpec p)) parts)) in
  let joined := String.concat ", " classes in
  if (joined =? "")%string then "N/A" else joined.

(** The values [generateReportHTML] interpolates into its fixed markup. *)
Record ReportFields := mkReportFields {
  reportLines : list string;
  totalParts : Z;
  pressureRanges : string;
  flangeClasses : string
}.

Definition generateReportHTML_fields (stackData : StackData) : ReportFields :=
  {| reportLines := generateReportLines stackData;
     totalParts := Z.of_nat (List.length (parts stackData));
     pressureRanges := getPressureRanges (parts stackData);
     flangeClasses := getFlangeClasses (parts stackData) |}.
End PdfGenerator.

(* ================================================================== *)
(** ** Vocabulary of the specification                                 *)
(* ================================================================== *)

Module Spec.
(** Attribute-driven categories carry a target pressure value. *)
Definition attributeDriven (category : string) : bool :=
  memb String.eqb category
       [PartType.ANNULAR; PartType.SINGLE_RAM; PartType.DOUBLE_RAMS;
        PartType.MUD_CROSS].

(** Geometry-driven categories, and the composite one. *)
Definition geometryOrComposite (category : string) : bool :=
  memb String.eqb category
       [PartType.ANACONDA_LINES; PartType.ROTATING_HEAD;
        PartType.ADAPTER_SPOOL_SIDE].

Definition recognized (category : string) : bool :=
  attributeDriven category || geometryOrComposite category.

(** The optional pressure attribute that belongs to a category. *)
Definition pressureAttribute (category : string) (r : FlangeSpec.t)
  : option Z :=
  if (category =? PartType.ANNULAR)%string then FlangeSpec.annularPressure r
  else if (category =? PartType.SINGLE_RAM)%string then
    FlangeSpec.singleRamPressure r
  else if (category =? PartType.DOUBLE_RAMS)%string then
    FlangeSpec.doubleRamsPressure r
  else if (category =? PartType.MUD_CROSS)%string then
    FlangeSpec.mudCrossPressure r
  else None.

(** The category stage of candidate filtering: equality with the target
    when one is given, non-null otherwise; every record passes for the
    other categories. *)
Definition categoryStage (category : string) (target : option Z)
           (r : FlangeSpec.t) : bool :=
  if attributeDriven category then
    match target, pressureAttribute category r with
    | Some v, Some x => x =? v
    | None, Some _ => true
    | _, None => false
    end
  else true.

(** The remaining filters, as strict equalities; a text filter counts as
    present when it is a non-empty string. *)
Definition narrowing (f : FlangeFilterOptions.t) (r : FlangeSpec.t) : bool :=
  match FlangeFilterOptions.flangeSize f with
  | Some v => (v =? "")%string || (FlangeSpec.flangeSizeRaw r =? v)%string
  | None => true
  end
  && match FlangeFilterOptions.boltCount f with
     | Some n => FlangeSpec.boltCount r =? n
     | None => true
     end
  && match FlangeFilterOptions.boltSize f with
     | Some v => (v =? "")%string || (FlangeSpec.sizeOfBolts r =? v)%string
     | None => true
     end.

(** The current member set of a stack: ids of its part instances. *)
Definition members (db : Db) (stackId : string) : list string :=
  map PartSelection.id
      (filter (fun p => (PartSelection.stackId p =? stackId)%string)
              (partSelections db)).

(** A sequence that lists every member exactly once and nothing else. *)
Definition permutationOfMembers (db : Db) (stackId : string)
           (ids : list string) : Prop :=
  NoDup ids /\ forall id, In id ids <-> In id (members db stackId).

(** The stored position assignment of a stack. *)
Definition positionAssignment (db : Db) (stackId : string)
  : list StackOrder.t :=
  filter (fun o => (StackOrder.stackId o =? stackId)%string) (stackOrders db).

(** The positions stored for one part of a stack. *)
Definition positionsOf (db : Db) (stackId partId : string) : list Z :=
  map StackOrder.position
      (filter (fun o => (StackOrder.partSelectionId o =? partId)%string)
              (positionAssignment db stackId)).

(** The positions the order table stores for a part instance. *)
Definition storedPositions (db : Db) (partId : string) : list Z :=
  map StackOrder.position
      (filter (fun o => (partId =? StackOrder.partSelectionId o)%string)
              (stackOrders db)).

(** The part instances that share a group identifier. *)
Definition groupMembers (db : Db) (groupId : string) : list PartSelection.t :=
  filter (fun p => match PartSelection.spoolGroupId p with
                   | Some g => (g =? groupId)%string
                   | None => false
                   end)
         (partSelections db).

(** A side of an adapter spool that carries a group identifier. *)
Definition isSpoolSide (p : PartWithSpec) : bool :=
  (PartSelection.partType (part p) =? PartType.ADAPTER_SPOOL_SIDE)%string
  && match PartSelection.spoolGroupId (part p) with
     | Some g => negb (g =? "")%string
     | None => false
     end.

Definition groupKey (p : PartWithSpec) : string :=
  match PartSelection.spoolGroupId (part p) with
  | Some g => g
  | None => ""
  end.

(** The instances reported one line each, in stack order. *)
Definition regularParts (ps : list PartWithSpec) : list PartWithSpec :=
  filter (fun p => negb (isSpoolSide p)) ps.

Definition spoolParts (ps : list PartWithSpec) : list PartWithSpec :=
  filter isSpoolSide ps.

(** The distinct group identifiers, in first-encountered order. *)
Definition groupIds (ps : list PartWithSpec) : list string :=
  distinct String.eqb (map groupKey (spoolParts ps)).

(** The sides of one group, in stack order. *)
Definition sidesOf (ps : list PartWithSpec) (g : string) : list PartWithSpec :=
  filter (fun p => (groupKey p =? g)%string) (spoolParts ps).

(** The code unit of the letter of the [k]-th group: 'A' is 65. *)
Definition letterOf (k : nat) : N := ((65 + N.of_nat k) mod 65536)%N.

(** A list paired with the 0-based indices of its elements. *)
Definition indexed_from {A : Type} (k : nat) (l : list A) : list (nat * A) :=
  combine (seq k (List.length l)) l.

Definition indexed {A : Type} (l : list A) : list (nat * A) := indexed_from 0 l.

(** [lo] is the least strictly positive target value of the parts. *)
Definition leastPositiveTarget (ps : list PartWithSpec) (lo : Z) : Prop :=
  0 < lo
  /\ (exists p, In p ps /\ PartSelection.pressureValue (part p) = Some lo)
  /\ forall p v, In p ps -> PartSelection.pressureValue (part p) = Some v ->
                 0 < v -> lo <= v.

(** [hi] is the greatest strictly positive target value of the parts. *)
Definition greatestPositiveTarget (ps : list PartWithSpec) (hi : Z) : Prop :=
  0 < hi
  /\ (exists p, In p ps /\ PartSelection.pressureValue (part p) = Some hi)
  /\ forall p v, In p ps -> PartSelection.pressureValue (part p) = Some v ->
                 0 < v -> v <= hi.
End Spec.

(* ================================================================== *)
(** ** Sample data                                                     *)
(* ================================================================== *)

Module Sample.
Definition specA : FlangeSpec.t :=
  {| FlangeSpec.id := "spec-a"; FlangeSpec.nominalBore := "13-5/8";
     FlangeSpec.pressureClassLabel := "5M";
     FlangeSpec.pressureClassPsi := 5000; FlangeSpec.boltCount := 8;
     FlangeSpec.sizeOfBolts := "1-1/8"; FlangeSpec.wrenchNo := 3;
     FlangeSpec.truckUnitPsi := 1500; FlangeSpec.ringNeeded := "BX-160";
     FlangeSpec.flangeSizeRaw := "13-5/8 5M";
     FlangeSpec.annularPressure := Some 5000;
     FlangeSpec.singleRamPressure := None;
     FlangeSpec.doubleRamsPressure := None;
     FlangeSpec.mudCrossPressure := None;
     FlangeSpec.createdAt := None |}.

Definition specB : FlangeSpec.t :=
  {| FlangeSpec.id := "spec-b"; FlangeSpec.nominalBore := "13-5/8";
     FlangeSpec.pressureClassLabel := "5M";
     FlangeSpec.pressureClassPsi := 5000; FlangeSpec.boltCount := 12;
     FlangeSpec.sizeOfBolts := "1-1/8"; FlangeSpec.wrenchNo := 3;
     FlangeSpec.truckUnitPsi := 1500; FlangeSpec.ringNeeded := "BX-160";
     FlangeSpec.flangeSizeRaw := "13-5/8 5M";
     FlangeSpec.annularPressure := Some 5000;
     FlangeSpec.singleRamPressure := None;
     FlangeSpec.doubleRamsPressure := None;
     FlangeSpec.mudCrossPressure := None;
     FlangeSpec.createdAt := None |}.

Definition catalog : Db :=
  {| flangeSpecs := [specA; specB]; stackHeaders := [];
     partSelections := []; stackOrders := [] |}.

Definition filters (partType : option string) (pressure : option Z)
  : FlangeFilterOptions.t :=
  {| FlangeFilterOptions.partType := partType;
     FlangeFilterOptions.pressure := pressure;
     FlangeFilterOptions.flangeSize := None;
     FlangeFilterOptions.boltCount := None;
     FlangeFilterOptions.boltSize := None |}.

Definition header : StackHeader.t :=
  {| StackHeader.id := "s1"; StackHeader.title := Some "B.O.P Stack";
     StackHeader.createdAt := Some 0 |}.

Definition selection (id partType : string) (group : option string)
           (pressure : option Z) (spec : string) (created : Z)
  : PartSelection.t :=
  {| PartSelection.id := id; PartSelection.stackId := "s1";
     PartSelection.partType := partType;
     PartSelection.spoolGroupId := group;
     PartSelection.pressureValue := pressure;
     PartSelection.flangeSpecId := spec;
     PartSelection.createdAt := Some created |}.

Definition order (partId : string) (position : Z) : StackOrder.t :=
  {| StackOrder.stackId := "s1"; StackOrder.partSelectionId := partId;
     StackOrder.position := position |}.

(** Two members, stored as id2 at 0 and id1 at 1. *)
Definition twoMembers : Db :=
  {| flangeSpecs := [specA; specB]; stackHeaders := [header];
     partSelections :=
       [selection "id1" PartType.ANNULAR None (Some 5000) "spec-a" 10;
        selection "id2" PartType.ROTATING_HEAD None None "spec-b" 20];
     stackOrders := [order "id2" 0; order "id1" 1] |}.

(** One adapter spool: two sides sharing the group "g". *)
Definition oneSpool : Db :=
  {| flangeSpecs := [specA; specB]; stackHeaders := [header];
     partSelections :=
       [selection "side1" PartType.ADAPTER_SPOOL_SIDE (Some "g") None
                  "spec-a" 10;
        selection "side2" PartType.ADAPTER_SPOOL_SIDE (Some "g") None
                  "spec-b" 20];
     stackOrders := [order "side1" 0; order "side2" 1] |}.

Definition emptyStack : Db :=
  {| flangeSpecs := [specA; specB]; stackHeaders := [header];
     partSelections := []; stackOrders := [] |}.

Definition withSpec (p : PartSelection.t) (f : FlangeSpec.t) : PartWithSpec :=
  {| part := p; flangeSpec := f |}.

(** An annular at 5000 followed by one adapter spool, side 2 stored first. *)
Definition reportStack : StackData :=
  {| stack := header;
     parts :=
       [withSpec (selection "id1" PartType.ANNULAR None (Some 5000)
                            "spec-a" 10) specA;
        withSpec (selection "side2" PartType.ADAPTER_SPOOL_SIDE (Some "g")
                            None "spec-b" 30) specB;
        withSpec (selection "side1" PartType.ADAPTER_SPOOL_SIDE (Some "g")
                            None "spec-a" 20) specA] |}.


(** Annular instances with the stored target values 0 and 5000. *)
Definition zeroTarget : StackData :=
  {| stack := header;
     parts :=
       [withSpec (selection "id1" PartType.ANNULAR None (Some 0)
                            "spec-a" 10) specA;
        withSpec (selection "id2" PartType.ANNULAR None (Some 5000)
                            "spec-b" 20) specB] |}.
End Sample.

(* ================================================================== *)
(** ** server/storage.ts: catalog ingestion, stack headers, reports    *)
(* ================================================================== *)

Module InsertFlangeSpec.
Record t := mk {
  nominalBore : string;
  pressureClassLabel : string;
  pressureClassPsi : Z;
  boltCount : Z;
  sizeOfBolts : string;
  wrenchNo : Z;
  truckUnitPsi : Z;
  ringNeeded : string;
  flangeSizeRaw : string;
  annularPressure : option Z;
  singleRamPressure : option Z;
  doubleRamsPressure : option Z;
  mudCrossPressure : option Z
}.
End InsertFlangeSpec.

Module Catalog.
(** The columns of the unique constraint of [flange_spec], which is also
    the conflict target of [insertFlangeSpecs]. *)
Definition naturalKey (r : FlangeSpec.t) : string * string * Z * string :=
  (FlangeSpec.nominalBore r, FlangeSpec.pressureClassLabel r,
   FlangeSpec.boltCount r, FlangeSpec.sizeOfBolts r).

Definition proposedKey (s : InsertFlangeSpec.t) : string * string * Z * string :=
  (InsertFlangeSpec.nominalBore s, InsertFlangeSpec.pressureClassLabel s,
   InsertFlangeSpec.boltCount s, InsertFlangeSpec.sizeOfBolts s).

Definition conflicts (s : InsertFlangeSpec.t) (r : FlangeSpec.t) : bool :=
  (InsertFlangeSpec.nominalBore s =? FlangeSpec.nominalBore r)%string
  && (InsertFlangeSpec.pressureClassLabel s
      =? FlangeSpec.pressureClassLabel r)%string
  && (InsertFlangeSpec.boltCount s =? FlangeSpec.boltCount r)
  && (InsertFlangeSpec.sizeOfBolts s =? FlangeSpec.sizeOfBolts r)%string.

(** The row a proposed spec becomes when no row conflicts with it. *)
Definition insertedRow (newId : string) (now : Z) (s : InsertFlangeSpec.t)
  : FlangeSpec.t :=
  {| FlangeSpec.id := newId;
     FlangeSpec.nominalBore := InsertFlangeSpec.nominalBore s;
     FlangeSpec.pressureClassLabel := InsertFlangeSpec.pressureClassLabel s;
     FlangeSpec.pressureClassPsi := InsertFlangeSpec.pressureClassPsi s;
     FlangeSpec.boltCount := InsertFlangeSpec.boltCount s;
     FlangeSpec.sizeOfBolts := InsertFlangeSpec.sizeOfBolts s;
     FlangeSpec.wrenchNo := InsertFlangeSpec.wrenchNo s;
     FlangeSpec.truckUnitPsi := InsertFlangeSpec.truckUnitPsi s;
     FlangeSpec.ringNeeded := InsertFlangeSpec.ringNeeded s;
     FlangeSpec.flangeSizeRaw := InsertFlangeSpec.flangeSizeRaw s;
     FlangeSpec.annularPressure := InsertFlangeSpec.annularPressure s;
     FlangeSpec.singleRamPressure := InsertFlangeSpec.singleRamPressure s;
     FlangeSpec.doubleRamsPressure := InsertFlangeSpec.doubleRamsPressure s;
     FlangeSpec.mudCrossPressure := InsertFlangeSpec.mudCrossPressure s;
     FlangeSpec.createdAt := Some now |}.

(** The [set] clause of [onConflictDoUpdate]: seven columns are taken from
    the proposed spec, the others stay. *)
Definition updatedRow (s : InsertFlangeSpec.t) (r : FlangeSpec.t)
  : FlangeSpec.t :=
  {| FlangeSpec.id := FlangeSpec.id r;
     FlangeSpec.nominalBore := FlangeSpec.nominalBore r;
     FlangeSpec.pressureClassLabel := FlangeSpec.pressureClassLabel r;
     FlangeSpec.pressureClassPsi := FlangeSpec.pressureClassPsi r;
     FlangeSpec.boltCount := FlangeSpec.boltCount r;
     FlangeSpec.sizeOfBolts := FlangeSpec.sizeOfBolts r;
     FlangeSpec.wrenchNo := InsertFlangeSpec.wrenchNo s;
     FlangeSpec.truckUnitPsi := InsertFlangeSpec.truckUnitPsi s;
     FlangeSpec.ringNeeded := InsertFlangeSpec.ringNeeded s;
     FlangeSpec.flangeSizeRaw := FlangeSpec.flangeSizeRaw r;
     FlangeSpec.annularPressure := InsertFlangeSpec.annularPressure s;
     FlangeSpec.singleRamPressure := InsertFlangeSpec.singleRamPressure s;
     FlangeSpec.doubleRamsPressure := InsertFlangeSpec.doubleRamsPressure s;
     FlangeSpec.mudCrossPressure := InsertFlangeSpec.mudCrossPressure s;
     FlangeSpec.createdAt := FlangeSpec.createdAt r |}.

(** Update the first row in conflict with [s]; [None] when there is none.
    The result is the updated row and the table after the update.  The
    updated row is written at the place of the old one in the list; the
    place of a row in the list is not its place in a scan of the table
    (PostgreSQL writes a new row version), so the properties of ingestion
    are stated up to the order of the rows. *)
Fixpoint conflictUpdate (s : InsertFlangeSpec.t) (rows : list FlangeSpec.t)
  : option (FlangeSpec.t * list FlangeSpec.t) :=
  match rows with
  | [] => None
  | r :: rest =>
      if conflicts s r then Some (updatedRow s r, updatedRow s r :: rest)
      else match conflictUpdate s rest with
           | Some (u, rest') => Some (u, r :: rest')
           | None => None
           end
  end.

(** The state of one [INSERT ... ON CONFLICT DO UPDATE ... RETURNING]
    command: the table, the ids of the rows the command has already
    inserted or updated, and the rows it returns. *)
Record Upsert := mkUpsert {
  rows : list FlangeSpec.t;
  touched : list string;
  returning : list FlangeSpec.t
}.

(** One proposed row.  [None] aborts the command: the row in conflict was
    already affected by this command, or the drawn id is taken. *)
Definition upsertOne (newId : string) (now : Z) (s : InsertFlangeSpec.t)
           (st : Upsert) : option Upsert :=
  match conflictUpdate s (rows st) with
  | Some (u, rows') =>
      if memb String.eqb (FlangeSpec.id u) (touched st) then None
      else Some {| rows := rows';
                   touched := FlangeSpec.id u :: touched st;
                   returning := returning st ++ [u] |}
  | None =>
      if existsb (fun r => (FlangeSpec.id r =? newId)%string) (rows st)
      then None
      else Some {| rows := rows st ++ [insertedRow newId now s];
                   touched := newId :: touched st;
                   returning := returning st ++ [insertedRow newId now s] |}
  end.

(** [fresh n] is the id and the timestamp drawn for the [n]-th proposed
    row. *)
Fixpoint upsertAll (fresh : nat -> string * Z) (n : nat)
         (specs : list InsertFlangeSpec.t) (st : Upsert) : option Upsert :=
  match specs with
  | [] => Some st
  | s :: rest =>
      match upsertOne (fst (fresh n)) (snd (fresh n)) s st with
      | Some st' => upsertAll fresh (S n) rest st'
      | None => None
      end
  end.

Definition set_flangeSpecs (db : Db) (rows : list FlangeSpec.t) : Db :=
  {| flangeSpecs := rows; stackHeaders := stackHeaders db;
     partSelections := partSelections db; stackOrders := stackOrders db |}.

Definition insertFlangeSpecs (fresh : nat -> string * Z)
           (specs : list InsertFlangeSpec.t) (db : Db)
  : Db * result (list FlangeSpec.t) :=
  match specs with
  | [] => (db, Ok [])
  | _ :: _ =>
      match upsertAll fresh 0 specs
              {| rows := flangeSpecs db; touched := []; returning := [] |} with
      | Some st => (set_flangeSpecs db (rows st), Ok (returning st))
      | None => (db, Throw "insert into flange_spec failed")
      end
  end.
End Catalog.

Module InsertStackHeader.
(** [title] may be omitted (the column default applies), null, or given. *)
Record t := mk {
  title : option (option string)
}.
End InsertStackHeader.

Module ReportExport.
Record t := mk {
  id : string;
  stackId : string;
  renderedHtml : option string;
  pdfPath : option string;
  createdAt : option Z
}.
End ReportExport.

Module InsertReportExport.
Record t := mk {
  stackId : string;
  renderedHtml : option string;
  pdfPath : option string
}.
End InsertReportExport.

(** The database together with the [report_export] table. *)
Record Store := mkStore {
  tables : Db;
  reportExports : list ReportExport.t
}.

Module Admin.
Definition set_tables (s : Store) (db : Db) : Store :=
  {| tables := db; reportExports := reportExports s |}.

Definition set_reportExports (s : Store) (rs : list ReportExport.t) : Store :=
  {| tables := tables s; reportExports := rs |}.

Definition createStack (newId : string) (now : Z) (stack : InsertStackHeader.t)
           (s : Store) : Store * result StackHeader.t :=
  let created :=
    {| StackHeader.id := newId;
       StackHeader.title :=
         match InsertStackHeader.title stack with
         | Some t => t
         | None => Some "B.O.P Stack"
         end;
       StackHeader.createdAt := Some now |} in
  if existsb (fun h => (StackHeader.id h =? newId)%string)
             (stackHeaders (tables s))
  then (s, Throw "insert into stack_header failed")
  else
    (set_tables s
       {| flangeSpecs := flangeSpecs (tables s);
          stackHeaders := stackHeaders (tables s) ++ [created];
          partSelections := partSelections (tables s);
          stackOrders := stackOrders (tables s) |},
     Ok created).

(** Deleting a header row cascades to the part selections and the reports
    of the stack, and to the order rows of the stack and of the deleted
    part selections. *)
Definition deleteStack (id : string) (s : Store) : Store * result unit :=
  let db := tables s in
  if existsb (fun h => (StackHeader.id h =? id)%string) (stackHeaders db)
  then
    let deletedParts :=
      map PartSelection.id
          (filter (fun p => (PartSelection.stackId p =? id)%string)
                  (partSelections db)) in
    ({| tables :=
          {| flangeSpecs := flangeSpecs db;
             stackHeaders :=
               filter (fun h => negb (StackHeader.id h =? id)%string)
                      (stackHeaders db);
             partSelections :=
               filter (fun p => negb (PartSelection.stackId p =? id)%string)
                      (partSelections db);
             stackOrders :=
               filter (fun o =>
                         negb (StackOrder.stackId o =? id)%string
                         && negb (memb String.eqb
                                       (StackOrder.partSelectionId o)
                                       deletedParts))
                      (stackOrders db) |};
        reportExports :=
          filter (fun r => negb (ReportExport.stackId r =? id)%string)
                 (reportExports s) |}, Ok tt)
  else (s, Ok tt).

(** [id ? { ...report, id } : report]: an id is used when it is a non-empty
    string, otherwise the database draws [newId]. *)
Definition createReport (newId : string) (now : Z)
           (report : InsertReportExport.t) (id : option string) (s : Store)
  : Store * result ReportExport.t :=
  let created :=
    {| ReportExport.id :=
         if truthy_string id
         then match id with Some i => i | None => newId end
         else newId;
       ReportExport.stackId := InsertReportExport.stackId report;
       ReportExport.renderedHtml := InsertReportExport.renderedHtml report;
       ReportExport.pdfPath := InsertReportExport.pdfPath report;
       ReportExport.createdAt := Some now |} in
  if negb (existsb (fun r => (ReportExport.id r =? ReportExport.id created)%string)
                   (reportExports s))
     && existsb (fun h => (StackHeader.id h =? ReportExport.stackId created)%string)
                (stackHeaders (tables s))
  then (set_reportExports s (reportExports s ++ [created]), Ok created)
  else (s, Throw "insert into report_export failed").

Definition getReport (s : Store) (id : string) : option ReportExport.t :=
  hd_error (filter (fun r => (ReportExport.id r =? id)%string)
                   (reportExports s)).

Definition updateReportPdfPath (id pdfPath : string) (s : Store) : Store :=
  set_reportExports s
    (map (fun r =>
            if (ReportExport.id r =? id)%string
            then {| ReportExport.id := ReportExport.id r;
                    ReportExport.stackId := ReportExport.stackId r;
                    ReportExport.renderedHtml := ReportExport.renderedHtml r;
                    ReportExport.pdfPath := Some pdfPath;
                    ReportExport.createdAt := ReportExport.createdAt r |}
            else r)
         (reportExports s)).

Definition deleteReport (id : string) (s : Store) : Store :=
  set_reportExports s
    (filter (fun r => negb (ReportExport.id r =? id)%string)
            (reportExports s)).
End Admin.

(* ================================================================== *)
(** ** client: ReportModal preview lines                               *)
(* ================================================================== *)

Module ReportModal.
(** The [names] table of the preview: it has no adapter-spool entry. *)
Definition names (partType : string) : option string :=
  if (partType =? "ANNULAR")%string then Some "Annular"
  else if (partType =? "SINGLE_RAM")%string then Some "Single B.O.P (RAM)"
  else if (partType =? "DOUBLE_RAMS")%string then Some "Double B.O.P (RAMs)"
  else if (partType =? "MUD_CROSS")%string then Some "Mud Cross"
  else if (partType =? "ANACONDA_LINES")%string then Some "Anaconda Lines"
  else if (partType =? "ROTATING_HEAD")%string then Some "Rotating Head"
  else None.

Definition getPartDisplayName (p : PartWithSpec) : string :=
  let partType := PartSelection.partType (part p) in
  let baseName := match names partType with
                  | Some n => n
                  | None => partType
                  end in
  if memb String.eqb partType
          ["ANNULAR"; "SINGLE_RAM"; "DOUBLE_RAMS"; "MUD_CROSS"]
     && truthy_number (PartSelection.pressureValue (part p))
  then match PartSelection.pressureValue (part p) with
       | Some v => (baseName ++ " – Pressure " ++ string_of_Z v)%string
       | None => baseName
       end
  else baseName.

Definition regularLine (p : PartWithSpec) : string :=
  (getPartDisplayName p ++ PdfGenerator.specFields (flangeSpec p))%string.

(** One iteration of [spoolSides.forEach]: a side without a group id is
    skipped. *)
Definition groupSide (spoolGroups : PdfGenerator.SpoolGroups)
           (side : PartWithSpec) : PdfGenerator.SpoolGroups :=
  if truthy_string (PartSelection.spoolGroupId (part side)) then
    let key := match PartSelection.spoolGroupId (part side) with
               | Some g => g | None => "" end in
    let spoolGroups :=
      if PdfGenerator.has spoolGroups key then spoolGroups
      else spoolGroups ++ [(key, [])] in
    PdfGenerator.push_to spoolGroups key side
  else spoolGroups.

(** The sides of a group are sorted on [new Date(createdAt).getTime()],
    which is the stored timestamp, and 0 for a null one: the key of
    [PdfGenerator.sortSides]. *)
Definition generateReportLines (parts : list PartWithSpec) : list string :=
  let regularParts :=
    filter (fun p => negb (PartSelection.partType (part p)
                           =? "ADAPTER_SPOOL_SIDE")%string) parts in
  let spoolSides :=
    filter (fun p => (PartSelection.partType (part p)
                      =? "ADAPTER_SPOOL_SIDE")%string) parts in
  let spoolGroups := fold_left groupSide spoolSides [] in
  map regularLine regularParts ++ PdfGenerator.spoolLines 65%N spoolGroups.
End ReportModal.

(* ================================================================== *)
(** ** client: PartConfiguration state                                 *)
(* ================================================================== *)

Module Configurator.
(** [ConfigState].  The select widgets hand their values over as text, so
    [boltCount] holds the text of the chosen count. *)
Record ConfigState := mkConfig {
  pressure : option Z;
  flangeSize : option string;
  boltCount : option string;
  boltSize : option string;
  selectedFlangeSpec : option FlangeSpec.t;
  side1Spec : option FlangeSpec.t;
  side2Spec : option FlangeSpec.t;
  currentSide : option Z
}.

(** [useState<ConfigState>({})]. *)
Definition initial : ConfigState :=
  {| pressure := None; flangeSize := None; boltCount := None;
     boltSize := None; selectedFlangeSpec := None; side1Spec := None;
     side2Spec := None; currentSide := None |}.

Definition set_selected (c : ConfigState) (sel : option FlangeSpec.t)
  : ConfigState :=
  {| pressure := pressure c; flangeSize := flangeSize c;
     boltCount := boltCount c; boltSize := boltSize c;
     selectedFlangeSpec := sel; side1Spec := side1Spec c;
     side2Spec := side2Spec c; currentSide := currentSide c |}.

(** The auto-select effect, run on the candidates the server returned. *)
Definition autoSelect (flangeOptions : list FlangeSpec.t) (c : ConfigState)
  : ConfigState :=
  match flangeOptions, selectedFlangeSpec c with
  | [spec], None => set_selected c (Some spec)
  | [_], Some _ => c
  | _, Some _ => set_selected c None
  | _, None => c
  end.

(** [pressure] is the integer the chosen option text stands for. *)
Definition handlePressureChange (p : Z) (c : ConfigState) : ConfigState :=
  {| pressure := Some p; flangeSize := flangeSize c;
     boltCount := boltCount c; boltSize := boltSize c;
     selectedFlangeSpec := selectedFlangeSpec c; side1Spec := side1Spec c;
     side2Spec := side2Spec c; currentSide := currentSide c |}.

(** The three fields [handleFlangeSelectionChange] is called with. *)
Inductive field : Type := FlangeSizeField | BoltCountField | BoltSizeField.

Definition handleFlangeSelectionChange (f : field) (value : string)
           (c : ConfigState) : ConfigState :=
  {| pressure := pressure c;
     flangeSize := match f with FlangeSizeField => Some value
                                | _ => flangeSize c end;
     boltCount := match f with BoltCountField => Some value
                               | _ => boltCount c end;
     boltSize := match f with BoltSizeField => Some value
                              | _ => boltSize c end;
     selectedFlangeSpec := None; side1Spec := side1Spec c;
     side2Spec := side2Spec c; currentSide := currentSide c |}.

Definition handleAdapterSpoolSideComplete (spec : FlangeSpec.t)
           (c : ConfigState) : ConfigState :=
  match currentSide c with
  | Some 1 =>
      {| pressure := pressure c; flangeSize := None; boltCount := None;
         boltSize := None; selectedFlangeSpec := None;
         side1Spec := Some spec; side2Spec := side2Spec c;
         currentSide := Some 2 |}
  | _ =>
      {| pressure := pressure c; flangeSize := flangeSize c;
         boltCount := boltCount c; boltSize := boltSize c;
         selectedFlangeSpec := selectedFlangeSpec c;
         side1Spec := side1Spec c; side2Spec := Some spec;
         currentSide := currentSide c |}
  end.

Definition isAdapterSpool (partType : string) : bool :=
  (partType =? "ADAPTER_SPOOL")%string.

Definition canComplete (partType : string) (c : ConfigState) : bool :=
  if isAdapterSpool partType then
    match side1Spec c, side2Spec c with
    | Some _, Some _ => true
    | _, _ => false
    end
  else match selectedFlangeSpec c with
       | Some _ => true
       | None => false
       end.

(** What [handleComplete] does: the destructive toast, or [onComplete]
    with the data of one part or of the two sides of an adapter spool. *)
Inductive Completion : Type :=
| ConfigurationIncomplete
| CompleteSpool (spoolGroupId : string) (sides : list UseStack.Side)
| CompletePart (partType flangeSpecId : string) (pressureValue : option Z)
| NoCallback.

(** [now] is [Date.now()]. *)
Definition handleComplete (partType : string) (now : Z) (c : ConfigState)
  : Completion :=
  if negb (canComplete partType c) then ConfigurationIncomplete
  else
    match isAdapterSpool partType, side1Spec c, side2Spec c with
    | true, Some s1, Some s2 =>
        CompleteSpool (string_of_Z now)
          [{| UseStack.flangeSpecId := FlangeSpec.id s1;
              UseStack.pressureValue := None |};
           {| UseStack.flangeSpecId := FlangeSpec.id s2;
              UseStack.pressureValue := None |}]
    | _, _, _ =>
        match selectedFlangeSpec c with
        | Some sel =>
            CompletePart partType (FlangeSpec.id sel)
              (if truthy_number (pressure c) then pressure c else None)
        | None => NoCallback
        end
    end.

(** The events that change the configuration state. *)
Inductive event : Type :=
| FlangeOptionsArrived (flangeOptions : list FlangeSpec.t)
| PressureChosen (p : Z)
| FieldChosen (f : field) (value : string)
| SideConfigured (spec : FlangeSpec.t).

Definition handle (c : ConfigState) (e : event) : ConfigState :=
  match e with
  | FlangeOptionsArrived flangeOptions => autoSelect flangeOptions c
  | PressureChosen p => handlePressureChange p c
  | FieldChosen f value => handleFlangeSelectionChange f value c
  | SideConfigured spec => handleAdapterSpoolSideComplete spec c
  end.

Definition run (events : list event) : ConfigState :=
  fold_left handle events initial.

Definition matchesPressure (flange : FlangeSpec.t) (partType : string)
           (pressure : Z) : bool :=
  let equals := fun col : option Z =>
                  match col with Some x => x =? pressure | None => false end in
  if (partType =? "ANNULAR")%string then
    equals (FlangeSpec.annularPressure flange)
  else if (partType =? "SINGLE_RAM")%string then
    equals (FlangeSpec.singleRamPressure flange)
  else if (partType =? "DOUBLE_RAMS")%string then
    equals (FlangeSpec.doubleRamsPressure flange)
  else if (partType =? "MUD_CROSS")%string then
    equals (FlangeSpec.mudCrossPressure flange)
  else true.
End Configurator.

(* ================================================================== *)
(** ** Integrity conditions of the tables                              *)
(* ================================================================== *)

Module Integrity.
Definition partIds (db : Db) : list string :=
  map PartSelection.id (partSelections db).

Definition stackIds (db : Db) : list string :=
  map StackHeader.id (stackHeaders db).

Definition specIds (db : Db) : list string :=
  map FlangeSpec.id (flangeSpecs db).

(** The primary key of [part_selection] and the foreign keys of
    [part_selection] and [stack_order]. *)
Definition referential (db : Db) : Prop :=
  NoDup (partIds db)
  /\ (forall p, In p (partSelections db) ->
        In (PartSelection.stackId p) (stackIds db)
        /\ In (PartSelection.flangeSpecId p) (specIds db))
  /\ (forall o, In o (stackOrders db) ->
        In (StackOrder.stackId o) (stackIds db)
        /\ In (StackOrder.partSelectionId o) (partIds db)).

(** Every order row positions a part of its own stack. *)
Definition ordersOwnStack (db : Db) : Prop :=
  forall o, In o (stackOrders db) ->
    exists p, In p (partSelections db)
              /\ PartSelection.id p = StackOrder.partSelectionId o
              /\ PartSelection.stackId p = StackOrder.stackId o.

(** The row an accepted insertion builds. *)
Definition createdPart (newId : string) (now : Z) (part : InsertPartSelection.t)
  : PartSelection.t :=
  {| PartSelection.id := newId;
     PartSelection.stackId := InsertPartSelection.stackId part;
     PartSelection.partType := InsertPartSelection.partType part;
     PartSelection.spoolGroupId := InsertPartSelection.spoolGroupId part;
     PartSelection.pressureValue := InsertPartSelection.pressureValue part;
     PartSelection.flangeSpecId := InsertPartSelection.flangeSpecId part;
     PartSelection.createdAt := Some now |}.

(** The stored positions of a stack, as a list of integers. *)
Definition positions (db : Db) (stackId : string) : list Z :=
  map StackOrder.position (Spec.positionAssignment db stackId).

(** The ids of the parts a read of the stack returns, in order. *)
Definition readIds (data : StackData) : list string :=
  map (fun r => PartSelection.id (part r)) (parts data).

(** Referential integrity of the reports of a store. *)
Definition reportsReferential (s : Store) : Prop :=
  forall r, In r (reportExports s) ->
    In (ReportExport.stackId r) (stackIds (tables s)).

(** No two rows of the read-back of a stack carry the same position, and
    at most one carries none: [ORDER BY position] then leaves one order
    only. *)
Definition positionsDistinct (db : Db) (stackId : string) : Prop :=
  NoDup (map snd (Storage.selectStackParts db stackId)).

(** The unique constraint of [flange_spec]. *)
Definition uniqueKeys (db : Db) : Prop :=
  NoDup (map Catalog.naturalKey (flangeSpecs db)).

(** The id of the row in conflict with a proposed spec, if there is one. *)
Definition conflictId (s : InsertFlangeSpec.t) (rows : list FlangeSpec.t)
  : option string :=
  option_map FlangeSpec.id (find (Catalog.conflicts s) rows).

(** The columns of a catalog row that are not in the [set] clause of
    [insertFlangeSpecs]. *)
Definition keptColumns (r : FlangeSpec.t)
  : string * (string * string * Z * string) * Z * string * option Z :=
  (FlangeSpec.id r, Catalog.naturalKey r, FlangeSpec.pressureClassPsi r,
   FlangeSpec.flangeSizeRaw r, FlangeSpec.createdAt r).

(** The row has the key of the proposed spec and its values in the seven
    columns of the [set] clause. *)
Definition carries (s : InsertFlangeSpec.t) (r : FlangeSpec.t) : Prop :=
  Catalog.naturalKey r = Catalog.proposedKey s
  /\ FlangeSpec.wrenchNo r = InsertFlangeSpec.wrenchNo s
  /\ FlangeSpec.truckUnitPsi r = InsertFlangeSpec.truckUnitPsi s
  /\ FlangeSpec.ringNeeded r = InsertFlangeSpec.ringNeeded s
  /\ FlangeSpec.annularPressure r = InsertFlangeSpec.annularPressure s
  /\ FlangeSpec.singleRamPressure r = InsertFlangeSpec.singleRamPressure s
  /\ FlangeSpec.doubleRamsPressure r = InsertFlangeSpec.doubleRamsPressure s
  /\ FlangeSpec.mudCrossPressure r = InsertFlangeSpec.mudCrossPressure s.
End Integrity.

Module SampleUpload.
(** A proposed spec with the key of [Sample.specA] and other values. *)
Definition respecA : InsertFlangeSpec.t :=
  {| InsertFlangeSpec.nominalBore := "13-5/8";
     InsertFlangeSpec.pressureClassLabel := "5M";
     InsertFlangeSpec.pressureClassPsi := 5001;
     InsertFlangeSpec.boltCount := 8;
     InsertFlangeSpec.sizeOfBolts := "1-1/8";
     InsertFlangeSpec.wrenchNo := 4;
     InsertFlangeSpec.truckUnitPsi := 1600;
     InsertFlangeSpec.ringNeeded := "BX-161";
     InsertFlangeSpec.flangeSizeRaw := "13-5/8 5M (rev)";
     InsertFlangeSpec.annularPressure := Some 5000;
     InsertFlangeSpec.singleRamPressure := Some 5000;
     InsertFlangeSpec.doubleRamsPressure := None;
     InsertFlangeSpec.mudCrossPressure := None |}.

(** A proposed spec whose key is not in [Sample.catalog]. *)
Definition specC : InsertFlangeSpec.t :=
  {| InsertFlangeSpec.nominalBore := "11";
     InsertFlangeSpec.pressureClassLabel := "10M";
     InsertFlangeSpec.pressureClassPsi := 10000;
     InsertFlangeSpec.boltCount := 16;
     InsertFlangeSpec.sizeOfBolts := "1-3/4";
     InsertFlangeSpec.wrenchNo := 5;
     InsertFlangeSpec.truckUnitPsi := 2000;
     InsertFlangeSpec.ringNeeded := "BX-158";
     InsertFlangeSpec.flangeSizeRaw := "11 10M";
     InsertFlangeSpec.annularPressure := None;
     InsertFlangeSpec.singleRamPressure := Some 10000;
     InsertFlangeSpec.doubleRamsPressure := Some 10000;
     InsertFlangeSpec.mudCrossPressure := None |}.

Definition fresh (n : nat) : string * Z :=
  (("new-" ++ string_of_Z (Z.of_nat n))%string, 100 + Z.of_nat n).

(** The stack "s1" of [Sample.twoMembers] beside a second stack "s2" with
    one part and one report. *)
Definition twoStacks : Store :=
  {| tables :=
       {| flangeSpecs := [Sample.specA; Sample.specB];
          stackHeaders :=
            [Sample.header;
             {| StackHeader.id := "s2"; StackHeader.title := Some "Second";
                StackHeader.createdAt := Some 1 |}];
          partSelections :=
            [Sample.selection "id1" PartType.ANNULAR None (Some 5000)
                              "spec-a" 10;
             {| PartSelection.id := "id3"; PartSelection.stackId := "s2";
                PartSelection.partType := PartType.MUD_CROSS;
                PartSelection.spoolGroupId := None;
                PartSelection.pressureValue := Some 5000;
                PartSelection.flangeSpecId := "spec-a";
                PartSelection.createdAt := Some 15 |};
             Sample.selection "id2" PartType.ROTATING_HEAD None None
                              "spec-b" 20];
          stackOrders :=
            [Sample.order "id2" 0;
             {| StackOrder.stackId := "s2";
                StackOrder.partSelectionId := "id3";
                StackOrder.position := 0 |};
             Sample.order "id1" 1] |};
     reportExports :=
       [{| ReportExport.id := "r2"; ReportExport.stackId := "s2";
           ReportExport.renderedHtml := None;
           ReportExport.pdfPath := Some "reports/r2.pdf";
           ReportExport.createdAt := Some 16 |}] |}.

Definition store : Store :=
  {| tables := Sample.twoMembers;
     reportExports :=
       [{| ReportExport.id := "r1"; ReportExport.stackId := "s1";
           ReportExport.renderedHtml := None;
           ReportExport.pdfPath := Some "reports/r1.pdf";
           ReportExport.createdAt := Some 5 |}] |}.
End SampleUpload.

(* ================================================================== *)
(** * Properties                                                        *)
(* ================================================================== *)

(** ** Sorting and deduplication *)

Section OrderByFacts.
Context {A : Type} (leb : A -> A -> bool).

Lemma insert_sorted_perm (x : A) (l : list A) :
  Permutation (insert_sorted leb x l) (x :: l).
Proof.
  induction l as [|y l IH]; simpl.
  - apply Permutation_refl.
  - destruct (leb x y).
    + apply Permutation_refl.
    + eapply Permutation_trans.
      * apply perm_skip. exact IH.
      * apply perm_swap.
Qed.

Lemma sort_by_perm (l : list A) : Permutation (sort_by leb l) l.
Proof.
  induction l as [|x l IH]; simpl.
  - constructor.
  - eapply Permutation_trans.
    + apply insert_sorted_perm.
    + apply perm_skip. exact IH.
Qed.

Lemma sort_by_In (l : list A) (x : A) : In x (sort_by leb l) <-> In x l.
Proof.
  split; apply Permutation_in.
  - apply sort_by_perm.
  - apply Permutation_sym, sort_by_perm.
Qed.

Lemma sort_by_nil (l : list A) : sort_by leb l = [] <-> l = [].
Proof.
  split; intros H.
  - pose proof (sort_by_perm l) as P. rewrite H in P.
    apply Permutation_nil. exact P.
  - subst l. reflexivity.
Qed.

Lemma sort_by_length (l : list A) :
  List.length (sort_by leb l) = List.length l.
Proof. apply Permutation_length, sort_by_perm. Qed.

Hypothesis leb_total : forall a b, leb a b = true \/ leb b a = true.
Hypothesis leb_trans :
  forall a b c, leb a b = true -> leb b c = true -> leb a c = true.

Let le (a b : A) : Prop := leb a b = true.

Lemma insert_sorted_sorted (x : A) (l : list A) :
  StronglySorted le l -> StronglySorted le (insert_sorted leb x l).
Proof.
  induction 1 as [|y l Hs IH Hall]; simpl.
  - constructor; constructor.
  - destruct (leb x y) eqn:Hxy.
    + constructor.
      * constructor; assumption.
      * constructor; [exact Hxy|].
        rewrite Forall_forall in *. intros z Hz.
        apply leb_trans with y; [exact Hxy | apply Hall, Hz].
    + constructor; [exact IH|].
      rewrite Forall_forall in *. intros z Hz.
      apply (Permutation_in _ (insert_sorted_perm x l)) in Hz.
      destruct Hz as [<-|Hz].
      * destruct (leb_total x y) as [H|H]; [congruence | exact H].
      * apply Hall, Hz.
Qed.

Lemma sort_by_sorted (l : list A) : StronglySorted le (sort_by leb l).
Proof.
  induction l as [|x l IH]; simpl.
  - constructor.
  - apply insert_sorted_sorted, IH.
Qed.
End OrderByFacts.

Section DistinctFacts.
Context {A : Type} (eqb : A -> A -> bool).
Hypothesis eqb_eq : forall x y, eqb x y = true <-> x = y.

Lemma memb_In (x : A) (l : list A) : memb eqb x l = true <-> In x l.
Proof.
  unfold memb. rewrite existsb_exists. split.
  - intros [y [Hy He]]. apply eqb_eq in He. subst y. exact Hy.
  - intros H. exists x. split; [exact H | apply eqb_eq; reflexivity].
Qed.

Lemma distinct_acc_In (l seen : list A) (x : A) :
  In x (distinct_acc eqb seen l) <-> In x l /\ ~ In x seen.
Proof.
  revert seen. induction l as [|y l IH]; intros seen; simpl.
  - tauto.
  - destruct (memb eqb y seen) eqn:Hm.
    + apply memb_In in Hm. rewrite IH. split.
      * intros [H1 H2]. tauto.
      * intros [[->|H1] H2]; [contradiction | tauto].
    + assert (Hn : ~ In y seen).
      { intros H. apply memb_In in H. congruence. }
      simpl. rewrite IH. simpl. split.
      * intros [->|[H1 H2]]; [tauto|]. split; [tauto|]. tauto.
      * intros [[->|H1] H2]; [tauto|].
        destruct (eqb y x) eqn:He.
        -- apply eqb_eq in He. tauto.
        -- right. split; [exact H1|]. intros [->|H]; [|tauto].
           assert (eqb x x = true) by (apply eqb_eq; reflexivity).
           congruence.
Qed.

Lemma distinct_acc_NoDup (l seen : list A) : NoDup (distinct_acc eqb seen l).
Proof.
  revert seen. induction l as [|y l IH]; intros seen; simpl.
  - constructor.
  - destruct (memb eqb y seen); [apply IH|].
    constructor; [|apply IH].
    rewrite distinct_acc_In. simpl. tauto.
Qed.

Lemma distinct_In (l : list A) (x : A) : In x (distinct eqb l) <-> In x l.
Proof. unfold distinct. rewrite distinct_acc_In. simpl. tauto. Qed.

Lemma distinct_NoDup (l : list A) : NoDup (distinct eqb l).
Proof. apply distinct_acc_NoDup. Qed.
End DistinctFacts.

Lemma filter_all {A : Type} (f : A -> bool) (l : list A) :
  (forall x, In x l -> f x = true) -> filter f l = l.
Proof.
  induction l as [|x l IH]; simpl; intros H; [reflexivity|].
  rewrite (H x (or_introl eq_refl)). f_equal. apply IH.
  intros y Hy. apply H. right. exact Hy.
Qed.

Lemma string_leb_trans (a b c : string) :
  String.leb a b = true -> String.leb b c = true -> String.leb a c = true.
Proof.
  assert (Hlt : forall a b c, String.compare a b = Lt ->
                  String.compare b c = Lt -> String.compare a c = Lt).
  { clear. induction a as [|x a IH]; intros [|y b] [|z c];
      simpl; try discriminate; try reflexivity.
    destruct (Ascii.compare x y) eqn:Hxy; try discriminate;
    destruct (Ascii.compare y z) eqn:Hyz; try discriminate.
    - apply Ascii.compare_eq_iff in Hxy, Hyz. subst.
      assert (Hzz : Ascii.compare z z = Eq)
        by (unfold Ascii.compare; apply N.compare_refl).
      rewrite Hzz. apply IH.
    - apply Ascii.compare_eq_iff in Hxy. subst. rewrite Hyz. reflexivity.
    - apply Ascii.compare_eq_iff in Hyz. subst. rewrite Hxy. reflexivity.
    - intros _ _.
      unfold Ascii.compare in *. rewrite N.compare_lt_iff in *.
      assert (H : (N_of_ascii x ?= N_of_ascii z)%N = Lt)
        by (apply N.compare_lt_iff; lia).
      rewrite H. reflexivity. }
  unfold String.leb.
  destruct (String.compare a b) eqn:Hab; try discriminate;
  destruct (String.compare b c) eqn:Hbc; try discriminate; intros _ _.
  - apply String.compare_eq_iff in Hab, Hbc. subst.
    assert (Hcc : String.compare c c = Eq).
    { clear. induction c as [|z c IH]; simpl; [reflexivity|].
      unfold Ascii.compare. rewrite N.compare_refl. exact IH. }
    rewrite Hcc. reflexivity.
  - apply String.compare_eq_iff in Hab. subst. rewrite Hbc. reflexivity.
  - apply String.compare_eq_iff in Hbc. subst. rewrite Hab. reflexivity.
  - rewrite (Hlt a b c Hab Hbc). reflexivity.
Qed.

(** ** Candidate filtering *)

Section CatalogFacts.
Import FlangeFilterOptions.

Lemma and_app (a b : list Storage.condition) (r : FlangeSpec.t) :
  Storage.and_ (a ++ b) r = Storage.and_ a r && Storage.and_ b r.
Proof. unfold Storage.and_. apply forallb_app. Qed.

Lemma getFlangeSpecs_pushed (db : Db) (f : t) (pushed : list Storage.condition) :
  Storage.partTypeConditions f = Some pushed ->
  Storage.getFlangeSpecs db (Some f) =
  Storage.orderBy_flangeSizeRaw
    (filter (Storage.and_ (pushed ++ Storage.narrowingConditions f))
            (flangeSpecs db)).
Proof.
  intros H. unfold Storage.getFlangeSpecs. rewrite H.
  destruct (pushed ++ Storage.narrowingConditions f) eqn:E; [|reflexivity].
  rewrite filter_all; [reflexivity|]. intros; reflexivity.
Qed.

Lemma getFlangeSpecs_default (db : Db) (f : t) :
  Storage.partTypeConditions f = None ->
  Storage.getFlangeSpecs db (Some f) = [].
Proof. intros H. unfold Storage.getFlangeSpecs. rewrite H. reflexivity. Qed.

(** Membership in the candidate set: a catalog row that meets every
    pushed condition. *)
Lemma getFlangeSpecs_In (db : Db) (f : t) (pushed : list Storage.condition)
      (r : FlangeSpec.t) :
  Storage.partTypeConditions f = Some pushed ->
  In r (Storage.getFlangeSpecs db (Some f)) <->
  In r (flangeSpecs db) /\ Storage.and_ pushed r = true
  /\ Storage.and_ (Storage.narrowingConditions f) r = true.
Proof.
  intros H. rewrite (getFlangeSpecs_pushed db f pushed H).
  unfold Storage.orderBy_flangeSizeRaw.
  rewrite sort_by_In, filter_In, and_app, andb_true_iff. tauto.
Qed.

Lemma narrowing_conditions (f : t) (r : FlangeSpec.t) :
  Storage.and_ (Storage.narrowingConditions f) r = Spec.narrowing f r.
Proof.
  unfold Storage.narrowingConditions, Spec.narrowing.
  rewrite !and_app.
  destruct (flangeSize f) as [s|], (boltCount f) as [n|],
           (boltSize f) as [b|]; simpl;
    try destruct (s =? "")%string; try destruct (b =? "")%string; simpl;
    unfold Storage.eq_text, Storage.eq_int;
    rewrite ?andb_true_r, ?andb_assoc; reflexivity.
Qed.

Lemma pressureCondition_stage (category : string) (f : t)
      (col : FlangeSpec.t -> option Z) (r : FlangeSpec.t) :
  Spec.attributeDriven category = true ->
  Spec.pressureAttribute category r = col r ->
  Storage.and_ (Storage.pressureCondition col f) r
  = Spec.categoryStage category (pressure f) r.
Proof.
  intros Ha Hc. unfold Spec.categoryStage, Storage.pressureCondition.
  rewrite Ha, Hc.
  destruct (pressure f) as [v|]; simpl;
    unfold Storage.eq_opt, Storage.isNotNull;
    destruct (col r); simpl; rewrite ?andb_true_r; reflexivity.
Qed.

(** What the [switch] pushes for a non-empty category value. *)
Lemma partTypeConditions_category (f : t) (category : string) :
  partType f = Some category -> category <> "" ->
  if Spec.recognized category then
    exists pushed, Storage.partTypeConditions f = Some pushed
      /\ forall r, Storage.and_ pushed r
                   = Spec.categoryStage category (pressure f) r
  else Storage.partTypeConditions f = None.
Proof.
  intros Hp Hne. unfold Storage.partTypeConditions. rewrite Hp. simpl.
  apply String.eqb_neq in Hne. rewrite Hne. simpl.
  unfold Spec.recognized.
  destruct (category =? PartType.ANNULAR)%string eqn:E1.
  { apply String.eqb_eq in E1. subst. simpl. eexists. split; [reflexivity|].
    intros r. apply pressureCondition_stage; reflexivity. }
  destruct (category =? PartType.SINGLE_RAM)%string eqn:E2.
  { apply String.eqb_eq in E2. subst. simpl. eexists. split; [reflexivity|].
    intros r. apply pressureCondition_stage; reflexivity. }
  destruct (category =? PartType.DOUBLE_RAMS)%string eqn:E3.
  { apply String.eqb_eq in E3. subst. simpl. eexists. split; [reflexivity|].
    intros r. apply pressureCondition_stage; reflexivity. }
  destruct (category =? PartType.MUD_CROSS)%string eqn:E4.
  { apply String.eqb_eq in E4. subst. simpl. eexists. split; [reflexivity|].
    intros r. apply pressureCondition_stage; reflexivity. }
  assert (Ha : Spec.attributeDriven category = false).
  { unfold Spec.attributeDriven, memb. simpl.
    rewrite E1, E2, E3, E4. reflexivity. }
  rewrite Ha. simpl.
  assert (Hg : Spec.geometryOrComposite category
               = ((category =? PartType.ANACONDA_LINES)
                  || (category =? PartType.ROTATING_HEAD)
                  || (category =? PartType.ADAPTER_SPOOL_SIDE))%string).
  { unfold Spec.geometryOrComposite, memb. simpl.
    rewrite orb_false_r, orb_assoc. reflexivity. }
  rewrite Hg.
  destruct ((category =? PartType.ANACONDA_LINES)
            || (category =? PartType.ROTATING_HEAD)
            || (category =? PartType.ADAPTER_SPOOL_SIDE))%string.
  - exists []. split; [reflexivity|]. intros r.
    unfold Spec.categoryStage. rewrite Ha. reflexivity.
  - reflexivity.
Qed.

Lemma partTypeConditions_absent (f : t) :
  truthy_string (partType f) = false ->
  Storage.partTypeConditions f = Some [].
Proof. intros H. unfold Storage.partTypeConditions. rewrite H. reflexivity. Qed.

Lemma candidates_perm (db : Db) (f : t) (pushed : list Storage.condition)
      (pass : FlangeSpec.t -> bool) :
  Storage.partTypeConditions f = Some pushed ->
  (forall r, Storage.and_ pushed r = pass r) ->
  Permutation (Storage.getFlangeSpecs db (Some f))
              (filter (fun r => pass r && Spec.narrowing f r)
                      (flangeSpecs db)).
Proof.
  intros H Hpass. rewrite (getFlangeSpecs_pushed db f pushed H).
  eapply Permutation_trans; [apply sort_by_perm|].
  erewrite filter_ext; [apply Permutation_refl|].
  intros r. rewrite and_app, Hpass, narrowing_conditions. reflexivity.
Qed.
End CatalogFacts.

(** C4 (amended): candidate filtering applies the category constraint first.
    For a non-empty category value: an attribute-driven category keeps
    exactly the records whose pressure attribute equals the target when a
    target is given, and the records where that attribute is non-null when
    none is given; a geometry-driven or composite category lets every record
    pass; any other value yields the empty list.  An absent or empty
    category value applies no category constraint.  The size-label and
    fastener-size filters are then applied as strict equalities when they
    are non-empty strings, the fastener-count filter whenever it is given. *)
Theorem getFlangeSpecs_category_constraint
        (db : Db) (f : FlangeFilterOptions.t) :
  let candidates := Storage.getFlangeSpecs db (Some f) in
  match FlangeFilterOptions.partType f with
  | Some category =>
      if (category =? "")%string then
        Permutation candidates (filter (Spec.narrowing f) (flangeSpecs db))
      else if Spec.recognized category then
        Permutation candidates
          (filter (fun r =>
                     Spec.categoryStage category
                       (FlangeFilterOptions.pressure f) r
                     && Spec.narrowing f r)
                  (flangeSpecs db))
      else candidates = []
  | None => Permutation candidates (filter (Spec.narrowing f) (flangeSpecs db))
  end.
Proof.
  intros candidates. subst candidates.
  destruct (FlangeFilterOptions.partType f) as [category|] eqn:Hp.
  - destruct (category =? "")%string eqn:He.
    + apply (candidates_perm db f [] (fun _ => true)); [|reflexivity].
      apply partTypeConditions_absent. rewrite Hp. simpl. rewrite He.
      reflexivity.
    + apply String.eqb_neq in He.
      pose proof (partTypeConditions_category f category Hp He) as H.
      destruct (Spec.recognized category).
      * destruct H as [pushed [H Hpass]].
        apply (candidates_perm db f pushed _ H Hpass).
      * apply getFlangeSpecs_default, H.
  - apply (candidates_perm db f [] (fun _ => true)); [|reflexivity].
    apply partTypeConditions_absent. rewrite Hp. reflexivity.
Qed.

(** C4, as stated, fails: the empty string is not a recognized category
    value, yet filtering with it returns the whole catalog. *)
Lemma getFlangeSpecs_empty_category_not_closed :
  Spec.recognized "" = false
  /\ Storage.getFlangeSpecs Sample.catalog
       (Some (Sample.filters (Some "") None))
     = [Sample.specA; Sample.specB].
Proof. split; reflexivity. Qed.

(** C10: for a geometry-driven or composite category, two filter bags that
    agree on size label, fastener count and fastener size give the same
    candidates, whatever their pressure fields are. *)
Theorem getFlangeSpecs_pressure_ignored
        (db : Db) (f1 f2 : FlangeFilterOptions.t) (category : string) :
  Spec.geometryOrComposite category = true ->
  FlangeFilterOptions.partType f1 = Some category ->
  FlangeFilterOptions.partType f2 = Some category ->
  FlangeFilterOptions.flangeSize f1 = FlangeFilterOptions.flangeSize f2 ->
  FlangeFilterOptions.boltCount f1 = FlangeFilterOptions.boltCount f2 ->
  FlangeFilterOptions.boltSize f1 = FlangeFilterOptions.boltSize f2 ->
  Storage.getFlangeSpecs db (Some f1) = Storage.getFlangeSpecs db (Some f2).
Proof.
  intros Hg H1 H2 Hs Hc Hb.
  assert (Hpushed : forall f, FlangeFilterOptions.partType f = Some category ->
                              Storage.partTypeConditions f = Some []).
  { intros f Hf. unfold Storage.partTypeConditions. rewrite Hf.
    unfold Spec.geometryOrComposite, memb in Hg. simpl in Hg.
    rewrite orb_false_r in Hg.
    destruct (category =? PartType.ANACONDA_LINES)%string eqn:E1;
      [apply String.eqb_eq in E1; subst; reflexivity|].
    destruct (category =? PartType.ROTATING_HEAD)%string eqn:E2;
      [apply String.eqb_eq in E2; subst; reflexivity|].
    destruct (category =? PartType.ADAPTER_SPOOL_SIDE)%string eqn:E3;
      [apply String.eqb_eq in E3; subst; reflexivity|].
    discriminate. }
  rewrite (getFlangeSpecs_pushed db f1 [] (Hpushed f1 H1)).
  rewrite (getFlangeSpecs_pushed db f2 [] (Hpushed f2 H2)).
  unfold Storage.narrowingConditions. rewrite Hs, Hc, Hb. reflexivity.
Qed.

Lemma getFlangeSpecs_pressure_ignored_witness :
  Spec.geometryOrComposite PartType.ROTATING_HEAD = true
  /\ Storage.getFlangeSpecs Sample.catalog
       (Some (Sample.filters (Some PartType.ROTATING_HEAD) (Some 99)))
     = Storage.getFlangeSpecs Sample.catalog
         (Some (Sample.filters (Some PartType.ROTATING_HEAD) None)).
Proof.
  split; [reflexivity|].
  apply (getFlangeSpecs_pressure_ignored Sample.catalog _ _
           PartType.ROTATING_HEAD); reflexivity.
Defined.

(** ** Dependent option lists *)

Section OptionFacts.
Import FlangeFilterOptions.

Lemma candidate_survives (db : Db) (f f' : t) (r : FlangeSpec.t) :
  partType f' = partType f -> pressure f' = pressure f ->
  In r (Storage.getFlangeSpecs db (Some f)) ->
  Spec.narrowing f' r = true ->
  Storage.getFlangeSpecs db (Some f') <> [].
Proof.
  intros Hpt Hpr Hin Hnar.
  assert (Hsame : Storage.partTypeConditions f' = Storage.partTypeConditions f).
  { unfold Storage.partTypeConditions, Storage.pressureCondition.
    rewrite Hpt, Hpr. reflexivity. }
  destruct (Storage.partTypeConditions f) as [pushed|] eqn:Hp.
  - apply (getFlangeSpecs_In db f pushed r Hp) in Hin.
    destruct Hin as [Hcat [Hpush _]].
    assert (Hin' : In r (Storage.getFlangeSpecs db (Some f'))).
    { apply (getFlangeSpecs_In db f' pushed r Hsame).
      rewrite narrowing_conditions. auto. }
    intros E. rewrite E in Hin'. exact Hin'.
  - rewrite (getFlangeSpecs_default db f Hp) in Hin. destruct Hin.
Qed.

Lemma candidate_narrowing (db : Db) (f : t) (r : FlangeSpec.t) :
  In r (Storage.getFlangeSpecs db (Some f)) -> Spec.narrowing f r = true.
Proof.
  intros Hin.
  destruct (Storage.partTypeConditions f) as [pushed|] eqn:Hp.
  - apply (getFlangeSpecs_In db f pushed r Hp) in Hin.
    rewrite <- narrowing_conditions. tauto.
  - rewrite (getFlangeSpecs_default db f Hp) in Hin. destruct Hin.
Qed.
End OptionFacts.

(** C2: every dependent option list is the deduplicated projection of its
    attribute over the candidates of the filters chosen so far, and
    choosing any offered value as the next filter leaves at least one
    candidate. *)
Theorem dependent_options_sound (db : Db) (f : FlangeFilterOptions.t) :
  let candidates := Storage.getFlangeSpecs db (Some f) in
  (NoDup (PartConfiguration.uniqueFlangeSizes candidates)
   /\ forall v, In v (PartConfiguration.uniqueFlangeSizes candidates) <->
                exists r, In r candidates /\ FlangeSpec.flangeSizeRaw r = v)
  /\ (NoDup (PartConfiguration.uniqueBoltCounts candidates)
      /\ forall v, In v (PartConfiguration.uniqueBoltCounts candidates) <->
                   exists r, In r candidates /\ FlangeSpec.boltCount r = v)
  /\ (NoDup (PartConfiguration.uniqueBoltSizes candidates)
      /\ forall v, In v (PartConfiguration.uniqueBoltSizes candidates) <->
                   exists r, In r candidates /\ FlangeSpec.sizeOfBolts r = v)
  /\ (forall v, In v (PartConfiguration.uniqueFlangeSizes candidates) ->
        Storage.getFlangeSpecs db
          (Some (PartConfiguration.select_flangeSize v f)) <> [])
  /\ (forall v, In v (PartConfiguration.uniqueBoltCounts candidates) ->
        Storage.getFlangeSpecs db
          (Some (PartConfiguration.select_boltCount v f)) <> [])
  /\ (forall v, In v (PartConfiguration.uniqueBoltSizes candidates) ->
        Storage.getFlangeSpecs db
          (Some (PartConfiguration.select_boltSize v f)) <> []).
Proof.
  intros candidates.
  assert (Hs : forall (proj : FlangeSpec.t -> string) v,
             In v (distinct String.eqb (map proj candidates)) <->
             exists r, In r candidates /\ proj r = v).
  { intros proj v. rewrite (distinct_In _ String.eqb_eq), in_map_iff.
    split; intros [r [H1 H2]]; exists r; auto. }
  assert (Hz : forall (proj : FlangeSpec.t -> Z) v,
             In v (distinct Z.eqb (map proj candidates)) <->
             exists r, In r candidates /\ proj r = v).
  { intros proj v. rewrite (distinct_In _ Z.eqb_eq), in_map_iff.
    split; intros [r [H1 H2]]; exists r; auto. }
  split; [split; [apply distinct_NoDup, String.eqb_eq | apply Hs]|].
  split; [split; [apply distinct_NoDup, Z.eqb_eq | apply Hz]|].
  split; [split; [apply distinct_NoDup, String.eqb_eq | apply Hs]|].
  split; [|split].
  - intros v Hv. apply Hs in Hv. destruct Hv as [r [Hr Hv]].
    apply (candidate_survives db f _ r); try reflexivity; [exact Hr|].
    pose proof (candidate_narrowing db f r Hr) as Hn.
    unfold Spec.narrowing in *. simpl.
    apply andb_true_iff in Hn. destruct Hn as [Hn Hn3].
    apply andb_true_iff in Hn. destruct Hn as [_ Hn2].
    rewrite Hn2, Hn3, Hv, String.eqb_refl, orb_true_r. reflexivity.
  - intros v Hv. apply Hz in Hv. destruct Hv as [r [Hr Hv]].
    apply (candidate_survives db f _ r); try reflexivity; [exact Hr|].
    pose proof (candidate_narrowing db f r Hr) as Hn.
    unfold Spec.narrowing in *. simpl.
    apply andb_true_iff in Hn. destruct Hn as [Hn Hn3].
    apply andb_true_iff in Hn. destruct Hn as [Hn1 _].
    rewrite Hn1, Hn3, Hv, Z.eqb_refl. reflexivity.
  - intros v Hv. apply Hs in Hv. destruct Hv as [r [Hr Hv]].
    apply (candidate_survives db f _ r); try reflexivity; [exact Hr|].
    pose proof (candidate_narrowing db f r Hr) as Hn.
    unfold Spec.narrowing in *. simpl.
    apply andb_true_iff in Hn. destruct Hn as [Hn _].
    rewrite Hn, Hv, String.eqb_refl, orb_true_r. reflexivity.
Qed.

Lemma dependent_options_sound_witness :
  In 8 (PartConfiguration.uniqueBoltCounts
          (Storage.getFlangeSpecs Sample.catalog
             (Some (Sample.filters (Some PartType.ANNULAR) (Some 5000)))))
  /\ Storage.getFlangeSpecs Sample.catalog
       (Some (PartConfiguration.select_boltCount 8
                (Sample.filters (Some PartType.ANNULAR) (Some 5000)))) <> [].
Proof.
  assert (H : In 8 (PartConfiguration.uniqueBoltCounts
                      (Storage.getFlangeSpecs Sample.catalog
                         (Some (Sample.filters (Some PartType.ANNULAR)
                                               (Some 5000))))))
    by (vm_compute; auto).
  split; [exact H|].
  exact (proj1 (proj2 (proj2 (proj2 (proj2
           (dependent_options_sound Sample.catalog
              (Sample.filters (Some PartType.ANNULAR) (Some 5000)))))))
         8 H).
Defined.

(** ** Target options *)

Lemma StronglySorted_filter {A : Type} (R : A -> A -> Prop) (f : A -> bool)
      (l : list A) :
  StronglySorted R l -> StronglySorted R (filter f l).
Proof.
  induction 1 as [|x l Hs IH Hall]; simpl; [constructor|].
  destruct (f x); [|exact IH].
  constructor; [exact IH|].
  rewrite Forall_forall in *. intros y Hy. apply filter_In in Hy.
  apply Hall, Hy.
Qed.

Lemma sorted_leb_NoDup_lt (l : list Z) :
  StronglySorted (fun a b => Z.leb a b = true) l -> NoDup l ->
  StronglySorted Z.lt l.
Proof.
  induction 1 as [|x l Hs IH Hall]; intros Hnd; [constructor|].
  inversion Hnd as [|? ? Hx Hnd']; subst.
  constructor; [apply IH, Hnd'|].
  rewrite Forall_forall in *. intros y Hy.
  pose proof (Hall y Hy) as Hle. apply Z.leb_le in Hle.
  assert (x <> y) by (intros ->; contradiction). lia.
Qed.

Lemma selectDistinctNotNull_sorted (col : FlangeSpec.t -> option Z)
      (rows : list FlangeSpec.t) :
  StronglySorted Z.lt (Storage.selectDistinctNotNull col rows).
Proof.
  unfold Storage.selectDistinctNotNull.
  apply sorted_leb_NoDup_lt.
  - apply sort_by_sorted.
    + intros a b. rewrite !Z.leb_le. lia.
    + intros a b c. rewrite !Z.leb_le. lia.
  - eapply Permutation_NoDup.
    + apply Permutation_sym, sort_by_perm.
    + apply distinct_NoDup, Z.eqb_eq.
Qed.

Lemma selectDistinctNotNull_In (col : FlangeSpec.t -> option Z)
      (rows : list FlangeSpec.t) (v : Z) :
  In v (Storage.selectDistinctNotNull col rows) <->
  exists row, In row rows /\ col row = Some v.
Proof.
  unfold Storage.selectDistinctNotNull.
  rewrite sort_by_In, (distinct_In _ Z.eqb_eq), in_flat_map.
  split; intros [row [Hrow H]]; exists row; split; try exact Hrow.
  - destruct (col row) as [x|]; simpl in H; [|contradiction].
    destruct H as [->|[]]. reflexivity.
  - rewrite H. left. reflexivity.
Qed.

Lemma StronglySorted_lt_NoDup (l : list Z) :
  StronglySorted Z.lt l -> NoDup l.
Proof.
  induction 1 as [|x l Hs IH Hall]; constructor; [|exact IH].
  intros Hin. rewrite Forall_forall in Hall. specialize (Hall x Hin). lia.
Qed.

(** C5: for an attribute-driven category the target options are exactly the
    strictly positive, non-null values of the category's pressure attribute
    over the whole catalog, in strictly ascending order (hence without
    duplicates); for every other category value the list is empty. *)
Theorem getPressureOptions_spec (db : Db) (category : string) :
  (Spec.attributeDriven category = true ->
   let options := Storage.getPressureOptions db category in
   StronglySorted Z.lt options
   /\ NoDup options
   /\ forall v, In v options <->
                0 < v /\ exists row, In row (flangeSpecs db)
                                     /\ Spec.pressureAttribute category row
                                        = Some v)
  /\ (Spec.attributeDriven category = false ->
      Storage.getPressureOptions db category = []).
Proof.
  assert (Hcol : forall col,
            Storage.pressureColumn category = Some col ->
            (forall row, Spec.pressureAttribute category row = col row) ->
            let options := Storage.getPressureOptions db category in
            StronglySorted Z.lt options /\ NoDup options
            /\ forall v, In v options <->
                 0 < v /\ exists row, In row (flangeSpecs db)
                            /\ Spec.pressureAttribute category row = Some v).
  { intros col Hc Hattr options. subst options.
    unfold Storage.getPressureOptions. rewrite Hc.
    assert (Hs : StronglySorted Z.lt
                   (filter (fun p => 0 <? p)
                      (Storage.selectDistinctNotNull col (flangeSpecs db))))
      by apply StronglySorted_filter, selectDistinctNotNull_sorted.
    split; [exact Hs|]. split; [apply StronglySorted_lt_NoDup, Hs|].
    intros v. rewrite filter_In, selectDistinctNotNull_In, Z.ltb_lt.
    split.
    - intros [[row [H1 H2]] Hpos]. split; [exact Hpos|].
      exists row. rewrite Hattr. auto.
    - intros [Hpos [row [H1 H2]]]. split; [|exact Hpos].
      exists row. rewrite <- Hattr. auto. }
  split.
  - intros Ha. unfold Spec.attributeDriven in Ha.
    apply (memb_In _ String.eqb_eq) in Ha. simpl in Ha.
    destruct Ha as [<-|[<-|[<-|[<-|[]]]]].
    + apply (Hcol FlangeSpec.annularPressure); reflexivity.
    + apply (Hcol FlangeSpec.singleRamPressure); reflexivity.
    + apply (Hcol FlangeSpec.doubleRamsPressure); reflexivity.
    + apply (Hcol FlangeSpec.mudCrossPressure); reflexivity.
  - intros Ha. unfold Spec.attributeDriven, memb in Ha. simpl in Ha.
    rewrite orb_false_r in Ha.
    apply orb_false_iff in Ha. destruct Ha as [E1 Ha].
    apply orb_false_iff in Ha. destruct Ha as [E2 Ha].
    apply orb_false_iff in Ha. destruct Ha as [E3 E4].
    unfold Storage.getPressureOptions, Storage.pressureColumn.
    rewrite E1, E2, E3, E4. reflexivity.
Qed.

Lemma getPressureOptions_spec_witness :
  (Spec.attributeDriven PartType.ANNULAR = true
   /\ In 5000 (Storage.getPressureOptions Sample.catalog PartType.ANNULAR))
  /\ (Spec.attributeDriven PartType.ROTATING_HEAD = false
      /\ Storage.getPressureOptions Sample.catalog PartType.ROTATING_HEAD = []).
Proof.
  split; (split; [reflexivity|]).
  - apply (proj1 (getPressureOptions_spec Sample.catalog PartType.ANNULAR)
                 eq_refl).
    split; [lia|]. exists Sample.specA. split; [left|]; reflexivity.
  - exact (proj2 (getPressureOptions_spec Sample.catalog
                    PartType.ROTATING_HEAD) eq_refl).
Defined.

(** ** Stack order *)

Section ReorderFacts.
Variable stackId : string.

Lemma orderValues_In (ids : list string) (index : Z) (o : StackOrder.t) :
  In o (Storage.orderValues stackId index ids) ->
  StackOrder.stackId o = stackId /\ In (StackOrder.partSelectionId o) ids.
Proof.
  revert index. induction ids as [|id ids IH]; intros index; simpl.
  - intros [].
  - intros [<-|H]; simpl; [auto|].
    destruct (IH _ H). auto.
Qed.

Lemma orderValues_same_stack (ids : list string) (index : Z) :
  filter (fun o => (StackOrder.stackId o =? stackId)%string)
         (Storage.orderValues stackId index ids)
  = Storage.orderValues stackId index ids.
Proof.
  apply filter_all. intros o Ho. apply orderValues_In in Ho.
  apply String.eqb_eq, Ho.
Qed.

Lemma orderValues_absent (ids : list string) (index : Z) (id : string) :
  ~ In id ids ->
  filter (fun o => (StackOrder.partSelectionId o =? id)%string)
         (Storage.orderValues stackId index ids) = [].
Proof.
  revert index. induction ids as [|x ids IH]; intros index Hn; simpl.
  - reflexivity.
  - destruct (x =? id)%string eqn:E.
    + apply String.eqb_eq in E. subst. exfalso. apply Hn. left. reflexivity.
    + apply IH. intros H. apply Hn. right. exact H.
Qed.

(** In a duplicate-free sequence an id gets one row, at its own index. *)
Lemma orderValues_position (ids : list string) (index : Z) (i : nat)
      (id : string) :
  NoDup ids -> nth_error ids i = Some id ->
  map StackOrder.position
      (filter (fun o => (StackOrder.partSelectionId o =? id)%string)
              (Storage.orderValues stackId index ids))
  = [index + Z.of_nat i].
Proof.
  revert index i. induction ids as [|x ids IH]; intros index i Hnd Hnth.
  - destruct i; discriminate.
  - inversion Hnd as [|? ? Hx Hnd']; subst. destruct i as [|i]; simpl in *.
    + injection Hnth as ->. rewrite String.eqb_refl. simpl.
      rewrite orderValues_absent by exact Hx. simpl.
      f_equal. lia.
    + assert (Hin : In id ids) by (eapply nth_error_In; exact Hnth).
      destruct (x =? id)%string eqn:E.
      * apply String.eqb_eq in E. subst. contradiction.
      * rewrite (IH (index + 1) i Hnd' Hnth). f_equal. lia.
Qed.

Lemma other_rows_filtered (rows : list StackOrder.t) :
  filter (fun o => (StackOrder.stackId o =? stackId)%string)
         (filter (fun o => negb (StackOrder.stackId o =? stackId)%string) rows)
  = [].
Proof.
  induction rows as [|o rows IH]; simpl; [reflexivity|].
  destruct (StackOrder.stackId o =? stackId)%string eqn:E; simpl;
    [|rewrite E]; exact IH.
Qed.

Lemma other_rows_kept (rows : list StackOrder.t) (other : string) :
  other <> stackId ->
  filter (fun o => (StackOrder.stackId o =? other)%string)
         (filter (fun o => negb (StackOrder.stackId o =? stackId)%string) rows)
  = filter (fun o => (StackOrder.stackId o =? other)%string) rows.
Proof.
  intros Hne. induction rows as [|o rows IH]; simpl; [reflexivity|].
  destruct (StackOrder.stackId o =? stackId)%string eqn:E; simpl.
  - apply String.eqb_eq in E.
    destruct (StackOrder.stackId o =? other)%string eqn:E';
      [apply String.eqb_eq in E'; congruence | exact IH].
  - destruct (StackOrder.stackId o =? other)%string; [f_equal|]; exact IH.
Qed.

Lemma orderValues_other_stack (ids : list string) (index : Z) (other : string) :
  other <> stackId ->
  filter (fun o => (StackOrder.stackId o =? other)%string)
         (Storage.orderValues stackId index ids) = [].
Proof.
  intros Hne. revert index. induction ids as [|x ids IH]; intros index; simpl.
  - reflexivity.
  - destruct (stackId =? other)%string eqn:E;
      [apply String.eqb_eq in E; congruence | apply IH].
Qed.

(** The rows a permutation of the members asks for pass the foreign keys. *)
Lemma permutation_insertable (db : Db) (rows : list StackOrder.t)
      (ids : list string) (index : Z) :
  Storage.getStack db stackId <> None ->
  (forall id, In id ids -> In id (Spec.members db stackId)) ->
  forallb (Storage.stackOrder_insertable (Storage.set_stackOrders db rows))
          (Storage.orderValues stackId index ids) = true.
Proof.
  intros Hstack Hmem. apply forallb_forall. intros o Ho.
  apply orderValues_In in Ho. destruct Ho as [Hs Hp].
  unfold Storage.stackOrder_insertable. simpl.
  apply andb_true_iff. split; apply existsb_exists.
  - unfold Storage.getStack in Hstack.
    destruct (filter (fun s => (StackHeader.id s =? stackId)%string)
                     (stackHeaders db)) as [|s rest] eqn:E;
      [contradiction Hstack; reflexivity|].
    assert (Hin : In s (filter (fun s => (StackHeader.id s =? stackId)%string)
                               (stackHeaders db)))
      by (rewrite E; left; reflexivity).
    apply filter_In in Hin. exists s. rewrite Hs. exact Hin.
  - apply Hmem in Hp. unfold Spec.members in Hp.
    apply in_map_iff in Hp. destruct Hp as [p [Hid Hp]].
    apply filter_In in Hp. exists p. split; [apply Hp|].
    apply String.eqb_eq. exact Hid.
Qed.
End ReorderFacts.

(** C1 (amended): the reorder operation checks nothing about the supplied
    sequence.  Whatever the sequence, the stack's previous position rows are
    deleted, so only rows built from the supplied sequence remain for the
    stack.  When the sequence is a permutation of the current member set of
    an existing stack, the call succeeds and the stack's position assignment
    becomes each id's 0-based index in the sequence; other stacks' rows and
    the part instances are left as they were. *)
Theorem updateStackOrder_replaces_positions
        (db : Db) (stackId : string) (ids : list string) :
  let db' := fst (Storage.updateStackOrder stackId ids db) in
  let outcome := snd (Storage.updateStackOrder stackId ids db) in
  (forall o, In o (Spec.positionAssignment db' stackId) ->
             In o (Storage.orderValues stackId 0 ids))
  /\ (Storage.getStack db stackId <> None ->
      Spec.permutationOfMembers db stackId ids ->
      outcome = Ok tt
      /\ Spec.positionAssignment db' stackId
         = Storage.orderValues stackId 0 ids
      /\ (forall i id, nth_error ids i = Some id ->
                       Spec.positionsOf db' stackId id = [Z.of_nat i])
      /\ (forall other, other <> stackId ->
                        Spec.positionAssignment db' other
                        = Spec.positionAssignment db other)
      /\ partSelections db' = partSelections db).
Proof.
  intros db' outcome. split.
  - subst db'. unfold Storage.updateStackOrder, Spec.positionAssignment.
    intros o. destruct ids as [|id ids].
    + simpl. rewrite other_rows_filtered. intros [].
    + remember (Storage.orderValues stackId 0 (id :: ids)) as values.
      destruct (forallb _ values); cbn [fst stackOrders Storage.set_stackOrders].
      * rewrite filter_app, other_rows_filtered. subst values.
        rewrite orderValues_same_stack. auto.
      * rewrite other_rows_filtered. intros [].
  - intros Hstack [Hnd Hmem].
    assert (Hupd : Storage.updateStackOrder stackId ids db
                   = (Storage.set_stackOrders db
                        (filter (fun o => negb (StackOrder.stackId o
                                                =? stackId)%string)
                                (stackOrders db)
                         ++ Storage.orderValues stackId 0 ids), Ok tt)).
    { unfold Storage.updateStackOrder. destruct ids as [|id ids].
      - simpl. rewrite app_nil_r. reflexivity.
      - rewrite permutation_insertable; [reflexivity | exact Hstack|].
        intros x Hx. apply Hmem, Hx. }
    subst db' outcome. rewrite Hupd. simpl.
    assert (Hassign : Spec.positionAssignment
                        (Storage.set_stackOrders db
                           (filter (fun o => negb (StackOrder.stackId o
                                                   =? stackId)%string)
                                   (stackOrders db)
                            ++ Storage.orderValues stackId 0 ids)) stackId
                      = Storage.orderValues stackId 0 ids).
    { unfold Spec.positionAssignment. simpl.
      rewrite filter_app, other_rows_filtered, orderValues_same_stack.
      reflexivity. }
    split; [reflexivity|]. split; [exact Hassign|]. split; [|split].
    + intros i id Hnth. unfold Spec.positionsOf. rewrite Hassign.
      rewrite (orderValues_position stackId ids 0 i id Hnd Hnth).
      reflexivity.
    + intros other Hne. unfold Spec.positionAssignment. simpl.
      rewrite filter_app, other_rows_kept by exact Hne.
      rewrite orderValues_other_stack by exact Hne. apply app_nil_r.
    + reflexivity.
Qed.

Lemma updateStackOrder_replaces_positions_witness :
  Storage.getStack Sample.twoMembers "s1" <> None
  /\ Spec.permutationOfMembers Sample.twoMembers "s1" ["id1"; "id2"]
  /\ Spec.positionsOf
       (fst (Storage.updateStackOrder "s1" ["id1"; "id2"] Sample.twoMembers))
       "s1" "id2" = [1].
Proof.
  assert (Hs : Storage.getStack Sample.twoMembers "s1" <> None)
    by (vm_compute; discriminate).
  assert (Hp : Spec.permutationOfMembers Sample.twoMembers "s1"
                                         ["id1"; "id2"]).
  { split.
    - constructor; [simpl; intros [H|[]]; discriminate|].
      constructor; [intros []|constructor].
    - intros id. vm_compute. tauto. }
  split; [exact Hs|]. split; [exact Hp|].
  exact (proj1 (proj2 (proj2
           (proj2 (updateStackOrder_replaces_positions
                     Sample.twoMembers "s1" ["id1"; "id2"]) Hs Hp)))
         1%nat "id2" eq_refl).
Defined.

(** C1, as stated, fails: a sequence that omits the member id2 is accepted
    with status 200 and the stored assignment is rewritten; id2 loses its
    position. *)
Lemma reorder_omission_not_rejected :
  ~ Spec.permutationOfMembers Sample.twoMembers "s1" ["id1"]
  /\ Routes.status (snd (Routes.patch_stack_order "s1" (Some ["id1"])
                                                  Sample.twoMembers)) = 200
  /\ Spec.positionAssignment Sample.twoMembers "s1"
     = [Sample.order "id2" 0; Sample.order "id1" 1]
  /\ Spec.positionAssignment
       (fst (Routes.patch_stack_order "s1" (Some ["id1"]) Sample.twoMembers))
       "s1"
     = [Sample.order "id1" 0].
Proof.
  split; [|repeat split; reflexivity].
  intros [_ H]. specialize (H "id2").
  assert (Hin : In "id2" (Spec.members Sample.twoMembers "s1"))
    by (vm_compute; auto).
  apply H in Hin. simpl in Hin. destruct Hin as [E|[]]. discriminate.
Qed.

(** ** Reading a stack back *)

Lemma opt_leb_total (a b : option Z) : opt_leb a b = true \/ opt_leb b a = true.
Proof.
  destruct a as [x|], b as [y|]; simpl; auto.
  rewrite !Z.leb_le. lia.
Qed.

Lemma opt_leb_trans (a b c : option Z) :
  opt_leb a b = true -> opt_leb b c = true -> opt_leb a c = true.
Proof.
  destruct a as [x|], b as [y|], c as [z|]; simpl; try discriminate; auto.
  rewrite !Z.leb_le. lia.
Qed.

Lemma innerJoin_In (db : Db) (p : PartSelection.t) (r : PartWithSpec) :
  In r (Storage.innerJoin_flangeSpecs db p) <->
  part r = p /\ In (flangeSpec r) (flangeSpecs db)
  /\ PartSelection.flangeSpecId p = FlangeSpec.id (flangeSpec r).
Proof.
  unfold Storage.innerJoin_flangeSpecs. rewrite in_map_iff. split.
  - intros [f [<- Hf]]. apply filter_In in Hf. destruct Hf as [Hf He].
    apply String.eqb_eq in He. simpl. auto.
  - intros [<- [Hf He]]. exists (flangeSpec r). split.
    + destruct r; reflexivity.
    + apply filter_In. split; [exact Hf|]. apply String.eqb_eq, He.
Qed.

Lemma leftJoin_In (db : Db) (r0 : PartWithSpec) (row : Storage.joinedRow) :
  In row (Storage.leftJoin_stackOrders db r0) <->
  fst row = r0
  /\ match snd row with
     | Some n => In n (Spec.storedPositions db (PartSelection.id (part r0)))
     | None => Spec.storedPositions db (PartSelection.id (part r0)) = []
     end.
Proof.
  unfold Storage.leftJoin_stackOrders, Spec.storedPositions.
  destruct (filter _ (stackOrders db)) as [|o os]; destruct row as [r pos].
  - simpl. split.
    + intros [H|[]]. injection H as <- <-. auto.
    + intros [-> H]. destruct pos as [n|]; [destruct H | left; reflexivity].
  - rewrite in_map_iff. cbn [fst snd]. split.
    + intros [o' [H Ho']]. injection H as <- <-. split; [reflexivity|].
      apply in_map. exact Ho'.
    + intros [-> H]. destruct pos as [n|]; [|discriminate].
      apply in_map_iff in H. destruct H as [o' [<- Ho']].
      exists o'. auto.
Qed.

Lemma leftJoin_nonempty (db : Db) (r0 : PartWithSpec) :
  exists pos, In (r0, pos) (Storage.leftJoin_stackOrders db r0).
Proof.
  unfold Storage.leftJoin_stackOrders.
  destruct (filter _ (stackOrders db)) as [|o os].
  - exists None. left. reflexivity.
  - exists (Some (StackOrder.position o)). left. reflexivity.
Qed.

Lemma selectStackParts_In (db : Db) (id : string) (row : Storage.joinedRow) :
  In row (Storage.selectStackParts db id) <->
  In (part (fst row)) (partSelections db)
  /\ PartSelection.stackId (part (fst row)) = id
  /\ In (flangeSpec (fst row)) (flangeSpecs db)
  /\ PartSelection.flangeSpecId (part (fst row))
     = FlangeSpec.id (flangeSpec (fst row))
  /\ In row (Storage.leftJoin_stackOrders db (fst row)).
Proof.
  unfold Storage.selectStackParts.
  rewrite sort_by_In, filter_In, in_flat_map, String.eqb_eq. split.
  - intros [[r [Hr Hrow]] Hs]. apply in_flat_map in Hr.
    destruct Hr as [p [Hp Hr]]. apply innerJoin_In in Hr.
    destruct Hr as [Hpart [Hf He]].
    assert (Hfst : fst row = r) by (apply leftJoin_In in Hrow; apply Hrow).
    subst r. rewrite Hpart. rewrite Hpart in Hs. auto.
  - intros [Hp [Hs [Hf [He Hrow]]]]. split; [|exact Hs].
    exists (fst row). split; [|exact Hrow].
    apply in_flat_map. exists (part (fst row)). split; [exact Hp|].
    apply innerJoin_In. auto.
Qed.



Lemma twoMembers_referential : Integrity.referential Sample.twoMembers.
Proof.
  split; [|split].
  - simpl. constructor; [intros [H|[]]; discriminate|].
    constructor; [intros []|constructor].
  - intros p [<-|[<-|[]]]; simpl; auto.
  - intros o [<-|[<-|[]]]; simpl; auto.
Defined.



(** ** Adapter-spool groups *)

Lemma post_stack_items_accepted
      (newId : string) (now : Z) (body : InsertPartSelection.t)
      (db db' : Db) (p : PartSelection.t) :
  Routes.post_stack_items newId now body db = (db', Routes.Json p) ->
  partSelections db' = partSelections db ++ [p]
  /\ PartSelection.id p = newId
  /\ PartSelection.spoolGroupId p = InsertPartSelection.spoolGroupId body.
Proof.
  unfold Routes.post_stack_items, Storage.addPartToStack.
  destruct (Storage.getFlangeSpecById db _); [|discriminate].
  destruct (Storage.partSelection_insertable db _); [|discriminate].
  destruct (Storage.stackOrder_insertable _ _); [|discriminate].
  intros H. injection H as <- <-. simpl. auto.
Qed.

Lemma groupMembers_removePart (db : Db) (partId groupId : string) :
  Spec.groupMembers (fst (Storage.removePartFromStack partId db)) groupId
  = filter (fun p => negb (PartSelection.id p =? partId)%string)
           (Spec.groupMembers db groupId).
Proof.
  unfold Spec.groupMembers. simpl.
  induction (partSelections db) as [|p ps IH]; simpl; [reflexivity|].
  destruct (PartSelection.id p =? partId)%string eqn:E; simpl;
    destruct (PartSelection.spoolGroupId p) as [g|]; simpl;
    try destruct (g =? groupId)%string; simpl; rewrite ?E; simpl;
    rewrite IH; reflexivity.
Qed.

(** C6 (amended): pairing is produced by composite finalization alone, and
    is not kept as an invariant.  Finalization posts the two sides as two
    separate add requests with one shared group identifier; when both are
    accepted and no stored instance carried that identifier before, exactly
    those two part instances share it.  Removing a part instance deletes
    the instances with that id and nothing else, so the other members of
    its group stay behind. *)
Theorem spool_group_members
        (rejects : forall A : Type, Routes.Response A -> bool)
        (db db' : Db) (currentStackId groupId partId : string)
        (side1 side2 : UseStack.Side) (fresh : nat -> string * Z)
        (p1 p2 : PartSelection.t) :
  (Spec.groupMembers db groupId = [] ->
   UseStack.addPartMutation_sides rejects (Some currentStackId) (Some groupId)
     [side1; side2] fresh db
   = (db', Ok [Routes.Json p1; Routes.Json p2]) ->
   Spec.groupMembers db' groupId = [p1; p2])
  /\ Spec.groupMembers (fst (Storage.removePartFromStack partId db)) groupId
     = filter (fun p => negb (PartSelection.id p =? partId)%string)
              (Spec.groupMembers db groupId).
Proof.
  split; [|apply groupMembers_removePart].
  intros Hfresh. unfold UseStack.addPartMutation_sides. simpl.
  destruct (Routes.post_stack_items _ _ _ db) as [db1 r1] eqn:E1.
  destruct (rejects _ r1); [discriminate|].
  destruct (Routes.post_stack_items _ _ _ db1) as [db2 r2] eqn:E2.
  destruct (rejects _ r2); [discriminate|].
  intros H. injection H as <- -> ->.
  apply post_stack_items_accepted in E1, E2. simpl in E1, E2.
  destruct E1 as [Hps1 [_ Hg1]]. destruct E2 as [Hps2 [_ Hg2]].
  unfold Spec.groupMembers in *.
  rewrite Hps2, Hps1, !filter_app, Hfresh. simpl.
  rewrite Hg1, Hg2, String.eqb_refl. reflexivity.
Qed.

Lemma spool_group_members_witness :
  let rejects := fun (A : Type) (r : Routes.Response A) =>
                   negb (Routes.status r =? 200) in
  let fresh := fun n : nat =>
                 (match n with O => "side1" | _ => "side2" end, Z.of_nat n) in
  let sides := [UseStack.mkSide "spec-a" None; UseStack.mkSide "spec-b" None] in
  Spec.groupMembers Sample.emptyStack "g" = []
  /\ map PartSelection.id
         (Spec.groupMembers
            (fst (UseStack.addPartMutation_sides rejects (Some "s1") (Some "g")
                    sides fresh Sample.emptyStack)) "g")
     = ["side1"; "side2"].
Proof.
  intros rejects fresh sides. split; [reflexivity|].
  rewrite (proj1 (spool_group_members rejects Sample.emptyStack
                    (fst (UseStack.addPartMutation_sides rejects (Some "s1")
                            (Some "g") sides fresh Sample.emptyStack))
                    "s1" "g" "none"
                    (UseStack.mkSide "spec-a" None)
                    (UseStack.mkSide "spec-b" None) fresh
                    (Sample.selection "side1" PartType.ADAPTER_SPOOL_SIDE
                       (Some "g") None "spec-a" 0)
                    (Sample.selection "side2" PartType.ADAPTER_SPOOL_SIDE
                       (Some "g") None "spec-b" 1))
                 eq_refl eq_refl).
  reflexivity.
Defined.

(** C6, as stated, fails: removing one side of a stored adapter spool is
    accepted and leaves its group with a single member. *)
Lemma remove_side_leaves_single_member :
  map PartSelection.id (Spec.groupMembers Sample.oneSpool "g")
  = ["side1"; "side2"]
  /\ Routes.status (snd (Routes.delete_stack_item "side1" Sample.oneSpool))
     = 200
  /\ map PartSelection.id
         (Spec.groupMembers
            (fst (Routes.delete_stack_item "side1" Sample.oneSpool)) "g")
     = ["side2"].
Proof. repeat split; reflexivity. Qed.

(** ** Report lines: partition and grouping *)

Lemma distinct_acc_snoc (seen l : list string) (x : string) :
  distinct_acc String.eqb seen (l ++ [x])
  = distinct_acc String.eqb seen l
    ++ (if memb String.eqb x seen || memb String.eqb x l then [] else [x]).
Proof.
  revert seen. induction l as [|y l IH]; intros seen; simpl.
  - rewrite orb_false_r. destruct (memb String.eqb x seen); reflexivity.
  - destruct (memb String.eqb y seen) eqn:Hy.
    + rewrite IH. f_equal.
      destruct (x =? y)%string eqn:E; simpl; [|reflexivity].
      apply String.eqb_eq in E. subst. rewrite Hy. reflexivity.
    + simpl. rewrite IH. simpl. do 2 f_equal.
      destruct (x =? y)%string, (memb String.eqb x seen); reflexivity.
Qed.

Lemma distinct_snoc (l : list string) (x : string) :
  distinct String.eqb (l ++ [x])
  = distinct String.eqb l ++ (if memb String.eqb x l then [] else [x]).
Proof. unfold distinct. rewrite distinct_acc_snoc. reflexivity. Qed.

Lemma memb_distinct (l : list string) (x : string) :
  memb String.eqb x (distinct String.eqb l) = memb String.eqb x l.
Proof.
  destruct (memb String.eqb x l) eqn:E.
  - apply (memb_In _ String.eqb_eq), (distinct_In _ String.eqb_eq).
    apply (memb_In _ String.eqb_eq). exact E.
  - destruct (memb String.eqb x (distinct String.eqb l)) eqn:E'; [|reflexivity].
    apply (proj1 (memb_In _ String.eqb_eq _ _)) in E'.
    apply (proj1 (distinct_In _ String.eqb_eq _ _)) in E'.
    apply (proj2 (memb_In _ String.eqb_eq _ _)) in E'. congruence.
Qed.

Section Grouping.
Variable F : string -> list PartWithSpec.

Let grouped (gs : list string) : PdfGenerator.SpoolGroups :=
  map (fun g => (g, F g)) gs.

Lemma has_grouped (gs : list string) (k : string) :
  PdfGenerator.has (grouped gs) k = memb String.eqb k gs.
Proof.
  unfold PdfGenerator.has, memb, grouped.
  induction gs as [|g gs IH]; simpl; [reflexivity|].
  rewrite IH, (String.eqb_sym g k). reflexivity.
Qed.

(** With distinct keys, [push_to] touches the one group of key [k]. *)
Lemma push_to_grouped (gs : list string) (k : string) (p : PartWithSpec) :
  NoDup gs ->
  PdfGenerator.push_to (grouped gs) k p
  = map (fun g => (g, if (g =? k)%string then F g ++ [p] else F g)) gs.
Proof.
  unfold grouped. induction 1 as [|g gs Hg Hnd IH]; simpl; [reflexivity|].
  destruct (g =? k)%string eqn:E.
  - apply String.eqb_eq in E. subst g. f_equal.
    apply map_ext_in. intros g' Hg'.
    destruct (g' =? k)%string eqn:E'; [|reflexivity].
    apply String.eqb_eq in E'. subst. contradiction.
  - f_equal. exact IH.
Qed.

Lemma push_to_new (groups : PdfGenerator.SpoolGroups) (k : string)
      (sides : list PartWithSpec) (p : PartWithSpec) :
  PdfGenerator.has groups k = false ->
  PdfGenerator.push_to (groups ++ [(k, sides)]) k p
  = groups ++ [(k, sides ++ [p])].
Proof.
  unfold PdfGenerator.has.
  induction groups as [|[g s] groups IH]; simpl; intros H.
  - rewrite String.eqb_refl. reflexivity.
  - apply orb_false_iff in H. destruct H as [E H]. rewrite E.
    f_equal. apply IH, H.
Qed.
End Grouping.

Lemma sides_snoc (sp : list PartWithSpec) (p : PartWithSpec) (g : string) :
  filter (fun q => (Spec.groupKey q =? g)%string) (sp ++ [p])
  = filter (fun q => (Spec.groupKey q =? g)%string) sp
    ++ (if (g =? Spec.groupKey p)%string then [p] else []).
Proof.
  rewrite filter_app. simpl. rewrite (String.eqb_sym g).
  destruct (Spec.groupKey p =? g)%string; reflexivity.
Qed.

Lemma sides_unknown_key (sp : list PartWithSpec) (k : string) :
  memb String.eqb k (map Spec.groupKey sp) = false ->
  filter (fun q => (Spec.groupKey q =? k)%string) sp = [].
Proof.
  unfold memb. induction sp as [|q sp IH]; simpl; [reflexivity|].
  intros H. apply orb_false_iff in H. destruct H as [E H].
  rewrite String.eqb_sym, E. apply IH, H.
Qed.

(** One more spool side: the grouped map after the loop body is the grouped
    map of the extended list. *)
Lemma groups_snoc (sp : list PartWithSpec) (p : PartWithSpec) :
  let G := fun l : list PartWithSpec =>
             map (fun g => (g, filter (fun q => (Spec.groupKey q =? g)%string) l))
                 (distinct String.eqb (map Spec.groupKey l)) in
  PdfGenerator.push_to
    (if PdfGenerator.has (G sp) (Spec.groupKey p) then G sp
     else G sp ++ [(Spec.groupKey p, [])])
    (Spec.groupKey p) p
  = G (sp ++ [p]).
Proof.
  intros G. subst G. cbv beta.
  set (k := Spec.groupKey p). set (keys := map Spec.groupKey sp).
  rewrite map_app.
  change (map Spec.groupKey [p]) with [k]. fold keys.
  rewrite distinct_snoc.
  rewrite (has_grouped
             (fun g => filter (fun q => (Spec.groupKey q =? g)%string) sp)),
          memb_distinct.
  destruct (memb String.eqb k keys) eqn:Hk.
  - rewrite app_nil_r.
    rewrite (push_to_grouped
               (fun g => filter (fun q => (Spec.groupKey q =? g)%string) sp))
      by (apply distinct_NoDup, String.eqb_eq).
    apply map_ext. intros g. rewrite sides_snoc. fold k.
    destruct (g =? k)%string; [reflexivity | rewrite app_nil_r; reflexivity].
  - rewrite push_to_new
      by (rewrite (has_grouped
                     (fun g => filter (fun q => (Spec.groupKey q =? g)%string)
                                      sp)),
                  memb_distinct; exact Hk).
    rewrite map_app. simpl. f_equal.
    + apply map_ext_in. intros g Hg. rewrite sides_snoc. fold k.
      destruct (g =? k)%string eqn:E; [|rewrite app_nil_r; reflexivity].
      apply String.eqb_eq in E. subst g.
      apply (proj1 (distinct_In _ String.eqb_eq _ _)) in Hg.
      apply (proj2 (memb_In _ String.eqb_eq _ _)) in Hg.
      subst k keys. congruence.
    + rewrite sides_snoc. fold k. rewrite String.eqb_refl.
      rewrite (sides_unknown_key sp k Hk). reflexivity.
Qed.

Lemma classify_spool_test (p : PartWithSpec) :
  (PartSelection.partType (part p) =? PartType.ADAPTER_SPOOL_SIDE)%string
  && truthy_string (PartSelection.spoolGroupId (part p))
  = Spec.isSpoolSide p.
Proof. reflexivity. Qed.

(** The partitioning loop: regular parts in stack order, and one group per
    distinct identifier, in first-encountered order, holding its sides in
    stack order. *)
Lemma classify_fold (ps : list PartWithSpec) :
  fold_left PdfGenerator.classify ps ([], [])
  = (map (fun g => (g, Spec.sidesOf ps g)) (Spec.groupIds ps),
     Spec.regularParts ps).
Proof.
  induction ps as [|p ps IH] using rev_ind; [reflexivity|].
  rewrite fold_left_app, IH. simpl. unfold PdfGenerator.classify.
  rewrite classify_spool_test.
  unfold Spec.sidesOf, Spec.groupIds, Spec.regularParts, Spec.spoolParts.
  rewrite !filter_app. simpl.
  destruct (Spec.isSpoolSide p) eqn:Hs; simpl.
  - rewrite app_nil_r. f_equal.
    change (match PartSelection.spoolGroupId (part p) with
            | Some g => g | None => "" end) with (Spec.groupKey p).
    apply (groups_snoc (filter Spec.isSpoolSide ps) p).
  - rewrite !app_nil_r. reflexivity.
Qed.

(** ** Report lines: letters and side numbers *)

Lemma nextLetter_letterOf (k : nat) :
  PdfGenerator.nextLetter (Spec.letterOf k) = Spec.letterOf (S k).
Proof.
  unfold PdfGenerator.nextLetter, Spec.letterOf.
  rewrite N.Div0.add_mod_idemp_l. f_equal. lia.
Qed.

Lemma indexed_from_cons {A : Type} (k : nat) (x : A) (l : list A) :
  Spec.indexed_from k (x :: l) = (k, x) :: Spec.indexed_from (S k) l.
Proof. reflexivity. Qed.

(** The letter-threading loop gives the [k]-th group the letter of index
    [k]. *)
Lemma spoolLines_indexed (F : string -> list PartWithSpec)
      (gs : list string) (k : nat) :
  PdfGenerator.spoolLines (Spec.letterOf k) (map (fun g => (g, F g)) gs)
  = flat_map (fun kg => PdfGenerator.sideLines (Spec.letterOf (fst kg)) 0
                          (PdfGenerator.sortSides (F (snd kg))))
             (Spec.indexed_from k gs).
Proof.
  revert k. induction gs as [|g gs IH]; intros k; [reflexivity|].
  rewrite indexed_from_cons. simpl. rewrite nextLetter_letterOf, IH.
  reflexivity.
Qed.

Lemma sideLines_length (c : N) (index : Z) (sides : list PartWithSpec) :
  List.length (PdfGenerator.sideLines c index sides) = List.length sides.
Proof.
  revert index. induction sides as [|s sides IH]; intros index; simpl;
    [|rewrite IH]; reflexivity.
Qed.


Lemma sideLines_In (c : N) (index : Z) (sides : list PartWithSpec)
      (line : string) :
  In line (PdfGenerator.sideLines c index sides) ->
  exists n side, In side sides /\ line = PdfGenerator.spoolLine c n side.
Proof.
  revert index. induction sides as [|s sides IH]; intros index; simpl.
  - intros [].
  - intros [<-|H].
    + exists (index + 1), s. auto.
    + destruct (IH _ H) as [n [side [Hs Hl]]]. exists n, side. auto.
Qed.



Lemma generateReportLines_eq (stackData : StackData) :
  PdfGenerator.generateReportLines stackData
  = map PdfGenerator.regularLine (Spec.regularParts (parts stackData))
    ++ flat_map
         (fun kg =>
            PdfGenerator.sideLines (Spec.letterOf (fst kg)) 0
              (PdfGenerator.sortSides (Spec.sidesOf (parts stackData) (snd kg))))
         (Spec.indexed (Spec.groupIds (parts stackData))).
Proof.
  unfold PdfGenerator.generateReportLines. rewrite classify_fold.
  f_equal. apply (spoolLines_indexed (Spec.sidesOf (parts stackData)) _ 0).
Qed.




(** ** Report lines: the pressure segment *)

Lemma append_cancel_l (a b c : string) :
  (a ++ b)%string = (a ++ c)%string -> b = c.
Proof.
  induction a as [|x a IH]; simpl; intros H; [exact H|].
  injection H as H. apply IH, H.
Qed.

Lemma append_assoc (a b c : string) :
  ((a ++ b) ++ c)%string = (a ++ b ++ c)%string.
Proof. induction a as [|x a IH]; simpl; [|rewrite IH]; reflexivity. Qed.

(** A line with the segment differs from the same line without it. *)
Lemma segment_visible (base : string) (v : Z) (f : FlangeSpec.t) :
  (base ++ PdfGenerator.pressureSegment v ++ PdfGenerator.specFields f)%string
  <> (base ++ PdfGenerator.specFields f)%string.
Proof.
  intros H. apply append_cancel_l in H.
  unfold PdfGenerator.pressureSegment, PdfGenerator.specFields in H.
  simpl in H. discriminate H.
Qed.

Lemma attributeDriven_not_spool (p : PartWithSpec) :
  Spec.attributeDriven (PartSelection.partType (part p)) = true ->
  Spec.isSpoolSide p = false.
Proof.
  intros H. unfold Spec.attributeDriven in H.
  apply (memb_In _ String.eqb_eq) in H. unfold Spec.isSpoolSide.
  simpl in H. destruct H as [<-|[<-|[<-|[<-|[]]]]]; reflexivity.
Qed.

Lemma spoolSide_not_attributeDriven (p : PartWithSpec) :
  Spec.isSpoolSide p = true ->
  Spec.attributeDriven (PartSelection.partType (part p)) = false.
Proof.
  intros H.
  destruct (Spec.attributeDriven (PartSelection.partType (part p))) eqn:E;
    [|reflexivity].
  apply attributeDriven_not_spool in E. congruence.
Qed.

Lemma regularLine_shape (p : PartWithSpec) :
  let pt := PartSelection.partType (part p) in
  PdfGenerator.regularLine p
  = match PartSelection.pressureValue (part p) with
    | Some v =>
        if Spec.attributeDriven pt && negb (v =? 0)
        then (PdfGenerator.baseName pt ++ PdfGenerator.pressureSegment v
              ++ PdfGenerator.specFields (flangeSpec p))%string
        else (PdfGenerator.baseName pt
              ++ PdfGenerator.specFields (flangeSpec p))%string
    | None => (PdfGenerator.baseName pt
               ++ PdfGenerator.specFields (flangeSpec p))%string
    end.
Proof.
  intros pt. unfold PdfGenerator.regularLine, PdfGenerator.getPartDisplayName.
  fold pt.
  change (memb String.eqb pt PdfGenerator.pressureDrivenParts)
    with (Spec.attributeDriven pt).
  destruct (PartSelection.pressureValue (part p)) as [v|]; simpl.
  - destruct (Spec.attributeDriven pt && negb (v =? 0));
      [apply append_assoc | reflexivity].
  - rewrite andb_false_r. reflexivity.
Qed.

(** C7 (amended): every report line belongs to a part instance, and it
    carries the target-value segment exactly when the instance's category
    is attribute-driven and its stored target value is neither null nor
    zero; such an instance always has its line with the segment.  Lines of
    geometry-driven and composite instances are the label or the adapter
    spool prefix followed by the field list, whatever value is stored.  A
    line with the segment is never equal to the same line without it. *)
Theorem report_line_pressure_segment (stackData : StackData) :
  let lines := PdfGenerator.generateReportLines stackData in
  let plain := fun (line : string) (p : PartWithSpec) =>
    line = (PdfGenerator.baseName (PartSelection.partType (part p))
            ++ PdfGenerator.specFields (flangeSpec p))%string
    \/ exists c n, line = PdfGenerator.spoolLine c n p in
  (forall line, In line lines ->
     exists p, In p (parts stackData)
       /\ match PartSelection.pressureValue (part p) with
          | Some v =>
              if Spec.attributeDriven (PartSelection.partType (part p))
                 && negb (v =? 0)
              then line
                   = (PdfGenerator.baseName (PartSelection.partType (part p))
                      ++ PdfGenerator.pressureSegment v
                      ++ PdfGenerator.specFields (flangeSpec p))%string
              else plain line p
          | None => plain line p
          end)
  /\ (forall p v, In p (parts stackData) ->
        Spec.attributeDriven (PartSelection.partType (part p)) = true ->
        PartSelection.pressureValue (part p) = Some v -> v <> 0 ->
        In (PdfGenerator.baseName (PartSelection.partType (part p))
            ++ PdfGenerator.pressureSegment v
            ++ PdfGenerator.specFields (flangeSpec p))%string lines)
  /\ (forall base v f,
        (base ++ PdfGenerator.pressureSegment v
         ++ PdfGenerator.specFields f)%string
        <> (base ++ PdfGenerator.specFields f)%string).
Proof.
  intros lines plain. subst lines. rewrite generateReportLines_eq.
  split; [|split; [|apply segment_visible]].
  - intros line Hline. apply in_app_or in Hline. destruct Hline as [H|H].
    + apply in_map_iff in H. destruct H as [p [<- Hp]].
      apply filter_In in Hp. exists p. split; [apply Hp|].
      rewrite regularLine_shape. subst plain. cbv beta.
      destruct (PartSelection.pressureValue (part p)) as [v|]; [|auto].
      destruct (Spec.attributeDriven _ && negb (v =? 0)); auto.
    + apply in_flat_map in H. destruct H as [[k g] [_ H]].
      apply sideLines_In in H. destruct H as [n [side [Hside ->]]].
      apply (Permutation_in _ (sort_by_perm _ _)) in Hside.
      apply filter_In in Hside. destruct Hside as [Hside _].
      apply filter_In in Hside. destruct Hside as [Hin Hspool].
      exists side. split; [exact Hin|].
      rewrite (spoolSide_not_attributeDriven side Hspool). simpl.
      subst plain. cbv beta.
      destruct (PartSelection.pressureValue (part side)); right; eauto.
  - intros p v Hp Ha Hv Hne. apply in_or_app. left.
    apply in_map_iff. exists p. split.
    + rewrite regularLine_shape, Hv, Ha.
      apply Z.eqb_neq in Hne. rewrite Hne. reflexivity.
    + apply filter_In. split; [exact Hp|].
      rewrite (attributeDriven_not_spool p Ha). reflexivity.
Qed.

Lemma report_line_pressure_segment_witness :
  In (Sample.withSpec
        (Sample.selection "id1" PartType.ANNULAR None (Some 5000) "spec-a" 10)
        Sample.specA) (parts Sample.reportStack)
  /\ In ("Annular" ++ PdfGenerator.pressureSegment 5000
         ++ PdfGenerator.specFields Sample.specA)%string
        (PdfGenerator.generateReportLines Sample.reportStack).
Proof.
  assert (H : In (Sample.withSpec
                    (Sample.selection "id1" PartType.ANNULAR None (Some 5000)
                                      "spec-a" 10)
                    Sample.specA) (parts Sample.reportStack))
    by (left; reflexivity).
  split; [exact H|].
  apply (proj1 (proj2 (report_line_pressure_segment Sample.reportStack))
               _ 5000 H eq_refl eq_refl).
  discriminate.
Defined.

(** C7, as stated, fails: an annular instance stores the non-null target
    value 0, and its line has no segment. *)
Lemma zero_target_line_without_segment :
  Spec.attributeDriven PartType.ANNULAR = true
  /\ PdfGenerator.getPartDisplayName PartType.ANNULAR (Some 0) = "Annular"
  /\ nth_error (PdfGenerator.generateReportLines Sample.zeroTarget) 0
     = Some ("Annular" ++ PdfGenerator.specFields Sample.specA)%string.
Proof. repeat split; reflexivity. Qed.

(** ** Report summary *)

Lemma fold_min_spec (l : list Z) (x : Z) :
  In (fold_left Z.min l x) (x :: l)
  /\ forall y, In y (x :: l) -> fold_left Z.min l x <= y.
Proof.
  revert x. induction l as [|z l IH]; intros x; simpl.
  - split; [auto|]. intros y [<-|[]]. lia.
  - destruct (IH (Z.min x z)) as [Hin Hle]. split.
    + destruct Hin as [H|H]; [|auto].
      rewrite <- H. destruct (Z.min_spec x z) as [[_ ->]|[_ ->]]; auto.
    + intros y Hy.
      assert (Hm : fold_left Z.min l (Z.min x z) <= Z.min x z)
        by (apply Hle; left; reflexivity).
      destruct Hy as [<-|[<-|Hy]]; [lia | lia |].
      apply Hle. right. exact Hy.
Qed.

Lemma fold_max_spec (l : list Z) (x : Z) :
  In (fold_left Z.max l x) (x :: l)
  /\ forall y, In y (x :: l) -> y <= fold_left Z.max l x.
Proof.
  revert x. induction l as [|z l IH]; intros x; simpl.
  - split; [auto|]. intros y [<-|[]]. lia.
  - destruct (IH (Z.max x z)) as [Hin Hle]. split.
    + destruct Hin as [H|H]; [|auto].
      rewrite <- H. destruct (Z.max_spec x z) as [[_ ->]|[_ ->]]; auto.
    + intros y Hy.
      assert (Hm : Z.max x z <= fold_left Z.max l (Z.max x z))
        by (apply Hle; left; reflexivity).
      destruct Hy as [<-|[<-|Hy]]; [lia | lia |].
      apply Hle. right. exact Hy.
Qed.

(** The values [getPressureRanges] keeps: the strictly positive ones. *)
Lemma kept_pressures_In (ps : list PartWithSpec) (v : Z) :
  In v (sort_by Z.leb
          (PdfGenerator.numbers
             (filter (fun p => truthy_number p && PdfGenerator.positive_number p)
                     (map (fun p => PartSelection.pressureValue (part p)) ps))))
  <-> 0 < v /\ exists p, In p ps
                         /\ PartSelection.pressureValue (part p) = Some v.
Proof.
  rewrite sort_by_In. unfold PdfGenerator.numbers. rewrite in_flat_map. split.
  - intros [o [Ho Hv]]. destruct o as [x|]; [|destruct Hv].
    destruct Hv as [->|[]]. apply filter_In in Ho. destruct Ho as [Ho Hpos].
    apply andb_true_iff in Hpos. destruct Hpos as [_ Hpos]. simpl in Hpos.
    apply Z.ltb_lt in Hpos. split; [exact Hpos|].
    apply in_map_iff in Ho. destruct Ho as [p [Hp Hin]]. exists p. auto.
  - intros [Hpos [p [Hin Hp]]]. exists (Some v). split; [|left; reflexivity].
    apply filter_In. split.
    + apply in_map_iff. exists p. auto.
    + simpl. apply andb_true_iff. split.
      * apply negb_true_iff, Z.eqb_neq. lia.
      * apply Z.ltb_lt. exact Hpos.
Qed.

(** C9 (amended): the summary counts every part instance; its target-value
    range is taken over the non-null, strictly positive target values only:
    'N/A' when there is none, otherwise the least and the greatest of them,
    as one value when they are equal and as a range when not; its class
    field joins the distinct pressure-class labels of the referenced records,
    sorted, with ", ", and reads 'N/A' when that text is empty. *)
Theorem report_summary (stackData : StackData) :
  let ps := parts stackData in
  let fields := PdfGenerator.generateReportHTML_fields stackData in
  PdfGenerator.totalParts fields = Z.of_nat (List.length ps)
  /\ ((forall p v, In p ps ->
         PartSelection.pressureValue (part p) = Some v -> v <= 0) ->
      PdfGenerator.pressureRanges fields = "N/A")
  /\ ((exists p v, In p ps /\ PartSelection.pressureValue (part p) = Some v
                   /\ 0 < v) ->
      exists lo hi,
        Spec.leastPositiveTarget ps lo /\ Spec.greatestPositiveTarget ps hi
        /\ PdfGenerator.pressureRanges fields
           = if lo =? hi then (string_of_Z lo ++ " PSI")%string
             else (string_of_Z lo ++ "-" ++ string_of_Z hi ++ " PSI")%string)
  /\ exists classes,
       NoDup classes
       /\ StronglySorted (fun a b => String.leb a b = true) classes
       /\ (forall c, In c classes <->
             exists p, In p ps
                       /\ FlangeSpec.pressureClassLabel (flangeSpec p) = c)
       /\ PdfGenerator.flangeClasses fields
          = if (String.concat ", " classes =? "")%string then "N/A"
            else String.concat ", " classes.
Proof.
  intros ps fields. subst fields. simpl. fold ps.
  split; [reflexivity|].
  unfold PdfGenerator.getPressureRanges.
  pose proof (kept_pressures_In ps) as Hmem.
  destruct (sort_by Z.leb _) as [|x l] eqn:E.
  - split; [reflexivity|]. split.
    + intros [p [v [Hin [Hv Hpos]]]]. exfalso.
      apply (proj2 (Hmem v)). eauto.
    + exists (sort_by String.leb
                (distinct String.eqb
                   (map (fun p => FlangeSpec.pressureClassLabel (flangeSpec p))
                        ps))).
      split; [|split; [|split]].
      * eapply Permutation_NoDup;
          [apply Permutation_sym, sort_by_perm
          | apply distinct_NoDup, String.eqb_eq].
      * apply sort_by_sorted; [apply String.leb_total | apply string_leb_trans].
      * intros c. rewrite sort_by_In, (distinct_In _ String.eqb_eq), in_map_iff.
        split; intros [p [H1 H2]]; exists p; auto.
      * reflexivity.
  - destruct (fold_min_spec l x) as [Hmin_in Hmin_le].
    destruct (fold_max_spec l x) as [Hmax_in Hmax_le].
    split; [|split].
    + intros Hnone. exfalso.
      destruct (proj1 (Hmem x) (or_introl eq_refl)) as [Hpos [p [Hin Hv]]].
      specialize (Hnone p x Hin Hv). lia.
    + intros _.
      exists (Storage.Math_min (x :: l)), (Storage.Math_max (x :: l)).
      simpl Storage.Math_min. simpl Storage.Math_max.
      split; [|split; [|reflexivity]].
      * destruct (proj1 (Hmem _) Hmin_in) as [Hpos Hex].
        split; [exact Hpos|]. split; [exact Hex|].
        intros p v Hin Hv Hv0. apply Hmin_le, Hmem. eauto.
      * destruct (proj1 (Hmem _) Hmax_in) as [Hpos Hex].
        split; [exact Hpos|]. split; [exact Hex|].
        intros p v Hin Hv Hv0. apply Hmax_le, Hmem. eauto.
    + exists (sort_by String.leb
                (distinct String.eqb
                   (map (fun p => FlangeSpec.pressureClassLabel (flangeSpec p))
                        ps))).
      split; [|split; [|split]].
      * eapply Permutation_NoDup;
          [apply Permutation_sym, sort_by_perm
          | apply distinct_NoDup, String.eqb_eq].
      * apply sort_by_sorted; [apply String.leb_total | apply string_leb_trans].
      * intros c. rewrite sort_by_In, (distinct_In _ String.eqb_eq), in_map_iff.
        split; intros [p [H1 H2]]; exists p; auto.
      * reflexivity.
Qed.

Lemma report_summary_witness :
  (exists p v, In p (parts Sample.reportStack)
               /\ PartSelection.pressureValue (part p) = Some v /\ 0 < v)
  /\ exists lo hi,
       Spec.leastPositiveTarget (parts Sample.reportStack) lo
       /\ Spec.greatestPositiveTarget (parts Sample.reportStack) hi
       /\ PdfGenerator.pressureRanges
            (PdfGenerator.generateReportHTML_fields Sample.reportStack)
          = if lo =? hi then (string_of_Z lo ++ " PSI")%string
            else (string_of_Z lo ++ "-" ++ string_of_Z hi ++ " PSI")%string.
Proof.
  assert (H : exists p v, In p (parts Sample.reportStack)
                /\ PartSelection.pressureValue (part p) = Some v /\ 0 < v).
  { exists (Sample.withSpec
              (Sample.selection "id1" PartType.ANNULAR None (Some 5000)
                                "spec-a" 10) Sample.specA), 5000.
    split; [left; reflexivity|]. split; [reflexivity | lia]. }
  split; [exact H|].
  exact (proj1 (proj2 (proj2 (report_summary Sample.reportStack))) H).
Defined.

(** C9, as stated, fails: the stored target values are 0 and 5000, both
    non-null, and the range field shows the single value 5000. *)
Lemma zero_target_left_out_of_range :
  map (fun p => PartSelection.pressureValue (part p)) (parts Sample.zeroTarget)
  = [Some 0; Some 5000]
  /\ PdfGenerator.pressureRanges
       (PdfGenerator.generateReportHTML_fields Sample.zeroTarget)
     = "5000 PSI".
Proof. split; reflexivity. Qed.

(* ================================================================== *)
(** * Further properties of the storage layer                          *)
(* ================================================================== *)

(** ** Candidate filtering: order, narrowing, first step *)

(** X1: with a filter bag, the candidates come back in ascending order of
    the raw size label. *)
Theorem getFlangeSpecs_sorted (db : Db) (f : FlangeFilterOptions.t) :
  StronglySorted (fun a b => String.leb (FlangeSpec.flangeSizeRaw a)
                                        (FlangeSpec.flangeSizeRaw b) = true)
                 (Storage.getFlangeSpecs db (Some f)).
Proof.
  destruct (Storage.partTypeConditions f) as [pushed|] eqn:Hp.
  - rewrite (getFlangeSpecs_pushed db f pushed Hp).
    unfold Storage.orderBy_flangeSizeRaw. apply sort_by_sorted.
    + intros a b. apply String.leb_total.
    + intros a b c. apply string_leb_trans.
  - rewrite (getFlangeSpecs_default db f Hp). constructor.
Qed.

Lemma pressureCondition_refined (col : FlangeSpec.t -> option Z)
      (f f' : FlangeFilterOptions.t) (r : FlangeSpec.t) :
  FlangeFilterOptions.pressure f = None
  \/ FlangeFilterOptions.pressure f' = FlangeFilterOptions.pressure f ->
  Storage.and_ (Storage.pressureCondition col f') r = true ->
  Storage.and_ (Storage.pressureCondition col f) r = true.
Proof.
  unfold Storage.pressureCondition. intros [H|H]; rewrite H.
  - destruct (FlangeFilterOptions.pressure f') as [v|]; simpl;
      unfold Storage.eq_opt, Storage.isNotNull; destruct (col r); simpl;
      intros H'; try discriminate H'; reflexivity.
  - auto.
Qed.

Lemma partTypeConditions_refined (f f' : FlangeFilterOptions.t)
      (pushed' : list Storage.condition) (r : FlangeSpec.t) :
  FlangeFilterOptions.partType f' = FlangeFilterOptions.partType f ->
  FlangeFilterOptions.pressure f = None
  \/ FlangeFilterOptions.pressure f' = FlangeFilterOptions.pressure f ->
  Storage.partTypeConditions f' = Some pushed' ->
  Storage.and_ pushed' r = true ->
  exists pushed, Storage.partTypeConditions f = Some pushed
                 /\ Storage.and_ pushed r = true.
Proof.
  intros Hpt Hpr. unfold Storage.partTypeConditions. rewrite Hpt.
  destruct (truthy_string (FlangeFilterOptions.partType f));
    [|intros H _; exists []; auto].
  repeat match goal with
         | |- context [if ?b then _ else _] => destruct b
         end;
    intros H Hr; try discriminate; injection H as <-;
    eexists; (split; [reflexivity|]);
    try (eapply pressureCondition_refined; eassumption); reflexivity.
Qed.

(** X2: progressive narrowing.  A filter bag that keeps the category and
    every filter already given, and fills in filters that were absent,
    never brings in a candidate the smaller bag did not return. *)
Theorem getFlangeSpecs_narrows
        (db : Db) (f f' : FlangeFilterOptions.t) (r : FlangeSpec.t) :
  FlangeFilterOptions.partType f' = FlangeFilterOptions.partType f ->
  (FlangeFilterOptions.pressure f = None
   \/ FlangeFilterOptions.pressure f' = FlangeFilterOptions.pressure f) ->
  (FlangeFilterOptions.flangeSize f = None
   \/ FlangeFilterOptions.flangeSize f' = FlangeFilterOptions.flangeSize f) ->
  (FlangeFilterOptions.boltCount f = None
   \/ FlangeFilterOptions.boltCount f' = FlangeFilterOptions.boltCount f) ->
  (FlangeFilterOptions.boltSize f = None
   \/ FlangeFilterOptions.boltSize f' = FlangeFilterOptions.boltSize f) ->
  In r (Storage.getFlangeSpecs db (Some f')) ->
  In r (Storage.getFlangeSpecs db (Some f)).
Proof.
  intros Hpt Hpr Hfs Hbc Hbs Hin.
  destruct (Storage.partTypeConditions f') as [pushed'|] eqn:Hp';
    [|rewrite (getFlangeSpecs_default db f' Hp') in Hin; destruct Hin].
  apply (getFlangeSpecs_In db f' pushed' r Hp') in Hin.
  destruct Hin as [Hcat [Hpush Hnar]].
  destruct (partTypeConditions_refined f f' pushed' r Hpt Hpr Hp' Hpush)
    as [pushed [Hp Hpush0]].
  apply (getFlangeSpecs_In db f pushed r Hp).
  split; [exact Hcat|]. split; [exact Hpush0|].
  rewrite narrowing_conditions in *. unfold Spec.narrowing in *.
  apply andb_true_iff in Hnar. destruct Hnar as [Hnar H3].
  apply andb_true_iff in Hnar. destruct Hnar as [H1 H2].
  apply andb_true_iff. split; [apply andb_true_iff; split|].
  - destruct Hfs as [->| <-]; [reflexivity | exact H1].
  - destruct Hbc as [->| <-]; [reflexivity | exact H2].
  - destruct Hbs as [->| <-]; [reflexivity | exact H3].
Qed.

Lemma getFlangeSpecs_narrows_witness :
  In Sample.specA
     (Storage.getFlangeSpecs Sample.catalog
        (Some (PartConfiguration.select_boltCount 8
                 (Sample.filters (Some PartType.ANNULAR) (Some 5000)))))
  /\ In Sample.specA
        (Storage.getFlangeSpecs Sample.catalog
           (Some (Sample.filters (Some PartType.ANNULAR) None))).
Proof.
  assert (H : In Sample.specA
                 (Storage.getFlangeSpecs Sample.catalog
                    (Some (PartConfiguration.select_boltCount 8
                             (Sample.filters (Some PartType.ANNULAR)
                                             (Some 5000))))))
    by (left; reflexivity).
  split; [exact H|].
  apply (getFlangeSpecs_narrows Sample.catalog
           (Sample.filters (Some PartType.ANNULAR) None)
           (PartConfiguration.select_boltCount 8
              (Sample.filters (Some PartType.ANNULAR) (Some 5000))));
    auto.
Defined.

(** X3: no dead end at the first step.  Every pressure offered for a
    category, used as the only filter besides the category, leaves at
    least one candidate. *)
Theorem pressure_option_has_candidates
        (db : Db) (category : string) (v : Z) :
  In v (Storage.getPressureOptions db category) ->
  Storage.getFlangeSpecs db
    (Some {| FlangeFilterOptions.partType := Some category;
             FlangeFilterOptions.pressure := Some v;
             FlangeFilterOptions.flangeSize := None;
             FlangeFilterOptions.boltCount := None;
             FlangeFilterOptions.boltSize := None |}) <> [].
Proof.
  intros Hv. unfold Storage.getPressureOptions in Hv.
  destruct (Storage.pressureColumn category) as [col|] eqn:Hc;
    [|destruct Hv].
  apply filter_In in Hv. destruct Hv as [Hv _].
  apply selectDistinctNotNull_In in Hv. destruct Hv as [row [Hrow Hcol]].
  set (f := {| FlangeFilterOptions.partType := Some category;
               FlangeFilterOptions.pressure := Some v;
               FlangeFilterOptions.flangeSize := None;
               FlangeFilterOptions.boltCount := None;
               FlangeFilterOptions.boltSize := None |}).
  assert (Hp : Storage.partTypeConditions f = Some [Storage.eq_opt col v]).
  { unfold Storage.partTypeConditions, Storage.pressureColumn in *.
    subst f. simpl.
    destruct (category =? "")%string eqn:E0;
      [apply String.eqb_eq in E0; subst; discriminate|]. simpl.
    repeat match type of Hc with
           | (if ?b then _ else _) = _ => destruct b
           end; try discriminate; injection Hc as <-; reflexivity. }
  assert (Hin : In row (Storage.getFlangeSpecs db (Some f))).
  { apply (getFlangeSpecs_In db f _ row Hp). split; [exact Hrow|].
    split; [|reflexivity].
    unfold Storage.and_, Storage.eq_opt. simpl. rewrite Hcol, Z.eqb_refl.
    reflexivity. }
  intros E. rewrite E in Hin. exact Hin.
Qed.

Lemma pressure_option_has_candidates_witness :
  In 5000 (Storage.getPressureOptions Sample.catalog PartType.ANNULAR)
  /\ Storage.getFlangeSpecs Sample.catalog
       (Some {| FlangeFilterOptions.partType := Some PartType.ANNULAR;
                FlangeFilterOptions.pressure := Some 5000;
                FlangeFilterOptions.flangeSize := None;
                FlangeFilterOptions.boltCount := None;
                FlangeFilterOptions.boltSize := None |}) <> [].
Proof.
  assert (H : In 5000 (Storage.getPressureOptions Sample.catalog
                                                  PartType.ANNULAR))
    by (left; reflexivity).
  split; [exact H|].
  exact (pressure_option_has_candidates Sample.catalog PartType.ANNULAR
                                        5000 H).
Defined.

(** ** Adding a part *)

Lemma existsb_id_In {A : Type} (key : A -> string) (l : list A) (k : string) :
  existsb (fun x => (key x =? k)%string) l = true <-> In k (map key l).
Proof.
  rewrite existsb_exists, in_map_iff. split.
  - intros [x [Hx He]]. apply String.eqb_eq in He. exists x. auto.
  - intros [x [He Hx]]. exists x. split; [exact Hx|].
    apply String.eqb_eq. exact He.
Qed.

Lemma partSelection_insertable_spec (db : Db) (p : PartSelection.t) :
  Storage.partSelection_insertable db p = true <->
  ~ In (PartSelection.id p) (Integrity.partIds db)
  /\ In (PartSelection.stackId p) (Integrity.stackIds db)
  /\ In (PartSelection.flangeSpecId p) (Integrity.specIds db).
Proof.
  unfold Storage.partSelection_insertable, Integrity.partIds,
    Integrity.stackIds, Integrity.specIds.
  rewrite !andb_true_iff, negb_true_iff, <- !existsb_id_In.
  split.
  - intros [[H1 H2] H3]. split; [rewrite H1; discriminate | auto].
  - intros [H1 [H2 H3]]. split; [split|]; auto.
    destruct (existsb _ (partSelections db)); [contradiction H1|]; reflexivity.
Qed.

Lemma addPartToStack_cases (newId : string) (now : Z)
      (part : InsertPartSelection.t) (db : Db) :
  let created := Integrity.createdPart newId now part in
  (Storage.partSelection_insertable db created = true
   /\ exists position,
        Storage.addPartToStack newId now part db
        = ({| flangeSpecs := flangeSpecs db; stackHeaders := stackHeaders db;
              partSelections := partSelections db ++ [created];
              stackOrders :=
                stackOrders db
                ++ [{| StackOrder.stackId := InsertPartSelection.stackId part;
                       StackOrder.partSelectionId := newId;
                       StackOrder.position := position |}] |}, Ok created)
        /\ (forall n, In n (Integrity.positions db
                              (InsertPartSelection.stackId part)) ->
                      n < position)
        /\ (Integrity.positions db (InsertPartSelection.stackId part) = [] ->
            position = 0)
        /\ (Integrity.positions db (InsertPartSelection.stackId part) <> [] ->
            In (position - 1)
               (Integrity.positions db (InsertPartSelection.stackId part))))
  \/ (Storage.partSelection_insertable db created = false
      /\ exists msg, Storage.addPartToStack newId now part db = (db, Throw msg)).
Proof.
  intros created. unfold Storage.addPartToStack. fold (Integrity.createdPart newId now part).
  fold created.
  destruct (Storage.partSelection_insertable db created) eqn:Hins;
    [left | right; split; [reflexivity | eauto]].
  split; [reflexivity|].
  assert (Hrow : forall position,
             Storage.stackOrder_insertable
               (Storage.set_partSelections db (partSelections db ++ [created]))
               {| StackOrder.stackId := InsertPartSelection.stackId part;
                  StackOrder.partSelectionId := PartSelection.id created;
                  StackOrder.position := position |} = true).
  { intros position. unfold Storage.stackOrder_insertable. simpl.
    apply partSelection_insertable_spec in Hins.
    destruct Hins as [_ [Hs _]].
    apply andb_true_iff. split.
    - apply existsb_id_In. exact Hs.
    - rewrite existsb_app. simpl. rewrite String.eqb_refl.
      rewrite orb_true_r. reflexivity. }
  cbv zeta. rewrite Hrow.
  unfold Integrity.positions, Spec.positionAssignment.
  cbn [stackOrders Storage.set_partSelections Storage.set_stackOrders
       flangeSpecs stackHeaders partSelections PartSelection.id created
       Integrity.createdPart].
  set (existing := map StackOrder.position
                       (filter (fun o => (StackOrder.stackId o
                                          =? InsertPartSelection.stackId part)%string)
                               (stackOrders db))).
  destruct (sort_by Z.leb existing) as [|x l] eqn:E.
  - exists 0. split; [reflexivity|].
    apply sort_by_nil in E. rewrite E.
    split; [intros n []|]. split; [reflexivity | intros H; contradiction H; reflexivity].
  - exists (Storage.Math_max (x :: l) + 1). split; [reflexivity|].
    simpl Storage.Math_max.
    destruct (fold_max_spec l x) as [Hin Hle].
    assert (Hsame : forall n, In n existing <-> In n (x :: l))
      by (intros n; rewrite <- E; symmetry; apply sort_by_In).
    split; [|split].
    + intros n Hn. apply Hsame, Hle in Hn. lia.
    + intros H. rewrite H in E. discriminate.
    + intros _. replace (fold_left Z.max l x + 1 - 1) with (fold_left Z.max l x)
        by lia.
      apply Hsame, Hin.
Qed.

(** X4: an accepted part is appended at the end.  The part row and one
    order row are added and nothing else changes; the new position is 0
    when the stack has no stored position, otherwise one more than the
    greatest stored position of the stack. *)
Theorem addPartToStack_appends
        (newId : string) (now : Z) (part : InsertPartSelection.t)
        (db db' : Db) (created : PartSelection.t) :
  Storage.addPartToStack newId now part db = (db', Ok created) ->
  created = Integrity.createdPart newId now part
  /\ flangeSpecs db' = flangeSpecs db
  /\ stackHeaders db' = stackHeaders db
  /\ partSelections db' = partSelections db ++ [created]
  /\ exists position,
       stackOrders db'
       = stackOrders db
         ++ [{| StackOrder.stackId := InsertPartSelection.stackId part;
                StackOrder.partSelectionId := newId;
                StackOrder.position := position |}]
       /\ (forall n, In n (Integrity.positions db
                             (InsertPartSelection.stackId part)) ->
                     n < position)
       /\ (Integrity.positions db (InsertPartSelection.stackId part) = [] ->
           position = 0)
       /\ (Integrity.positions db (InsertPartSelection.stackId part) <> [] ->
           In (position - 1)
              (Integrity.positions db (InsertPartSelection.stackId part))).
Proof.
  intros H.
  destruct (addPartToStack_cases newId now part db)
    as [[_ [position [Heq Hpos]]] | [_ [msg Heq]]];
    rewrite Heq in H; [|discriminate].
  injection H as <- <-. simpl.
  repeat (split; [reflexivity|]). exists position. split; [reflexivity|].
  exact Hpos.
Qed.

Lemma addPartToStack_appends_witness :
  let part :=
    {| InsertPartSelection.stackId := "s1";
       InsertPartSelection.partType := PartType.ROTATING_HEAD;
       InsertPartSelection.spoolGroupId := None;
       InsertPartSelection.pressureValue := None;
       InsertPartSelection.flangeSpecId := "spec-a" |} in
  Storage.addPartToStack "id3" 30 part Sample.twoMembers
  = (fst (Storage.addPartToStack "id3" 30 part Sample.twoMembers),
     Ok (Integrity.createdPart "id3" 30 part))
  /\ partSelections (fst (Storage.addPartToStack "id3" 30 part
                                                 Sample.twoMembers))
     = partSelections Sample.twoMembers ++ [Integrity.createdPart "id3" 30 part].
Proof.
  intros part.
  assert (H : Storage.addPartToStack "id3" 30 part Sample.twoMembers
              = (fst (Storage.addPartToStack "id3" 30 part Sample.twoMembers),
                 Ok (Integrity.createdPart "id3" 30 part))) by reflexivity.
  split; [exact H|].
  exact (proj1 (proj2 (proj2 (proj2
           (addPartToStack_appends "id3" 30 part Sample.twoMembers _ _ H))))).
Defined.

(** X5: a part is stored only with sound keys.  When [addPartToStack]
    returns a part, the drawn id was unused and the stack and the
    specification record exist.  When one of the three fails, the storage
    call throws, the route answers an error, and the database is left as
    it was. *)
Theorem addPartToStack_needs_sound_keys
        (newId : string) (now : Z) (part : InsertPartSelection.t) (db : Db) :
  let sound :=
    ~ In newId (Integrity.partIds db)
    /\ In (InsertPartSelection.stackId part) (Integrity.stackIds db)
    /\ In (InsertPartSelection.flangeSpecId part) (Integrity.specIds db) in
  (forall created,
      snd (Storage.addPartToStack newId now part db) = Ok created -> sound)
  /\ (~ sound ->
      (exists msg,
          Storage.addPartToStack newId now part db = (db, Throw msg))
      /\ fst (Routes.post_stack_items newId now part db) = db
      /\ Routes.status (snd (Routes.post_stack_items newId now part db))
         <> 200).
Proof.
  intros sound.
  pose proof (partSelection_insertable_spec db (Integrity.createdPart newId now part))
    as Hspec. simpl in Hspec. fold sound in Hspec.
  destruct (addPartToStack_cases newId now part db)
    as [[Hins [position [Heq _]]] | [Hins [msg Heq]]].
  - split.
    + intros created H. rewrite Heq in H. simpl in H.
      apply Hspec, Hins.
    + intros Hno. contradiction Hno. apply Hspec, Hins.
  - split.
    + intros created H. rewrite Heq in H. discriminate.
    + intros _. split; [exists msg; exact Heq|].
      unfold Routes.post_stack_items.
      destruct (Storage.getFlangeSpecById db _);
        [rewrite Heq|]; simpl; split; (reflexivity || discriminate).
Qed.

Lemma addPartToStack_needs_sound_keys_witness :
  let part :=
    {| InsertPartSelection.stackId := "s1";
       InsertPartSelection.partType := PartType.ROTATING_HEAD;
       InsertPartSelection.spoolGroupId := None;
       InsertPartSelection.pressureValue := None;
       InsertPartSelection.flangeSpecId := "spec-gone" |} in
  ~ (~ In "id3" (Integrity.partIds Sample.twoMembers)
     /\ In "s1" (Integrity.stackIds Sample.twoMembers)
     /\ In "spec-gone" (Integrity.specIds Sample.twoMembers))
  /\ fst (Routes.post_stack_items "id3" 30 part Sample.twoMembers)
     = Sample.twoMembers
  /\ Routes.status (snd (Routes.post_stack_items "id3" 30 part
                                                 Sample.twoMembers)) <> 200.
Proof.
  intros part.
  assert (H : ~ (~ In "id3" (Integrity.partIds Sample.twoMembers)
                 /\ In "s1" (Integrity.stackIds Sample.twoMembers)
                 /\ In "spec-gone" (Integrity.specIds Sample.twoMembers))).
  { intros [_ [_ [H | [H | []]]]]; discriminate. }
  split; [exact H|].
  exact (proj2 (proj2 (addPartToStack_needs_sound_keys "id3" 30 part
                         Sample.twoMembers) H)).
Defined.

(** X6: a part that was accepted is read back.  Right after the insertion
    the stack exists and its read-back contains the created part, attached
    to a specification record carrying the referenced id. *)
Theorem addPartToStack_read_back
        (newId : string) (now : Z) (part : InsertPartSelection.t)
        (db db' : Db) (created : PartSelection.t) :
  Storage.addPartToStack newId now part db = (db', Ok created) ->
  exists data f,
    Storage.getStackWithParts db' (InsertPartSelection.stackId part) = Some data
    /\ In {| part := created; flangeSpec := f |} (parts data)
    /\ FlangeSpec.id f = InsertPartSelection.flangeSpecId part.
Proof.
  intros H.
  destruct (addPartToStack_cases newId now part db)
    as [[Hins [position [Heq _]]] | [_ [msg Heq]]];
    rewrite Heq in H; [|discriminate].
  injection H as <- <-.
  apply partSelection_insertable_spec in Hins. simpl in Hins.
  destruct Hins as [_ [Hstack Hspec]].
  unfold Integrity.specIds in Hspec. apply in_map_iff in Hspec.
  destruct Hspec as [f [Hfid Hf]].
  unfold Storage.getStackWithParts, Storage.getStack. simpl.
  destruct (filter _ (stackHeaders db)) as [|header rest] eqn:E.
  - exfalso. unfold Integrity.stackIds in Hstack.
    apply in_map_iff in Hstack. destruct Hstack as [h [Hid Hh]].
    assert (Hin : In h (filter (fun s => (StackHeader.id s
                                          =? InsertPartSelection.stackId part)%string)
                               (stackHeaders db))).
    { apply filter_In. split; [exact Hh|]. apply String.eqb_eq, Hid. }
    rewrite E in Hin. exact Hin.
  - simpl. eexists. exists f. split; [reflexivity|]. split; [|exact Hfid].
    simpl. apply in_map_iff.
    set (r := {| part := Integrity.createdPart newId now part;
                 flangeSpec := f |}).
    match goal with
    | |- context [Storage.selectStackParts ?d _] => set (db1 := d)
    end.
    destruct (leftJoin_nonempty db1 r) as [pos Hpos].
    exists (r, pos). split; [reflexivity|].
    apply selectStackParts_In. simpl.
    split; [apply in_or_app; right; left; reflexivity|].
    split; [reflexivity|]. split; [exact Hf|]. split; [symmetry; exact Hfid|].
    exact Hpos.
Qed.

Lemma addPartToStack_read_back_witness :
  let part :=
    {| InsertPartSelection.stackId := "s1";
       InsertPartSelection.partType := PartType.ROTATING_HEAD;
       InsertPartSelection.spoolGroupId := None;
       InsertPartSelection.pressureValue := None;
       InsertPartSelection.flangeSpecId := "spec-a" |} in
  Storage.addPartToStack "id3" 30 part Sample.twoMembers
  = (fst (Storage.addPartToStack "id3" 30 part Sample.twoMembers),
     Ok (Integrity.createdPart "id3" 30 part))
  /\ exists data f,
       Storage.getStackWithParts
         (fst (Storage.addPartToStack "id3" 30 part Sample.twoMembers)) "s1"
       = Some data
       /\ In {| part := Integrity.createdPart "id3" 30 part; flangeSpec := f |}
             (parts data)
       /\ FlangeSpec.id f = "spec-a".
Proof.
  intros part.
  assert (H : Storage.addPartToStack "id3" 30 part Sample.twoMembers
              = (fst (Storage.addPartToStack "id3" 30 part Sample.twoMembers),
                 Ok (Integrity.createdPart "id3" 30 part))) by reflexivity.
  split; [exact H|].
  exact (addPartToStack_read_back "id3" 30 part Sample.twoMembers _ _ H).
Defined.

Lemma dense_max (l : list Z) (n : nat) (x : Z) :
  Permutation l (map Z.of_nat (seq 0 n)) ->
  (forall y, In y l -> y < x) ->
  (l = [] -> x = 0) ->
  (l <> [] -> In (x - 1) l) ->
  x = Z.of_nat n.
Proof.
  intros Hperm Hlt Hnil Hin.
  destruct n as [|n].
  - apply Permutation_sym, Permutation_nil in Hperm. simpl. auto.
  - assert (Hne : l <> []).
    { intros ->. apply Permutation_nil in Hperm. discriminate. }
    specialize (Hin Hne).
    assert (Hlast : In (Z.of_nat n) l).
    { apply (Permutation_in _ (Permutation_sym Hperm)).
      apply in_map, in_seq. lia. }
    apply Hlt in Hlast.
    apply (Permutation_in _ Hperm), in_map_iff in Hin.
    destruct Hin as [k [Hk Hin]]. apply in_seq in Hin. lia.
Qed.

(** X7: appending keeps the positions dense.  When the stored positions of
    a stack are 0 .. n-1 in some order, an accepted insertion into that
    stack makes them 0 .. n. *)
Theorem addPartToStack_keeps_dense
        (newId : string) (now : Z) (part : InsertPartSelection.t)
        (db db' : Db) (created : PartSelection.t) (n : nat) :
  Storage.addPartToStack newId now part db = (db', Ok created) ->
  Permutation (Integrity.positions db (InsertPartSelection.stackId part))
              (map Z.of_nat (seq 0 n)) ->
  Permutation (Integrity.positions db' (InsertPartSelection.stackId part))
              (map Z.of_nat (seq 0 (S n))).
Proof.
  intros H Hperm.
  destruct (addPartToStack_cases newId now part db)
    as [[_ [position [Heq [Hlt [Hnil Hin]]]]] | [_ [msg Heq]]];
    rewrite Heq in H; [|discriminate].
  injection H as <- _.
  pose proof (dense_max _ n position Hperm Hlt Hnil Hin) as Hpos.
  rewrite seq_S, map_app.
  unfold Integrity.positions, Spec.positionAssignment in *.
  cbn [stackOrders]. rewrite filter_app, map_app.
  cbn [filter StackOrder.stackId]. rewrite String.eqb_refl.
  cbn [map StackOrder.position Nat.add]. rewrite Hpos.
  apply Permutation_app_tail. exact Hperm.
Qed.

Lemma addPartToStack_keeps_dense_witness :
  let part :=
    {| InsertPartSelection.stackId := "s1";
       InsertPartSelection.partType := PartType.ROTATING_HEAD;
       InsertPartSelection.spoolGroupId := None;
       InsertPartSelection.pressureValue := None;
       InsertPartSelection.flangeSpecId := "spec-a" |} in
  Permutation (Integrity.positions Sample.twoMembers "s1")
              (map Z.of_nat (seq 0 2))
  /\ Permutation
       (Integrity.positions
          (fst (Storage.addPartToStack "id3" 30 part Sample.twoMembers)) "s1")
       (map Z.of_nat (seq 0 3)).
Proof.
  intros part.
  assert (Hp : Permutation (Integrity.positions Sample.twoMembers "s1")
                           (map Z.of_nat (seq 0 2)))
    by apply Permutation_refl.
  split; [exact Hp|].
  apply (addPartToStack_keeps_dense "id3" 30 part Sample.twoMembers
           (fst (Storage.addPartToStack "id3" 30 part Sample.twoMembers))
           (Integrity.createdPart "id3" 30 part) 2);
    [reflexivity | exact Hp].
Defined.

(** ** Integrity kept by the mutations *)

Lemma stackOrder_insertable_spec (db : Db) (o : StackOrder.t) :
  Storage.stackOrder_insertable db o = true <->
  In (StackOrder.stackId o) (Integrity.stackIds db)
  /\ In (StackOrder.partSelectionId o) (Integrity.partIds db).
Proof.
  unfold Storage.stackOrder_insertable, Integrity.stackIds, Integrity.partIds.
  rewrite andb_true_iff, <- !existsb_id_In. tauto.
Qed.

Lemma NoDup_map_filter {A B : Type} (key : A -> B) (f : A -> bool)
      (l : list A) :
  NoDup (map key l) -> NoDup (map key (filter f l)).
Proof.
  induction l as [|x l IH]; simpl; intros H; [constructor|].
  inversion H as [|? ? Hx Hnd]; subst.
  destruct (f x); simpl; [constructor|]; auto.
  intros Hin. apply Hx. apply in_map_iff in Hin.
  destruct Hin as [y [Hy Hin]]. apply filter_In in Hin.
  apply in_map_iff. exists y. tauto.
Qed.

Lemma updateStackOrder_cases (stackId : string) (ids : list string) (db : Db) :
  let kept := filter (fun o => negb (StackOrder.stackId o =? stackId)%string)
                     (stackOrders db) in
  (forallb (Storage.stackOrder_insertable (Storage.set_stackOrders db kept))
           (Storage.orderValues stackId 0 ids) = true
   /\ Storage.updateStackOrder stackId ids db
      = (Storage.set_stackOrders db
           (kept ++ Storage.orderValues stackId 0 ids), Ok tt))
  \/ (forallb (Storage.stackOrder_insertable (Storage.set_stackOrders db kept))
              (Storage.orderValues stackId 0 ids) = false
      /\ exists msg, Storage.updateStackOrder stackId ids db
                     = (Storage.set_stackOrders db kept, Throw msg)).
Proof.
  intros kept. unfold Storage.updateStackOrder. fold kept.
  destruct ids as [|id ids].
  - left. split; [reflexivity|]. simpl. rewrite app_nil_r. reflexivity.
  - destruct (forallb _ (Storage.orderValues stackId 0 (id :: ids))) eqn:E.
    + left. split; reflexivity.
    + right. split; [reflexivity | eauto].
Qed.

(** X8: the three mutations of a stack keep referential integrity: part
    ids stay unique, every part instance keeps an existing stack and an
    existing specification record, and every order row keeps an existing
    stack and an existing part instance, whether the call is accepted or
    refused. *)
Theorem mutations_keep_referential (db : Db) :
  Integrity.referential db ->
  (forall newId now part,
      Integrity.referential (fst (Storage.addPartToStack newId now part db)))
  /\ (forall partId,
        Integrity.referential (fst (Storage.removePartFromStack partId db)))
  /\ (forall stackId ids,
        Integrity.referential (fst (Storage.updateStackOrder stackId ids db))).
Proof.
  intros [Hnd [Hparts Horders]]. split; [|split].
  - intros newId now part.
    destruct (addPartToStack_cases newId now part db)
      as [[Hins [position [Heq _]]] | [_ [msg Heq]]]; rewrite Heq; simpl;
      [|repeat split; auto; apply Hparts || apply Horders; assumption].
    apply partSelection_insertable_spec in Hins. simpl in Hins.
    destruct Hins as [Hfresh [Hs Hf]].
    unfold Integrity.referential, Integrity.partIds, Integrity.stackIds,
      Integrity.specIds in *. simpl.
    split; [|split].
    + rewrite map_app. simpl.
      apply NoDup_app; [exact Hnd | repeat constructor; intros [] |].
      intros x Hx [<-|[]]. contradiction.
    + intros p Hp. apply in_app_or in Hp. destruct Hp as [Hp|[<-|[]]];
        [apply Hparts, Hp | simpl; auto].
    + intros o Ho. apply in_app_or in Ho. destruct Ho as [Ho|[<-|[]]].
      * destruct (Horders o Ho) as [H1 H2]. split; [exact H1|].
        rewrite map_app. apply in_or_app. left. exact H2.
      * simpl. split; [exact Hs|]. rewrite map_app. apply in_or_app.
        right. left. reflexivity.
  - intros partId. unfold Integrity.referential, Integrity.partIds,
      Integrity.stackIds, Integrity.specIds in *. simpl.
    split; [|split].
    + apply NoDup_map_filter, Hnd.
    + intros p Hp. apply filter_In in Hp. apply Hparts, Hp.
    + intros o Ho. apply filter_In in Ho. destruct Ho as [Ho Hne].
      destruct (Horders o Ho) as [H1 H2]. split; [exact H1|].
      apply in_map_iff in H2. destruct H2 as [p [Hid Hp]].
      apply in_map_iff. exists p. split; [exact Hid|].
      apply filter_In. split; [exact Hp|]. rewrite Hid. exact Hne.
  - intros stackId ids.
    assert (Hkept : forall o,
               In o (filter (fun o => negb (StackOrder.stackId o
                                            =? stackId)%string)
                            (stackOrders db)) ->
               In (StackOrder.stackId o) (Integrity.stackIds db)
               /\ In (StackOrder.partSelectionId o) (Integrity.partIds db)).
    { intros o Ho. apply filter_In in Ho. apply Horders, Ho. }
    destruct (updateStackOrder_cases stackId ids db)
      as [[Hok Heq] | [_ [msg Heq]]]; rewrite Heq; simpl;
      (split; [exact Hnd|]); (split; [exact Hparts|]); [|exact Hkept].
    intros o Ho. apply in_app_or in Ho. destruct Ho as [Ho|Ho];
      [apply Hkept, Ho|].
    rewrite forallb_forall in Hok. specialize (Hok o Ho).
    apply stackOrder_insertable_spec in Hok. exact Hok.
Qed.


Lemma mutations_keep_referential_witness :
  Integrity.referential Sample.twoMembers
  /\ Integrity.referential
       (fst (Storage.updateStackOrder "s1" ["id1"; "unknown"]
                                      Sample.twoMembers)).
Proof.
  split; [exact twoMembers_referential|].
  exact (proj2 (proj2 (mutations_keep_referential Sample.twoMembers
                         twoMembers_referential))
               "s1" ["id1"; "unknown"]).
Defined.

(** X9: order rows stay with their own stack.  When every order row
    positions a part instance of the row's own stack, this still holds
    after adding a part, after removing a part, and after reordering a
    stack with ids of its own members. *)
Theorem mutations_keep_orders_own_stack (db : Db) :
  Integrity.ordersOwnStack db ->
  (forall newId now part,
      Integrity.ordersOwnStack (fst (Storage.addPartToStack newId now part db)))
  /\ (forall partId,
        Integrity.ordersOwnStack (fst (Storage.removePartFromStack partId db)))
  /\ (forall stackId ids,
        (forall id, In id ids -> In id (Spec.members db stackId)) ->
        Integrity.ordersOwnStack
          (fst (Storage.updateStackOrder stackId ids db))).
Proof.
  intros Hown. split; [|split].
  - intros newId now part.
    destruct (addPartToStack_cases newId now part db)
      as [[_ [position [Heq _]]] | [_ [msg Heq]]]; rewrite Heq; simpl;
      [|exact Hown].
    intros o Ho. simpl in Ho. apply in_app_or in Ho.
    destruct Ho as [Ho|[<-|[]]].
    + destruct (Hown o Ho) as [p [Hp H]]. exists p. split; [|exact H].
      simpl. apply in_or_app. left. exact Hp.
    + eexists. split; [simpl; apply in_or_app; right; left; reflexivity|].
      split; reflexivity.
  - intros partId o Ho. simpl in Ho. apply filter_In in Ho.
    destruct Ho as [Ho Hne]. destruct (Hown o Ho) as [p [Hp [Hid Hs]]].
    exists p. split; [|auto]. simpl. apply filter_In. split; [exact Hp|].
    rewrite Hid. exact Hne.
  - intros stackId ids Hmem.
    assert (Hkept : forall o,
               In o (filter (fun o => negb (StackOrder.stackId o
                                            =? stackId)%string)
                            (stackOrders db)) ->
               exists p, In p (partSelections db)
                         /\ PartSelection.id p = StackOrder.partSelectionId o
                         /\ PartSelection.stackId p = StackOrder.stackId o).
    { intros o Ho. apply filter_In in Ho. apply Hown, Ho. }
    destruct (updateStackOrder_cases stackId ids db)
      as [[_ Heq] | [_ [msg Heq]]]; rewrite Heq; simpl; [|exact Hkept].
    intros o Ho. simpl in Ho. apply in_app_or in Ho.
    destruct Ho as [Ho|Ho]; [apply Hkept, Ho|].
    apply orderValues_In in Ho. destruct Ho as [Hs Hid].
    apply Hmem in Hid. unfold Spec.members in Hid.
    apply in_map_iff in Hid. destruct Hid as [p [Hpid Hp]].
    apply filter_In in Hp. destruct Hp as [Hp Hps].
    apply String.eqb_eq in Hps. exists p. simpl. rewrite Hs. auto.
Qed.

Lemma twoMembers_orders_own_stack : Integrity.ordersOwnStack Sample.twoMembers.
Proof.
  intros o [<-|[<-|[]]].
  - exists (Sample.selection "id2" PartType.ROTATING_HEAD None None "spec-b" 20).
    simpl. auto.
  - exists (Sample.selection "id1" PartType.ANNULAR None (Some 5000) "spec-a" 10).
    simpl. auto.
Defined.

Lemma mutations_keep_orders_own_stack_witness :
  Integrity.ordersOwnStack Sample.twoMembers
  /\ Integrity.ordersOwnStack
       (fst (Storage.removePartFromStack "id1" Sample.twoMembers)).
Proof.
  split; [exact twoMembers_orders_own_stack|].
  exact (proj1 (proj2 (mutations_keep_orders_own_stack Sample.twoMembers
                         twoMembers_orders_own_stack)) "id1").
Defined.

(** ** Removing a part *)

Section SortFilter.
Context {A : Type} (leb : A -> A -> bool) (keep : A -> bool).
Hypothesis leb_total : forall a b, leb a b = true \/ leb b a = true.
Hypothesis leb_trans :
  forall a b c, leb a b = true -> leb b c = true -> leb a c = true.

Lemma insert_sorted_front (x : A) (l : list A) :
  (forall z, In z l -> leb x z = true) -> insert_sorted leb x l = x :: l.
Proof.
  destruct l as [|y l]; simpl; intros H; [reflexivity|].
  rewrite (H y (or_introl eq_refl)). reflexivity.
Qed.

Lemma filter_insert_sorted (x : A) (l : list A) :
  StronglySorted (fun a b => leb a b = true) l ->
  filter keep (insert_sorted leb x l)
  = if keep x then insert_sorted leb x (filter keep l) else filter keep l.
Proof.
  induction 1 as [|y l Hs IH Hall]; simpl.
  - destruct (keep x); reflexivity.
  - destruct (leb x y) eqn:Hxy; simpl.
    + destruct (keep x); [|reflexivity].
      symmetry. apply insert_sorted_front.
      intros z Hz. rewrite Forall_forall in Hall.
      destruct (keep y); [destruct Hz as [<-|Hz]; [exact Hxy|]|];
        apply filter_In in Hz; apply leb_trans with y; auto; apply Hall, Hz.
    + rewrite IH. destruct (keep y), (keep x); simpl; rewrite ?Hxy; reflexivity.
Qed.

(** Filtering commutes with the stable sort. *)
Lemma filter_sort_by (l : list A) :
  filter keep (sort_by leb l) = sort_by leb (filter keep l).
Proof.
  induction l as [|x l IH]; simpl; [reflexivity|].
  rewrite filter_insert_sorted
    by (apply sort_by_sorted; [apply leb_total | apply leb_trans]).
  rewrite IH. destruct (keep x); reflexivity.
Qed.
End SortFilter.

Lemma filter_comm {A : Type} (f g : A -> bool) (l : list A) :
  filter f (filter g l) = filter g (filter f l).
Proof.
  induction l as [|x l IH]; simpl; [reflexivity|].
  destruct (f x) eqn:Hf, (g x) eqn:Hg; simpl; rewrite ?Hf, ?Hg, IH; reflexivity.
Qed.

Lemma filter_none {A : Type} (f : A -> bool) (l : list A) :
  (forall x, In x l -> f x = false) -> filter f l = [].
Proof.
  induction l as [|x l IH]; simpl; intros H; [reflexivity|].
  rewrite (H x (or_introl eq_refl)). apply IH.
  intros y Hy. apply H. right. exact Hy.
Qed.

Lemma filter_flat_map {A B : Type} (F : A -> list B) (g : B -> bool)
      (h : A -> bool) (l : list A) :
  (forall x y, In y (F x) -> g y = h x) ->
  filter g (flat_map F l) = flat_map F (filter h l).
Proof.
  intros H. induction l as [|x l IH]; simpl; [reflexivity|].
  rewrite filter_app, IH. destruct (h x) eqn:Hx; simpl.
  - f_equal. apply filter_all. intros y Hy. rewrite (H x y Hy). exact Hx.
  - rewrite filter_none; [reflexivity|].
    intros y Hy. rewrite (H x y Hy). exact Hx.
Qed.

Lemma flat_map_ext_In {A B : Type} (F G : A -> list B) (l : list A) :
  (forall x, In x l -> F x = G x) -> flat_map F l = flat_map G l.
Proof.
  induction l as [|x l IH]; simpl; intros H; [reflexivity|].
  rewrite (H x (or_introl eq_refl)), IH; [reflexivity|].
  intros y Hy. apply H. right. exact Hy.
Qed.

Lemma filter_implied {A : Type} (f g : A -> bool) (l : list A) :
  (forall x, f x = true -> g x = true) ->
  filter f (filter g l) = filter f l.
Proof.
  intros H. induction l as [|x l IH]; simpl; [reflexivity|].
  destruct (g x) eqn:Hg; simpl.
  - rewrite IH. reflexivity.
  - destruct (f x) eqn:Hf; [rewrite (H x Hf) in Hg; discriminate | exact IH].
Qed.

Lemma leftJoin_after_remove (db : Db) (partId : string) (r : PartWithSpec) :
  (PartSelection.id (part r) =? partId)%string = false ->
  Storage.leftJoin_stackOrders (fst (Storage.removePartFromStack partId db)) r
  = Storage.leftJoin_stackOrders db r.
Proof.
  intros Hne. unfold Storage.leftJoin_stackOrders. simpl.
  rewrite filter_implied; [reflexivity|].
  intros o Ho. apply String.eqb_eq in Ho. rewrite <- Ho, Hne. reflexivity.
Qed.

Lemma selectStackParts_after_remove (db : Db) (partId stackId : string) :
  Storage.selectStackParts (fst (Storage.removePartFromStack partId db)) stackId
  = filter (fun row => negb (PartSelection.id (part (fst row)) =? partId)%string)
           (Storage.selectStackParts db stackId).
Proof.
  unfold Storage.selectStackParts.
  rewrite filter_sort_by
    by (intros; first [apply opt_leb_total
                      | eapply opt_leb_trans; eassumption]).
  f_equal. rewrite filter_comm. f_equal.
  rewrite (filter_flat_map _ _
             (fun r => negb (PartSelection.id (part r) =? partId)%string))
    by (intros r row Hrow; apply leftJoin_In in Hrow;
        destruct Hrow as [-> _]; reflexivity).
  rewrite (filter_flat_map _ _
             (fun p => negb (PartSelection.id p =? partId)%string))
    by (intros p r Hr; apply innerJoin_In in Hr;
        destruct Hr as [-> _]; reflexivity).
  simpl partSelections.
  apply flat_map_ext_In. intros r Hr.
  apply leftJoin_after_remove.
  apply in_flat_map in Hr. destruct Hr as [p [Hp Hr]].
  apply filter_In in Hp. destruct Hp as [_ Hp].
  apply (innerJoin_In db) in Hr. destruct Hr as [-> _].
  apply negb_true_iff. exact Hp.
Qed.

(** Two sorted lists with the same elements are the same list when no two
    elements have the same key. *)
Lemma sorted_perm_determined {A K : Type} (key : A -> K)
      (leb : K -> K -> bool) (l1 l2 : list A) :
  (forall a b, leb a b = true -> leb b a = true -> a = b) ->
  StronglySorted (fun a b => leb (key a) (key b) = true) l1 ->
  StronglySorted (fun a b => leb (key a) (key b) = true) l2 ->
  Permutation l1 l2 -> NoDup (map key l1) -> l1 = l2.
Proof.
  intros Hanti Hs1. revert l2.
  induction Hs1 as [|x l1 Hs1 IH Hall1]; intros l2 Hs2 Hp Hnd.
  - apply Permutation_nil in Hp. symmetry. exact Hp.
  - destruct l2 as [|y l2];
      [apply Permutation_sym, Permutation_nil in Hp; discriminate|].
    inversion Hs2 as [|? ? Hs2' Hall2]; subst.
    inversion Hnd as [|? ? Hx Hnd']; subst.
    rewrite Forall_forall in Hall1, Hall2.
    assert (Hxy : x = y).
    { assert (Hxin : In x (y :: l2))
        by (eapply Permutation_in; [exact Hp | left; reflexivity]).
      destruct Hxin as [Hxin | Hxin]; [symmetry; exact Hxin|].
      assert (Hyin : In y (x :: l1))
        by (eapply Permutation_in;
            [apply Permutation_sym; exact Hp | left; reflexivity]).
      destruct Hyin as [Hyin | Hyin]; [exact Hyin|].
      exfalso. apply Hx.
      assert (Hk : key x = key y)
        by (apply Hanti; [apply Hall1, Hyin | apply Hall2, Hxin]).
      rewrite Hk. apply in_map, Hyin. }
    subst y. f_equal. apply IH; auto.
    eapply Permutation_cons_inv. exact Hp.
Qed.

Lemma opt_leb_antisym (a b : option Z) :
  opt_leb a b = true -> opt_leb b a = true -> a = b.
Proof.
  destruct a as [x|], b as [y|]; simpl; try discriminate; auto.
  rewrite !Z.leb_le. intros H1 H2. f_equal. lia.
Qed.

Lemma selectStackParts_sorted (db : Db) (id : string) :
  StronglySorted (fun a b : Storage.joinedRow => opt_leb (snd a) (snd b) = true)
                 (Storage.selectStackParts db id).
Proof.
  unfold Storage.selectStackParts. apply sort_by_sorted.
  - intros a b. apply opt_leb_total.
  - intros a b c. apply opt_leb_trans.
Qed.

(** Read-backs with the same rows are equal when the positions of the
    rows are pairwise different. *)
Lemma joinedRows_determined (l1 l2 : list Storage.joinedRow) :
  StronglySorted (fun a b => opt_leb (snd a) (snd b) = true) l1 ->
  StronglySorted (fun a b => opt_leb (snd a) (snd b) = true) l2 ->
  Permutation l1 l2 -> NoDup (map snd l1) -> l1 = l2.
Proof.
  apply (sorted_perm_determined (@snd PartWithSpec (option Z)) opt_leb).
  apply opt_leb_antisym.
Qed.

Lemma map_fst_filter (f : PartWithSpec -> bool) (l : list Storage.joinedRow) :
  map fst (filter (fun row => f (fst row)) l) = filter f (map fst l).
Proof.
  induction l as [|row l IH]; simpl; [reflexivity|].
  destruct (f (fst row)); simpl; rewrite IH; reflexivity.
Qed.

(** X10: removing a part takes exactly its rows away.  No part row and no
    order row with that id remains; every stack keeps its header, and its
    joined rows are the previous ones without those of the removed part,
    with their positions (positions are not renumbered).  When the
    positions of the stack's rows are pairwise different, the read-back is
    the previous read-back without the removed part, the remaining parts
    in the same order.  Removing the same id again changes nothing. *)
Theorem removePartFromStack_read_back (db : Db) (partId stackId : string) :
  let db' := fst (Storage.removePartFromStack partId db) in
  let others := fun r : PartWithSpec =>
                  negb (PartSelection.id (part r) =? partId)%string in
  (forall p, In p (partSelections db') -> PartSelection.id p <> partId)
  /\ (forall o, In o (stackOrders db') ->
                StackOrder.partSelectionId o <> partId)
  /\ Storage.getStack db' stackId = Storage.getStack db stackId
  /\ Permutation (Storage.selectStackParts db' stackId)
                 (filter (fun row => others (fst row))
                         (Storage.selectStackParts db stackId))
  /\ (Integrity.positionsDistinct db stackId ->
      Storage.getStackWithParts db' stackId
      = option_map
          (fun data =>
             {| stack := stack data; parts := filter others (parts data) |})
          (Storage.getStackWithParts db stackId))
  /\ Storage.removePartFromStack partId db' = (db', Ok tt).
Proof.
  intros db' others.
  assert (Hperm : Permutation (Storage.selectStackParts db' stackId)
                    (filter (fun row => others (fst row))
                            (Storage.selectStackParts db stackId))).
  { subst db'. rewrite selectStackParts_after_remove. apply Permutation_refl. }
  split; [|split; [|split; [|split; [|split]]]].
  - intros p Hp. simpl in Hp. apply filter_In in Hp.
    destruct Hp as [_ Hp]. apply negb_true_iff, String.eqb_neq in Hp. exact Hp.
  - intros o Ho. simpl in Ho. apply filter_In in Ho.
    destruct Ho as [_ Ho]. apply negb_true_iff, String.eqb_neq in Ho. exact Ho.
  - reflexivity.
  - exact Hperm.
  - intros Hdistinct. unfold Storage.getStackWithParts.
    change (Storage.getStack db' stackId) with (Storage.getStack db stackId).
    destruct (Storage.getStack db stackId); [|reflexivity]. simpl.
    do 2 f_equal. rewrite <- map_fst_filter. f_equal.
    symmetry. apply joinedRows_determined.
    + apply StronglySorted_filter, selectStackParts_sorted.
    + apply selectStackParts_sorted.
    + apply Permutation_sym, Hperm.
    + clear Hperm. unfold Integrity.positionsDistinct in Hdistinct.
      apply NoDup_map_filter, Hdistinct.
  - subst db'. unfold Storage.removePartFromStack. simpl.
    rewrite !filter_implied by auto. reflexivity.
Qed.

Lemma removePartFromStack_read_back_witness :
  let db' := fst (Storage.removePartFromStack "id2" Sample.twoMembers) in
  Integrity.positionsDistinct Sample.twoMembers "s1"
  /\ Integrity.readIds
       (match Storage.getStackWithParts Sample.twoMembers "s1" with
        | Some data => data
        | None => {| stack := Sample.header; parts := [] |}
        end) = ["id2"; "id1"]
  /\ Storage.getStackWithParts db' "s1"
     = option_map
         (fun data =>
            {| stack := stack data;
               parts := filter (fun r => negb (PartSelection.id (part r)
                                               =? "id2")%string)
                               (parts data) |})
         (Storage.getStackWithParts Sample.twoMembers "s1").
Proof.
  intros db'.
  assert (Hd : Integrity.positionsDistinct Sample.twoMembers "s1").
  { unfold Integrity.positionsDistinct. simpl.
    constructor; [intros [H | []]; discriminate|].
    constructor; [intros []|constructor]. }
  split; [exact Hd|]. split; [reflexivity|].
  exact (proj1 (proj2 (proj2 (proj2 (proj2
           (removePartFromStack_read_back Sample.twoMembers "id2" "s1")))))
           Hd).
Defined.

(** ** Reordering and reading back *)

Lemma increasing_is_seq (l : list nat) (a : nat) :
  StronglySorted lt l ->
  (forall x, In x l -> (a <= x < a + List.length l)%nat) ->
  l = seq a (List.length l).
Proof.
  intros Hs. revert a. induction Hs as [|x l Hs IH Hall]; intros a Hb;
    [reflexivity|].
  rewrite Forall_forall in Hall.
  assert (Hx : (a <= x < a + S (List.length l))%nat)
    by (apply Hb; left; reflexivity).
  assert (Hl : l = seq (S x) (List.length l)).
  { apply IH. intros y Hy. specialize (Hall y Hy).
    specialize (Hb y (or_intror Hy)). simpl in Hb. lia. }
  assert (x = a).
  { destruct l as [|y l']; [simpl in Hx; lia|].
    assert (Hlast : In (x + S (List.length l'))%nat (y :: l')).
    { rewrite Hl. apply in_seq. simpl. lia. }
    specialize (Hb _ (or_intror Hlast)). simpl in Hb. lia. }
  subst x. simpl. f_equal. exact Hl.
Qed.

Lemma map_nth_seq (l : list string) :
  map (fun i => nth i l "") (seq 0 (List.length l)) = l.
Proof.
  induction l as [|x l IH]; [reflexivity|].
  simpl. f_equal. rewrite <- seq_shift, map_map. exact IH.
Qed.

Lemma sorted_le_NoDup_lt (l : list nat) :
  StronglySorted le l -> NoDup l -> StronglySorted lt l.
Proof.
  induction 1 as [|x l Hs IH Hall]; intros Hnd; [constructor|].
  inversion Hnd as [|? ? Hx Hnd']; subst.
  constructor; [apply IH, Hnd'|].
  rewrite Forall_forall in *. intros y Hy.
  specialize (Hall y Hy). assert (x <> y) by (intros ->; contradiction). lia.
Qed.

Lemma sorted_positions_indices {R : Type} (pos : R -> option Z)
      (idx : R -> nat) (l : list R) :
  (forall row, In row l -> pos row = Some (Z.of_nat (idx row))) ->
  StronglySorted (fun a b => opt_leb (pos a) (pos b) = true) l ->
  StronglySorted le (map idx l).
Proof.
  intros Hpos Hs. induction Hs as [|x l Hs IH Hall]; simpl; constructor.
  - apply IH. intros row Hr. apply Hpos. right. exact Hr.
  - rewrite Forall_forall in *. intros n Hn.
    apply in_map_iff in Hn. destruct Hn as [y [<- Hy]].
    specialize (Hall y Hy).
    rewrite (Hpos x (or_introl eq_refl)), (Hpos y (or_intror Hy)) in Hall.
    simpl in Hall. apply Z.leb_le in Hall. lia.
Qed.

(** Rows that carry, as position, the index of their key in a
    duplicate-free sequence come out of the sort in the order of that
    sequence. *)
Lemma sorted_rows_follow_ids {R : Type} (key : R -> string)
      (pos : R -> option Z) (ids : list string) (rows : list R) :
  NoDup ids ->
  Permutation (map key rows) ids ->
  (forall row, In row rows ->
     exists i, pos row = Some (Z.of_nat i) /\ nth_error ids i = Some (key row)) ->
  map key (sort_by (fun a b => opt_leb (pos a) (pos b)) rows) = ids.
Proof.
  intros Hnd Hperm Hrows.
  set (sorted := sort_by (fun a b => opt_leb (pos a) (pos b)) rows).
  set (idx := fun row : R => match pos row with
                             | Some n => Z.to_nat n
                             | None => O
                             end).
  assert (Hsp : Permutation sorted rows) by apply sort_by_perm.
  assert (Hrow : forall row, In row sorted ->
                   pos row = Some (Z.of_nat (idx row))
                   /\ nth_error ids (idx row) = Some (key row)).
  { intros row Hin. apply (Permutation_in _ Hsp) in Hin.
    destruct (Hrows row Hin) as [i [Hp Hn]]. unfold idx. rewrite Hp.
    rewrite Nat2Z.id. auto. }
  assert (Hkeys : map key sorted = map (fun i => nth i ids "") (map idx sorted)).
  { rewrite map_map. apply map_ext_in. intros row Hin.
    destruct (Hrow row Hin) as [_ Hn]. symmetry.
    apply nth_error_nth. exact Hn. }
  assert (Hkp : Permutation (map key sorted) ids).
  { eapply Permutation_trans; [apply Permutation_map, Hsp | exact Hperm]. }
  assert (Hlen : List.length (map idx sorted) = List.length ids).
  { rewrite length_map, <- (Permutation_length Hkp), length_map.
    reflexivity. }
  assert (Hseq : map idx sorted = seq 0 (List.length ids)).
  { rewrite <- Hlen. apply increasing_is_seq.
    - apply sorted_le_NoDup_lt.
      + apply (sorted_positions_indices pos idx).
        * intros row Hin. apply Hrow, Hin.
        * apply sort_by_sorted.
          -- intros a b. apply opt_leb_total.
          -- intros a b c. apply opt_leb_trans.
      + apply (NoDup_map_inv (fun i => nth i ids "")).
        rewrite <- Hkeys.
        apply (Permutation_NoDup (Permutation_sym Hkp) Hnd).
    - intros n Hn. rewrite Hlen. apply in_map_iff in Hn.
      destruct Hn as [row [<- Hin]]. destruct (Hrow row Hin) as [_ Hnth].
      assert (nth_error ids (idx row) <> None) by congruence.
      apply nth_error_Some in H. lia. }
  rewrite Hkeys, Hseq. apply map_nth_seq.
Qed.

Lemma flat_map_compose {A B C : Type} (f : B -> list C) (g : A -> list B)
      (l : list A) :
  flat_map f (flat_map g l) = flat_map (fun x => flat_map f (g x)) l.
Proof.
  induction l as [|x l IH]; simpl; [reflexivity|].
  rewrite flat_map_app, IH. reflexivity.
Qed.

Lemma NoDup_key_inj {A : Type} (key : A -> string) (l : list A) (x y : A) :
  NoDup (map key l) -> In x l -> In y l -> key x = key y -> x = y.
Proof.
  induction l as [|z l IH]; simpl; intros Hnd Hx Hy He; [destruct Hx|].
  inversion Hnd as [|? ? Hz Hnd']; subst.
  destruct Hx as [->|Hx], Hy as [->|Hy]; auto.
  - exfalso. apply Hz. rewrite He. apply in_map. exact Hy.
  - exfalso. apply Hz. rewrite <- He. apply in_map. exact Hx.
Qed.

Lemma filter_key_unique {A : Type} (key : A -> string) (l : list A)
      (k : string) :
  NoDup (map key l) -> In k (map key l) ->
  exists x, filter (fun y => (k =? key y)%string) l = [x] /\ key x = k /\ In x l.
Proof.
  induction l as [|z l IH]; simpl; intros Hnd Hk; [destruct Hk|].
  inversion Hnd as [|? ? Hz Hnd']; subst.
  destruct (k =? key z)%string eqn:E.
  - apply String.eqb_eq in E. subst k. exists z.
    split; [|auto]. f_equal. apply filter_none.
    intros y Hy. apply String.eqb_neq. intros He. apply Hz.
    rewrite He. apply in_map. exact Hy.
  - destruct Hk as [Hk|Hk];
      [apply String.eqb_neq in E; congruence|].
    destruct (IH Hnd' Hk) as [x [H1 [H2 H3]]]. exists x. auto.
Qed.

Lemma map_flat_map_single {A B : Type} (H : A -> list B) (key : B -> string)
      (id : A -> string) (l : list A) :
  (forall x, In x l -> exists y, H x = [y] /\ key y = id x) ->
  map key (flat_map H l) = map id l.
Proof.
  induction l as [|x l IH]; simpl; intros Hs; [reflexivity|].
  destruct (Hs x (or_introl eq_refl)) as [y [Hy Hk]].
  rewrite Hy. simpl. rewrite Hk, IH; [reflexivity|].
  intros z Hz. apply Hs. right. exact Hz.
Qed.

Section ReadAfterReorder.
Variables (db : Db) (stackId : string) (ids : list string).
Hypothesis Href : Integrity.referential db.
Hypothesis Hspecs : NoDup (Integrity.specIds db).
Hypothesis Hown : Integrity.ordersOwnStack db.
Hypothesis Hperm : Spec.permutationOfMembers db stackId ids.

Let db1 : Db :=
  Storage.set_stackOrders db
    (filter (fun o => negb (StackOrder.stackId o =? stackId)%string)
            (stackOrders db)
     ++ Storage.orderValues stackId 0 ids).

(** After the reorder, a member has exactly one joined row, and its
    position is the member's index in the sequence. *)
Lemma member_row (p : PartSelection.t) :
  In p (partSelections db) -> PartSelection.stackId p = stackId ->
  exists row i,
    flat_map (Storage.leftJoin_stackOrders db1)
             (Storage.innerJoin_flangeSpecs db1 p) = [row]
    /\ PartSelection.id (part (fst row)) = PartSelection.id p
    /\ snd row = Some (Z.of_nat i)
    /\ nth_error ids i = Some (PartSelection.id p).
Proof.
  intros Hp Hs. destruct Href as [Hnd [Hparts _]]. destruct Hperm as [Hids Hmem].
  destruct (Hparts p Hp) as [_ Hspec].
  destruct (filter_key_unique FlangeSpec.id (flangeSpecs db)
              (PartSelection.flangeSpecId p) Hspecs Hspec) as [f [Hf _]].
  assert (Hin : In (PartSelection.id p) ids).
  { apply Hmem. unfold Spec.members. apply in_map. apply filter_In.
    split; [exact Hp|]. apply String.eqb_eq. exact Hs. }
  destruct (In_nth_error _ _ Hin) as [i Hi].
  exists ({| part := p; flangeSpec := f |}, Some (Z.of_nat i)), i.
  split; [|auto].
  unfold Storage.innerJoin_flangeSpecs. cbn [flangeSpecs db1 Storage.set_stackOrders].
  rewrite Hf. simpl. rewrite app_nil_r.
  unfold Storage.leftJoin_stackOrders. cbn [stackOrders db1 Storage.set_stackOrders part].
  rewrite filter_app.
  rewrite (filter_none _ (filter _ (stackOrders db))).
  - simpl.
    pose proof (orderValues_position stackId ids 0 i (PartSelection.id p)
                                     Hids Hi) as Hpos.
    erewrite filter_ext in Hpos
      by (intros o; apply String.eqb_sym).
    destruct (filter _ (Storage.orderValues stackId 0 ids)) as [|o [|o' os]];
      try discriminate.
    simpl in Hpos. injection Hpos as Hpos. simpl. rewrite Hpos. reflexivity.
  - intros o Ho. apply filter_In in Ho. destruct Ho as [Ho Hne].
    apply String.eqb_neq. intros He.
    destruct (Hown o Ho) as [p' [Hp' [Hid' Hs']]].
    assert (p' = p).
    { apply (NoDup_key_inj PartSelection.id (partSelections db)); auto.
      congruence. }
    subst p'. rewrite <- Hs', Hs, String.eqb_refl in Hne. discriminate.
Qed.

Lemma rows_after_reorder :
  Storage.selectStackParts db1 stackId
  = sort_by (fun a b => opt_leb (snd a) (snd b))
      (flat_map (fun p => flat_map (Storage.leftJoin_stackOrders db1)
                                   (Storage.innerJoin_flangeSpecs db1 p))
                (filter (fun p => (PartSelection.stackId p =? stackId)%string)
                        (partSelections db))).
Proof.
  unfold Storage.selectStackParts. f_equal.
  rewrite (filter_flat_map _ _
             (fun r => (PartSelection.stackId (part r) =? stackId)%string))
    by (intros r row Hrow; apply leftJoin_In in Hrow;
        destruct Hrow as [-> _]; reflexivity).
  rewrite (filter_flat_map _ _
             (fun p => (PartSelection.stackId p =? stackId)%string))
    by (intros p r Hr; apply innerJoin_In in Hr;
        destruct Hr as [-> _]; reflexivity).
  apply flat_map_compose.
Qed.

Lemma read_ids_after_reorder :
  map (fun row => PartSelection.id (part (fst row)))
      (Storage.selectStackParts db1 stackId) = ids.
Proof.
  rewrite rows_after_reorder.
  destruct Href as [Hnd _]. destruct Hperm as [Hids Hmem].
  apply (sorted_rows_follow_ids
           (fun row : Storage.joinedRow => PartSelection.id (part (fst row)))
           snd ids); [exact Hids | |].
  - rewrite (map_flat_map_single _ _ PartSelection.id).
    + apply NoDup_Permutation; [|exact Hids|].
      * apply NoDup_map_filter. exact Hnd.
      * intros id. symmetry. apply Hmem.
    + intros p Hp. apply filter_In in Hp. destruct Hp as [Hp Hs].
      apply String.eqb_eq in Hs.
      destruct (member_row p Hp Hs) as [row [i [H1 [H2 _]]]]. eauto.
  - intros row Hrow. apply in_flat_map in Hrow.
    destruct Hrow as [p [Hp Hrow]]. apply filter_In in Hp.
    destruct Hp as [Hp Hs]. apply String.eqb_eq in Hs.
    destruct (member_row p Hp Hs) as [row' [i [H1 [H2 [H3 H4]]]]].
    rewrite H1 in Hrow. destruct Hrow as [<-|[]].
    exists i. rewrite H2. auto.
Qed.
End ReadAfterReorder.

(** X11: reorder, then read back.  On a database with unique part ids and
    specification ids, valid references, and order rows that stay with
    their own stack, reordering an existing stack with a permutation of
    its members succeeds, and the next read of the stack returns the parts
    in exactly the supplied order. *)
Theorem updateStackOrder_read_back
        (db : Db) (stackId : string) (ids : list string)
        (header : StackHeader.t) :
  Integrity.referential db ->
  NoDup (Integrity.specIds db) ->
  Integrity.ordersOwnStack db ->
  Storage.getStack db stackId = Some header ->
  Spec.permutationOfMembers db stackId ids ->
  snd (Storage.updateStackOrder stackId ids db) = Ok tt
  /\ exists data,
       Storage.getStackWithParts
         (fst (Storage.updateStackOrder stackId ids db)) stackId = Some data
       /\ stack data = header
       /\ Integrity.readIds data = ids.
Proof.
  intros Href Hspecs Hown Hstack Hperm.
  destruct (updateStackOrder_cases stackId ids db)
    as [[_ Heq] | [Hbad _]].
  - rewrite Heq. simpl. split; [reflexivity|].
    unfold Storage.getStackWithParts.
    change (Storage.getStack (Storage.set_stackOrders db _) stackId)
      with (Storage.getStack db stackId).
    rewrite Hstack. eexists. split; [reflexivity|]. split; [reflexivity|].
    unfold Integrity.readIds. simpl. rewrite map_map.
    apply (read_ids_after_reorder db stackId ids Href Hspecs Hown Hperm).
  - rewrite permutation_insertable in Hbad; [discriminate| |].
    + rewrite Hstack. discriminate.
    + intros id Hid. apply Hperm, Hid.
Qed.

Lemma updateStackOrder_read_back_witness :
  Spec.permutationOfMembers Sample.twoMembers "s1" ["id1"; "id2"]
  /\ exists data,
       Storage.getStackWithParts
         (fst (Storage.updateStackOrder "s1" ["id1"; "id2"] Sample.twoMembers))
         "s1" = Some data
       /\ stack data = Sample.header
       /\ Integrity.readIds data = ["id1"; "id2"].
Proof.
  assert (Hp : Spec.permutationOfMembers Sample.twoMembers "s1"
                                         ["id1"; "id2"]).
  { split.
    - constructor; [simpl; intros [H|[]]; discriminate|].
      constructor; [intros []|constructor].
    - intros id. vm_compute. tauto. }
  assert (Hs : NoDup (Integrity.specIds Sample.twoMembers)).
  { simpl. constructor; [simpl; intros [H|[]]; discriminate|].
    constructor; [intros []|constructor]. }
  split; [exact Hp|].
  exact (proj2 (updateStackOrder_read_back Sample.twoMembers "s1"
                  ["id1"; "id2"] Sample.header twoMembers_referential Hs
                  twoMembers_orders_own_stack eq_refl Hp)).
Defined.

Lemma orderValues_has (stackId : string) (ids : list string) (index : Z)
      (id : string) :
  In id ids ->
  exists o, In o (Storage.orderValues stackId index ids)
            /\ StackOrder.partSelectionId o = id.
Proof.
  revert index. induction ids as [|x ids IH]; intros index; simpl; [intros []|].
  intros [->|H].
  - eexists. split; [left; reflexivity | reflexivity].
  - destruct (IH (index + 1) H) as [o [Ho He]]. exists o. auto.
Qed.

(** X12: a refused reorder is not rolled back.  When the sequence names an
    id that is no part instance, the request answers 500, and the stack is
    left without any stored position; the part instances and the other
    stacks' positions are as before. *)
Theorem reorder_unknown_id_clears_positions
        (db : Db) (stackId id : string) (ids : list string) :
  In id ids -> ~ In id (Integrity.partIds db) ->
  let db' := fst (Routes.patch_stack_order stackId (Some ids) db) in
  Routes.status (snd (Routes.patch_stack_order stackId (Some ids) db)) = 500
  /\ Spec.positionAssignment db' stackId = []
  /\ partSelections db' = partSelections db
  /\ forall other, other <> stackId ->
       Spec.positionAssignment db' other = Spec.positionAssignment db other.
Proof.
  intros Hin Hunknown db'. subst db'. unfold Routes.patch_stack_order.
  destruct (updateStackOrder_cases stackId ids db)
    as [[Hok _] | [_ [msg Heq]]].
  - exfalso. rewrite forallb_forall in Hok.
    destruct (orderValues_has stackId ids 0 id Hin) as [o [Ho He]].
    apply Hok, stackOrder_insertable_spec in Ho.
    destruct Ho as [_ Ho]. rewrite He in Ho. contradiction.
  - rewrite Heq. simpl. split; [reflexivity|].
    unfold Spec.positionAssignment. simpl.
    split; [apply other_rows_filtered|]. split; [reflexivity|].
    intros other Hne. apply other_rows_kept. exact Hne.
Qed.

Lemma reorder_unknown_id_clears_positions_witness :
  In "ghost" ["id1"; "ghost"]
  /\ ~ In "ghost" (Integrity.partIds Sample.twoMembers)
  /\ Spec.positionAssignment
       (fst (Routes.patch_stack_order "s1" (Some ["id1"; "ghost"])
                                      Sample.twoMembers)) "s1" = [].
Proof.
  assert (H1 : In "ghost" ["id1"; "ghost"]) by (right; left; reflexivity).
  assert (H2 : ~ In "ghost" (Integrity.partIds Sample.twoMembers))
    by (simpl; intros [H|[H|[]]]; discriminate).
  split; [exact H1|]. split; [exact H2|].
  exact (proj1 (proj2 (reorder_unknown_id_clears_positions
                         Sample.twoMembers "s1" "ghost" ["id1"; "ghost"]
                         H1 H2))).
Defined.

(* ================================================================== *)
(** * Further properties of the report and of the client               *)
(* ================================================================== *)

(** ** One line per part *)

Lemma push_to_size (groups : PdfGenerator.SpoolGroups) (k : string)
      (p : PartWithSpec) :
  PdfGenerator.has groups k = true ->
  list_sum (map (fun e => List.length (snd e))
                (PdfGenerator.push_to groups k p))
  = S (list_sum (map (fun e => List.length (snd e)) groups)).
Proof.
  unfold PdfGenerator.has.
  induction groups as [|[g sides] groups IH]; simpl; [discriminate|].
  destruct (g =? k)%string; simpl.
  - intros _. rewrite length_app. simpl. lia.
  - intros H. rewrite (IH H). lia.
Qed.

Lemma classify_size (groups : PdfGenerator.SpoolGroups)
      (regs : list PartWithSpec) (p : PartWithSpec) :
  let total := fun acc : PdfGenerator.SpoolGroups * list PartWithSpec =>
                 (list_sum (map (fun e => List.length (snd e)) (fst acc))
                  + List.length (snd acc))%nat in
  total (PdfGenerator.classify (groups, regs) p) = S (total (groups, regs)).
Proof.
  intros total. subst total. unfold PdfGenerator.classify.
  destruct (_ && _); simpl.
  - destruct (PdfGenerator.has groups _) eqn:Hhas.
    + rewrite push_to_size by exact Hhas. lia.
    + rewrite push_to_size.
      * rewrite map_app, list_sum_app. simpl. lia.
      * unfold PdfGenerator.has. rewrite existsb_app. simpl.
        rewrite String.eqb_refl, orb_true_r. reflexivity.
  - rewrite length_app. simpl. lia.
Qed.

Lemma classify_fold_size (ps : list PartWithSpec)
      (acc : PdfGenerator.SpoolGroups * list PartWithSpec) :
  (list_sum (map (fun e => List.length (snd e))
                 (fst (fold_left PdfGenerator.classify ps acc)))
   + List.length (snd (fold_left PdfGenerator.classify ps acc)))%nat
  = (List.length ps
     + (list_sum (map (fun e => List.length (snd e)) (fst acc))
        + List.length (snd acc)))%nat.
Proof.
  revert acc. induction ps as [|p ps IH]; intros acc; [reflexivity|].
  simpl. rewrite IH. destruct acc as [groups regs].
  rewrite (classify_size groups regs p). simpl. lia.
Qed.

Lemma spoolLines_length (c : N) (groups : PdfGenerator.SpoolGroups) :
  List.length (PdfGenerator.spoolLines c groups)
  = list_sum (map (fun e => List.length (snd e)) groups).
Proof.
  revert c. induction groups as [|[g sides] groups IH]; intros c;
    [reflexivity|].
  simpl. rewrite length_app, sideLines_length, IH.
  unfold PdfGenerator.sortSides. rewrite sort_by_length. reflexivity.
Qed.

(** X13: the report has exactly as many lines as the stack has part
    instances: regular parts, sides without a group and grouped sides
    give one line each. *)
Theorem generateReportLines_length (stackData : StackData) :
  List.length (PdfGenerator.generateReportLines stackData)
  = List.length (parts stackData).
Proof.
  unfold PdfGenerator.generateReportLines.
  pose proof (classify_fold_size (parts stackData) ([], [])) as H.
  destruct (fold_left PdfGenerator.classify (parts stackData) ([], []))
    as [groups regs].
  simpl in H. rewrite length_app, length_map, spoolLines_length. lia.
Qed.

(** ** The preview of the report in the client *)

Lemma filter_filter {A : Type} (f g : A -> bool) (l : list A) :
  filter f (filter g l) = filter (fun x => g x && f x) l.
Proof.
  induction l as [|x l IH]; simpl; [reflexivity|].
  destruct (g x); simpl; [destruct (f x)|]; rewrite IH; reflexivity.
Qed.

Lemma groupSide_fold (sides : list PartWithSpec) :
  fold_left ReportModal.groupSide sides []
  = map (fun g => (g, filter (fun q => (Spec.groupKey q =? g)%string)
                             (filter (fun p => truthy_string
                                                 (PartSelection.spoolGroupId
                                                    (part p))) sides)))
        (distinct String.eqb
           (map Spec.groupKey
                (filter (fun p => truthy_string
                                    (PartSelection.spoolGroupId (part p)))
                        sides))).
Proof.
  induction sides as [|p sides IH] using rev_ind; [reflexivity|].
  rewrite fold_left_app, IH, filter_app. simpl.
  unfold ReportModal.groupSide.
  destruct (truthy_string (PartSelection.spoolGroupId (part p))).
  - change (match PartSelection.spoolGroupId (part p) with
            | Some g => g | None => "" end) with (Spec.groupKey p).
    apply (groups_snoc _ p).
  - rewrite app_nil_r. reflexivity.
Qed.

Lemma preview_names_agree (partType : string) :
  partType <> PartType.ADAPTER_SPOOL_SIDE ->
  ReportModal.names partType = PdfGenerator.names partType.
Proof.
  intros H. apply String.eqb_neq in H.
  unfold ReportModal.names, PdfGenerator.names, PartType.ANNULAR,
    PartType.SINGLE_RAM, PartType.DOUBLE_RAMS, PartType.MUD_CROSS,
    PartType.ANACONDA_LINES, PartType.ROTATING_HEAD in *.
  destruct (partType =? "ANNULAR")%string; [reflexivity|].
  destruct (partType =? "SINGLE_RAM")%string; [reflexivity|].
  destruct (partType =? "DOUBLE_RAMS")%string; [reflexivity|].
  destruct (partType =? "MUD_CROSS")%string; [reflexivity|].
  destruct (partType =? "ANACONDA_LINES")%string; [reflexivity|].
  destruct (partType =? "ROTATING_HEAD")%string; [reflexivity|].
  rewrite H. reflexivity.
Qed.

Lemma preview_line_agrees (p : PartWithSpec) :
  PartSelection.partType (part p) <> PartType.ADAPTER_SPOOL_SIDE ->
  ReportModal.regularLine p = PdfGenerator.regularLine p.
Proof.
  intros H. unfold ReportModal.regularLine, PdfGenerator.regularLine.
  f_equal. unfold ReportModal.getPartDisplayName,
             PdfGenerator.getPartDisplayName, PdfGenerator.baseName.
  rewrite (preview_names_agree _ H). reflexivity.
Qed.

(** X14: the preview against the printed report.  The lines the client
    previews are the lines the server prints for the same parts without
    the adapter-spool sides that carry no group id: the preview leaves
    those sides out, the printed report lists them as regular parts.  When
    every adapter-spool side has a group id, preview and print agree. *)
Theorem preview_matches_report (header : StackHeader.t)
        (ps : list PartWithSpec) :
  let grouped := fun p : PartWithSpec =>
    negb (PartSelection.partType (part p) =? "ADAPTER_SPOOL_SIDE")%string
    || truthy_string (PartSelection.spoolGroupId (part p)) in
  ReportModal.generateReportLines ps
  = PdfGenerator.generateReportLines
      {| stack := header; parts := filter grouped ps |}
  /\ ((forall p, In p ps -> grouped p = true) ->
      ReportModal.generateReportLines ps
      = PdfGenerator.generateReportLines {| stack := header; parts := ps |}).
Proof.
  intros grouped.
  assert (Hmain : ReportModal.generateReportLines ps
                  = PdfGenerator.generateReportLines
                      {| stack := header; parts := filter grouped ps |}).
  { unfold ReportModal.generateReportLines, PdfGenerator.generateReportLines.
    cbn [parts]. rewrite classify_fold, groupSide_fold.
    unfold Spec.regularParts, Spec.sidesOf, Spec.groupIds, Spec.spoolParts.
    rewrite !filter_filter.
    assert (Hreg : forall p,
               grouped p && negb (Spec.isSpoolSide p)
               = negb (PartSelection.partType (part p)
                       =? "ADAPTER_SPOOL_SIDE")%string).
    { intros p. unfold grouped, Spec.isSpoolSide, truthy_string,
        PartType.ADAPTER_SPOOL_SIDE.
      destruct (PartSelection.partType (part p) =? "ADAPTER_SPOOL_SIDE")%string,
               (PartSelection.spoolGroupId (part p)) as [g|]; simpl;
        try destruct (g =? "")%string; reflexivity. }
    assert (Hsp : forall p,
               (PartSelection.partType (part p) =? "ADAPTER_SPOOL_SIDE")%string
               && truthy_string (PartSelection.spoolGroupId (part p))
               = grouped p && Spec.isSpoolSide p).
    { intros p. unfold grouped, Spec.isSpoolSide, truthy_string,
        PartType.ADAPTER_SPOOL_SIDE.
      destruct (PartSelection.partType (part p) =? "ADAPTER_SPOOL_SIDE")%string,
               (PartSelection.spoolGroupId (part p)) as [g|]; simpl;
        try destruct (g =? "")%string; reflexivity. }
    rewrite (filter_ext _ _ Hreg).
    rewrite <- (filter_ext _ _ Hsp).
    f_equal.
    apply map_ext_in. intros p Hp. apply filter_In in Hp.
    destruct Hp as [_ Hp]. apply preview_line_agrees.
    apply negb_true_iff, String.eqb_neq in Hp. exact Hp. }
  split; [exact Hmain|].
  intros Hall. rewrite Hmain. rewrite (filter_all grouped ps Hall).
  reflexivity.
Qed.

Lemma preview_matches_report_witness :
  (forall p, In p (parts Sample.reportStack) ->
     negb (PartSelection.partType (part p) =? "ADAPTER_SPOOL_SIDE")%string
     || truthy_string (PartSelection.spoolGroupId (part p)) = true)
  /\ ReportModal.generateReportLines (parts Sample.reportStack)
     = PdfGenerator.generateReportLines Sample.reportStack.
Proof.
  assert (H : forall p, In p (parts Sample.reportStack) ->
     negb (PartSelection.partType (part p) =? "ADAPTER_SPOOL_SIDE")%string
     || truthy_string (PartSelection.spoolGroupId (part p)) = true).
  { intros p [<-|[<-|[<-|[]]]]; reflexivity. }
  split; [exact H|].
  exact (proj2 (preview_matches_report Sample.header
                  (parts Sample.reportStack)) H).
Defined.

(** ** The configuration dialog *)

Lemma handle_keeps_side1_unset (c : Configurator.ConfigState)
      (e : Configurator.event) :
  Configurator.side1Spec c = None /\ Configurator.currentSide c = None ->
  Configurator.side1Spec (Configurator.handle c e) = None
  /\ Configurator.currentSide (Configurator.handle c e) = None.
Proof.
  intros [H1 H2]. destruct e as [opts | p | f v | spec]; simpl.
  - unfold Configurator.autoSelect.
    destruct opts as [|o [|o' opts]],
             (Configurator.selectedFlangeSpec c); simpl; auto.
  - auto.
  - auto.
  - unfold Configurator.handleAdapterSpoolSideComplete. rewrite H2. simpl. auto.
Qed.

(** X15: the adapter spool cannot be completed in the dialog.  Whatever
    the user does, starting from the initial state, the first side is
    never recorded ([currentSide] is never 1, so every finished side is
    stored as side 2); hence for the adapter spool [handleComplete] always
    shows the incomplete-configuration toast and never calls
    [onComplete]. *)
Theorem adapter_spool_never_completes
        (events : list Configurator.event) (now : Z) :
  Configurator.side1Spec (Configurator.run events) = None
  /\ Configurator.currentSide (Configurator.run events) = None
  /\ Configurator.canComplete "ADAPTER_SPOOL" (Configurator.run events) = false
  /\ Configurator.handleComplete "ADAPTER_SPOOL" now (Configurator.run events)
     = Configurator.ConfigurationIncomplete.
Proof.
  assert (Hinv : forall c,
             Configurator.side1Spec c = None
             /\ Configurator.currentSide c = None ->
             Configurator.side1Spec (fold_left Configurator.handle events c)
             = None
             /\ Configurator.currentSide
                  (fold_left Configurator.handle events c) = None).
  { induction events as [|e events IH]; intros c Hc; [exact Hc|].
    simpl. apply IH, handle_keeps_side1_unset, Hc. }
  destruct (Hinv Configurator.initial (conj eq_refl eq_refl)) as [H1 H2].
  fold (Configurator.run events) in H1, H2.
  split; [exact H1|]. split; [exact H2|].
  assert (Hc : Configurator.canComplete "ADAPTER_SPOOL"
                 (Configurator.run events) = false).
  { unfold Configurator.canComplete. simpl. rewrite H1. reflexivity. }
  split; [exact Hc|].
  unfold Configurator.handleComplete. rewrite Hc. reflexivity.
Qed.

Lemma matchesPressure_stage (r : FlangeSpec.t) (category : string) (p : Z) :
  Configurator.matchesPressure r category p
  = Spec.categoryStage category (Some p) r.
Proof.
  unfold Configurator.matchesPressure, Spec.categoryStage,
    Spec.attributeDriven, Spec.pressureAttribute, memb,
    PartType.ANNULAR, PartType.SINGLE_RAM, PartType.DOUBLE_RAMS,
    PartType.MUD_CROSS.
  simpl.
  destruct (category =? "ANNULAR")%string; [reflexivity|].
  destruct (category =? "SINGLE_RAM")%string; [reflexivity|].
  destruct (category =? "DOUBLE_RAMS")%string; [reflexivity|].
  destruct (category =? "MUD_CROSS")%string; reflexivity.
Qed.

(** X16: the client's [matchesPressure] and the server agree.  For a
    recognized category and a chosen pressure, the candidates the server
    returns for that category and pressure alone are exactly the catalog
    records the client-side test accepts. *)
Theorem matchesPressure_agrees_with_server
        (db : Db) (category : string) (p : Z) (r : FlangeSpec.t) :
  Spec.recognized category = true ->
  In r (Storage.getFlangeSpecs db
          (Some {| FlangeFilterOptions.partType := Some category;
                   FlangeFilterOptions.pressure := Some p;
                   FlangeFilterOptions.flangeSize := None;
                   FlangeFilterOptions.boltCount := None;
                   FlangeFilterOptions.boltSize := None |}))
  <-> In r (flangeSpecs db)
      /\ Configurator.matchesPressure r category p = true.
Proof.
  intros Hrec.
  set (f := {| FlangeFilterOptions.partType := Some category;
               FlangeFilterOptions.pressure := Some p;
               FlangeFilterOptions.flangeSize := None;
               FlangeFilterOptions.boltCount := None;
               FlangeFilterOptions.boltSize := None |}).
  assert (Hne : category <> "").
  { intros ->. discriminate. }
  pose proof (partTypeConditions_category f category eq_refl Hne) as H.
  rewrite Hrec in H. destruct H as [pushed [Hp Hpass]].
  rewrite (getFlangeSpecs_In db f pushed r Hp), Hpass, matchesPressure_stage.
  simpl. tauto.
Qed.

Lemma matchesPressure_agrees_with_server_witness :
  Spec.recognized PartType.ANNULAR = true
  /\ (In Sample.specA
         (Storage.getFlangeSpecs Sample.catalog
            (Some {| FlangeFilterOptions.partType := Some PartType.ANNULAR;
                     FlangeFilterOptions.pressure := Some 5000;
                     FlangeFilterOptions.flangeSize := None;
                     FlangeFilterOptions.boltCount := None;
                     FlangeFilterOptions.boltSize := None |}))
      <-> In Sample.specA (flangeSpecs Sample.catalog)
          /\ Configurator.matchesPressure Sample.specA PartType.ANNULAR 5000
             = true).
Proof.
  split; [reflexivity|].
  exact (matchesPressure_agrees_with_server Sample.catalog PartType.ANNULAR
           5000 Sample.specA eq_refl).
Defined.

(** ** Adding an adapter spool side by side *)

(** X17: adding an adapter spool is not all or nothing.  When the request
    for side 1 is accepted and the specification record of side 2 does not
    exist, the database afterwards holds side 1, whether or not the client
    treats the refused request as an error. *)
Theorem spool_first_side_stays
        (rejects : forall A : Type, Routes.Response A -> bool)
        (db db1 : Db) (currentStackId : string) (groupId : option string)
        (side1 side2 : UseStack.Side) (fresh : nat -> string * Z)
        (p1 : PartSelection.t) :
  Routes.post_stack_items (fst (fresh 0%nat)) (snd (fresh 0%nat))
    {| InsertPartSelection.stackId := currentStackId;
       InsertPartSelection.partType := PartType.ADAPTER_SPOOL_SIDE;
       InsertPartSelection.spoolGroupId := groupId;
       InsertPartSelection.pressureValue := UseStack.pressureValue side1;
       InsertPartSelection.flangeSpecId := UseStack.flangeSpecId side1 |} db
  = (db1, Routes.Json p1) ->
  Storage.getFlangeSpecById db1 (UseStack.flangeSpecId side2) = None ->
  fst (UseStack.addPartMutation_sides rejects (Some currentStackId) groupId
         [side1; side2] fresh db) = db1
  /\ partSelections db1 = partSelections db ++ [p1]
  /\ PartSelection.spoolGroupId p1 = groupId.
Proof.
  intros H1 H2.
  split.
  - unfold UseStack.addPartMutation_sides. simpl. rewrite H1.
    destruct (rejects _ (Routes.Json p1)); [reflexivity|].
    unfold Routes.post_stack_items. simpl. rewrite H2.
    destruct (rejects _ _); reflexivity.
  - apply post_stack_items_accepted in H1. simpl in H1. tauto.
Qed.

Lemma spool_first_side_stays_witness :
  let rejects := fun (A : Type) (r : Routes.Response A) =>
                   negb (Routes.status r =? 200) in
  let fresh := fun n : nat =>
                 (match n with O => "side1" | _ => "side2" end, Z.of_nat n) in
  let db1 :=
    fst (Routes.post_stack_items "side1" 0
           {| InsertPartSelection.stackId := "s1";
              InsertPartSelection.partType := PartType.ADAPTER_SPOOL_SIDE;
              InsertPartSelection.spoolGroupId := Some "g";
              InsertPartSelection.pressureValue := None;
              InsertPartSelection.flangeSpecId := "spec-a" |}
           Sample.emptyStack) in
  Storage.getFlangeSpecById db1 "spec-gone" = None
  /\ fst (UseStack.addPartMutation_sides rejects (Some "s1") (Some "g")
            [UseStack.mkSide "spec-a" None; UseStack.mkSide "spec-gone" None]
            fresh Sample.emptyStack) = db1.
Proof.
  intros rejects fresh db1.
  assert (H2 : Storage.getFlangeSpecById db1 "spec-gone" = None)
    by reflexivity.
  split; [exact H2|].
  exact (proj1 (spool_first_side_stays rejects Sample.emptyStack db1 "s1"
                  (Some "g") (UseStack.mkSide "spec-a" None)
                  (UseStack.mkSide "spec-gone" None) fresh
                  (Sample.selection "side1" PartType.ADAPTER_SPOOL_SIDE
                     (Some "g") None "spec-a" 0)
                  eq_refl H2)).
Defined.

(** ** Catalog ingestion *)

Section UpsertFacts.
Import Catalog.

Lemma conflicts_key (s : InsertFlangeSpec.t) (r : FlangeSpec.t) :
  conflicts s r = true <-> proposedKey s = naturalKey r.
Proof.
  unfold conflicts, proposedKey, naturalKey.
  rewrite !andb_true_iff, !String.eqb_eq, Z.eqb_eq. split.
  - intros [[[a b] c] d]. rewrite a, b, c, d. reflexivity.
  - intros H. inversion H. auto.
Qed.

Lemma conflicts_same_key (s1 s2 : InsertFlangeSpec.t) (r : FlangeSpec.t) :
  proposedKey s1 = proposedKey s2 -> conflicts s1 r = conflicts s2 r.
Proof.
  intros H. destruct (conflicts s2 r) eqn:E.
  - apply conflicts_key. rewrite H. apply conflicts_key. exact E.
  - destruct (conflicts s1 r) eqn:E1; [|reflexivity].
    apply conflicts_key in E1. rewrite H in E1. apply conflicts_key in E1.
    congruence.
Qed.

Lemma conflictUpdate_some (s : InsertFlangeSpec.t) (l : list FlangeSpec.t)
      (u : FlangeSpec.t) (l' : list FlangeSpec.t) :
  conflictUpdate s l = Some (u, l') ->
  exists pre r post,
    l = pre ++ r :: post /\ l' = pre ++ updatedRow s r :: post
    /\ u = updatedRow s r /\ conflicts s r = true
    /\ (forall x, In x pre -> conflicts s x = false).
Proof.
  revert u l'. induction l as [|r l IH]; simpl; intros u l' H; [discriminate|].
  destruct (conflicts s r) eqn:E.
  - inversion H; subst. exists [], r, l. simpl. repeat split; auto.
    intros x [].
  - destruct (conflictUpdate s l) as [[u0 rest']|] eqn:E0; [|discriminate].
    inversion H; subst.
    destruct (IH u rest' eq_refl) as [pre [r0 [post [H1 [H2 [H3 [H4 H5]]]]]]].
    exists (r :: pre), r0, post. simpl. rewrite <- H1, <- H2.
    repeat split; auto.
    intros x [<- | Hx]; [exact E | apply H5, Hx].
Qed.

Lemma conflictUpdate_none (s : InsertFlangeSpec.t) (l : list FlangeSpec.t) :
  conflictUpdate s l = None -> forall x, In x l -> conflicts s x = false.
Proof.
  induction l as [|r l IH]; simpl; intros H x Hx; [destruct Hx|].
  destruct (conflicts s r) eqn:E; [discriminate|].
  destruct (conflictUpdate s l) as [[u0 rest']|]; [discriminate|].
  destruct Hx as [<- | Hx]; [exact E | apply IH; auto].
Qed.

(** The two ways one proposed row can succeed. *)
Lemma upsertOne_cases (newId : string) (now : Z) (s : InsertFlangeSpec.t)
      (st st' : Upsert) :
  upsertOne newId now s st = Some st' ->
  (exists pre r post,
      rows st = pre ++ r :: post /\ conflicts s r = true
      /\ (forall x, In x pre -> conflicts s x = false)
      /\ ~ In (FlangeSpec.id r) (touched st)
      /\ st' = {| rows := pre ++ updatedRow s r :: post;
                  touched := FlangeSpec.id r :: touched st;
                  returning := returning st ++ [updatedRow s r] |})
  \/ ((forall x, In x (rows st) -> conflicts s x = false)
      /\ ~ In newId (map FlangeSpec.id (rows st))
      /\ st' = {| rows := rows st ++ [insertedRow newId now s];
                  touched := newId :: touched st;
                  returning := returning st ++ [insertedRow newId now s] |}).
Proof.
  unfold upsertOne. intros H.
  destruct (conflictUpdate s (rows st)) as [[u l']|] eqn:E.
  - left. apply conflictUpdate_some in E.
    destruct E as [pre [r [post [H1 [H2 [H3 [H4 H5]]]]]]]. subst u l'.
    destruct (memb String.eqb (FlangeSpec.id (updatedRow s r)) (touched st))
      eqn:Em; [discriminate|].
    inversion H; subst. exists pre, r, post. repeat split; auto.
    intros Hin. apply (memb_In String.eqb String.eqb_eq) in Hin.
    simpl in Em. congruence.
  - right.
    destruct (existsb (fun r => (FlangeSpec.id r =? newId)%string) (rows st))
      eqn:Ex; [discriminate|].
    inversion H; subst. repeat split.
    + apply conflictUpdate_none, E.
    + intros Hin. apply existsb_id_In in Hin. congruence.
Qed.

Lemma upsertOne_kept (newId : string) (now : Z) (s : InsertFlangeSpec.t)
      (st st' : Upsert) :
  upsertOne newId now s st = Some st' ->
  exists added,
    map Integrity.keptColumns (rows st')
    = map Integrity.keptColumns (rows st) ++ added.
Proof.
  intros H. apply upsertOne_cases in H.
  destruct H as [[pre [r [post [H1 [_ [_ [_ ->]]]]]]] | [_ [_ ->]]]; simpl.
  - exists []. rewrite H1, app_nil_r, !map_app. reflexivity.
  - eexists. rewrite map_app. reflexivity.
Qed.

Lemma upsertOne_unique (newId : string) (now : Z) (s : InsertFlangeSpec.t)
      (st st' : Upsert) :
  upsertOne newId now s st = Some st' ->
  NoDup (map naturalKey (rows st)) -> NoDup (map naturalKey (rows st')).
Proof.
  intros H. apply upsertOne_cases in H.
  destruct H as [[pre [r [post [H1 [_ [_ [_ ->]]]]]]] | [Hno [_ ->]]]; simpl.
  - rewrite H1, !map_app. exact (fun H => H).
  - intros Hnd. rewrite map_app. simpl.
    apply NoDup_app_remove_l with (l := []). simpl.
    apply Permutation_NoDup with (l := naturalKey (insertedRow newId now s)
                                         :: map naturalKey (rows st)).
    + apply Permutation_cons_append.
    + constructor; [|exact Hnd].
      intros Hin. apply in_map_iff in Hin. destruct Hin as [x [Hk Hx]].
      assert (conflicts s x = true)
        by (apply conflicts_key; rewrite Hk; reflexivity).
      rewrite (Hno x Hx) in H. discriminate.
Qed.

Lemma upsertOne_returning (newId : string) (now : Z) (s : InsertFlangeSpec.t)
      (st st' : Upsert) :
  upsertOne newId now s st = Some st' ->
  (forall r, In r (returning st) ->
     In r (rows st) /\ In (FlangeSpec.id r) (touched st)) ->
  (forall r, In r (returning st') ->
     In r (rows st') /\ In (FlangeSpec.id r) (touched st'))
  /\ exists r, returning st' = returning st ++ [r] /\ Integrity.carries s r.
Proof.
  intros H Hinv. apply upsertOne_cases in H.
  destruct H as [[pre [r0 [post [H1 [Hc [_ [Hnt ->]]]]]]] | [_ [_ ->]]]; simpl.
  - split.
    + intros r Hr. apply in_app_iff in Hr. destruct Hr as [Hr | [<- | []]].
      * destruct (Hinv r Hr) as [Hin Ht]. split; [|right; exact Ht].
        rewrite H1 in Hin. apply in_app_iff in Hin. apply in_app_iff.
        destruct Hin as [Hin | [-> | Hin]]; [left; exact Hin | | right; right; exact Hin].
        contradiction.
      * split; [|left; reflexivity].
        apply in_app_iff. right. left. reflexivity.
    + eexists. split; [reflexivity|].
      apply conflicts_key in Hc. unfold Integrity.carries. simpl.
      repeat split. rewrite Hc. reflexivity.
  - split.
    + intros r Hr. apply in_app_iff in Hr. destruct Hr as [Hr | [<- | []]].
      * destruct (Hinv r Hr) as [Hin Ht]. split; [|right; exact Ht].
        apply in_app_iff. left. exact Hin.
      * split; [|left; reflexivity].
        apply in_app_iff. right. left. reflexivity.
    + eexists. split; [reflexivity|].
      unfold Integrity.carries. simpl. repeat split.
Qed.

Lemma conflictId_updated (s s2 : InsertFlangeSpec.t)
      (pre post : list FlangeSpec.t) (r : FlangeSpec.t) :
  Integrity.conflictId s2 (pre ++ updatedRow s r :: post)
  = Integrity.conflictId s2 (pre ++ r :: post).
Proof.
  unfold Integrity.conflictId.
  induction pre as [|x pre IH]; simpl.
  - change (conflicts s2 (updatedRow s r)) with (conflicts s2 r).
    destruct (conflicts s2 r); reflexivity.
  - destruct (conflicts s2 x); [reflexivity | exact IH].
Qed.

Lemma conflictId_app (s2 : InsertFlangeSpec.t) (l ext : list FlangeSpec.t)
      (i : string) :
  Integrity.conflictId s2 l = Some i ->
  Integrity.conflictId s2 (l ++ ext) = Some i.
Proof.
  unfold Integrity.conflictId.
  induction l as [|x l IH]; simpl; [discriminate|].
  destruct (conflicts s2 x); [exact (fun H => H) | exact IH].
Qed.

Lemma conflictId_first (s : InsertFlangeSpec.t)
      (pre post : list FlangeSpec.t) (r : FlangeSpec.t) :
  (forall x, In x pre -> conflicts s x = false) ->
  conflicts s r = true ->
  Integrity.conflictId s (pre ++ r :: post) = Some (FlangeSpec.id r).
Proof.
  unfold Integrity.conflictId. intros Hpre Hr.
  induction pre as [|x pre IH]; simpl.
  - rewrite Hr. reflexivity.
  - rewrite (Hpre x (or_introl eq_refl)). apply IH.
    intros y Hy. apply Hpre. right. exact Hy.
Qed.

(** A row that was affected for some key stays the row in conflict with
    that key, and stays affected. *)
Lemma upsertOne_keeps_affected (newId : string) (now : Z)
      (s s2 : InsertFlangeSpec.t) (st st' : Upsert) :
  upsertOne newId now s st = Some st' ->
  (exists i, Integrity.conflictId s2 (rows st) = Some i /\ In i (touched st)) ->
  exists i, Integrity.conflictId s2 (rows st') = Some i /\ In i (touched st').
Proof.
  intros H [i [Hi Ht]]. apply upsertOne_cases in H.
  destruct H as [[pre [r [post [H1 [_ [_ [_ ->]]]]]]] | [_ [_ ->]]]; simpl;
    exists i; (split; [|right; exact Ht]).
  - rewrite conflictId_updated, <- H1. exact Hi.
  - apply conflictId_app, Hi.
Qed.

Lemma upsertOne_affects (newId : string) (now : Z)
      (s s2 : InsertFlangeSpec.t) (st st' : Upsert) :
  upsertOne newId now s st = Some st' ->
  proposedKey s = proposedKey s2 ->
  exists i, Integrity.conflictId s2 (rows st') = Some i /\ In i (touched st').
Proof.
  intros H Hk. apply upsertOne_cases in H.
  destruct H as [[pre [r [post [H1 [Hc [Hpre [_ ->]]]]]]] | [Hno [_ ->]]]; simpl.
  - exists (FlangeSpec.id r). split; [|left; reflexivity].
    rewrite conflictId_updated. apply conflictId_first.
    + intros x Hx. rewrite <- (conflicts_same_key s s2 x Hk). apply Hpre, Hx.
    + rewrite <- (conflicts_same_key s s2 r Hk). exact Hc.
  - exists newId. split; [|left; reflexivity].
    apply (conflictId_first s2 (rows st) [] (insertedRow newId now s)).
    + intros x Hx. rewrite <- (conflicts_same_key s s2 x Hk). apply Hno, Hx.
    + apply conflicts_key. rewrite <- Hk. reflexivity.
Qed.

Lemma upsertOne_affected_again (newId : string) (now : Z)
      (s : InsertFlangeSpec.t) (st : Upsert) :
  (exists i, Integrity.conflictId s (rows st) = Some i /\ In i (touched st)) ->
  upsertOne newId now s st = None.
Proof.
  intros [i [Hi Ht]].
  destruct (upsertOne newId now s st) as [st'|] eqn:E; [|reflexivity].
  exfalso. apply upsertOne_cases in E.
  destruct E as [[pre [r [post [H1 [Hc [Hpre [Hnt _]]]]]]] | [Hno _]].
  - rewrite H1, (conflictId_first s pre post r Hpre Hc) in Hi.
    inversion Hi; subst. contradiction.
  - unfold Integrity.conflictId in Hi.
    destruct (find (conflicts s) (rows st)) as [x|] eqn:Ef; [|discriminate].
    apply find_some in Ef. destruct Ef as [Hx Hcx].
    rewrite (Hno x Hx) in Hcx. discriminate.
Qed.

Lemma upsertAll_affected (fresh : nat -> string * Z)
      (pre post : list InsertFlangeSpec.t) (s2 : InsertFlangeSpec.t) :
  forall (n : nat) (st : Upsert),
    (exists i, Integrity.conflictId s2 (rows st) = Some i
               /\ In i (touched st)) ->
    upsertAll fresh n (pre ++ s2 :: post) st = None.
Proof.
  induction pre as [|s pre IH]; simpl; intros n st Hinv.
  - rewrite (upsertOne_affected_again _ _ s2 st Hinv). reflexivity.
  - destruct (upsertOne (fst (fresh n)) (snd (fresh n)) s st) as [st'|] eqn:E;
      [|reflexivity].
    apply IH. eapply upsertOne_keeps_affected; eassumption.
Qed.

Lemma upsertAll_repeated_key (fresh : nat -> string * Z)
      (a b c : list InsertFlangeSpec.t) (s1 s2 : InsertFlangeSpec.t) :
  proposedKey s1 = proposedKey s2 ->
  forall (n : nat) (st : Upsert),
    upsertAll fresh n (a ++ s1 :: b ++ s2 :: c) st = None.
Proof.
  intros Hk. induction a as [|s a IH]; simpl; intros n st.
  - destruct (upsertOne (fst (fresh n)) (snd (fresh n)) s1 st) as [st'|] eqn:E;
      [|reflexivity].
    apply upsertAll_affected. eapply upsertOne_affects; eassumption.
  - destruct (upsertOne (fst (fresh n)) (snd (fresh n)) s st) as [st'|];
      [apply IH | reflexivity].
Qed.

Lemma upsertAll_invariants (fresh : nat -> string * Z)
      (specs : list InsertFlangeSpec.t) :
  forall (n : nat) (st st' : Upsert),
    upsertAll fresh n specs st = Some st' ->
    (forall r, In r (returning st) ->
       In r (rows st) /\ In (FlangeSpec.id r) (touched st)) ->
    (NoDup (map naturalKey (rows st)) -> NoDup (map naturalKey (rows st')))
    /\ (exists added,
           map Integrity.keptColumns (rows st')
           = map Integrity.keptColumns (rows st) ++ added)
    /\ (forall r, In r (returning st') -> In r (rows st'))
    /\ exists returned,
         returning st' = returning st ++ returned
         /\ Forall2 Integrity.carries specs returned.
Proof.
  induction specs as [|s specs IH]; simpl; intros n st st' H Hinv.
  - inversion H; subst. split; [exact (fun H => H)|].
    split; [exists []; rewrite app_nil_r; reflexivity|].
    split; [intros r Hr; apply Hinv, Hr|].
    exists []. rewrite app_nil_r. split; [reflexivity | constructor].
  - destruct (upsertOne (fst (fresh n)) (snd (fresh n)) s st) as [st1|] eqn:E;
      [|discriminate].
    destruct (upsertOne_returning _ _ _ _ _ E Hinv) as [Hinv1 [r1 [Hr1 Hc1]]].
    destruct (IH (S n) st1 st' H Hinv1) as [Hu [[added Hk] [Hret [ret [Hr Hf]]]]].
    split; [intros Hnd; apply Hu; eapply upsertOne_unique; eassumption|].
    split.
    + destruct (upsertOne_kept _ _ _ _ _ E) as [added1 Hk1].
      exists (added1 ++ added). rewrite Hk, Hk1, app_assoc. reflexivity.
    + split; [exact Hret|].
      exists (r1 :: ret). rewrite Hr, Hr1, <- app_assoc. simpl.
      split; [reflexivity | constructor; assumption].
Qed.
End UpsertFacts.

Lemma insertFlangeSpecs_cases (fresh : nat -> string * Z)
      (specs : list InsertFlangeSpec.t) (db db' : Db)
      (returned : list FlangeSpec.t) :
  Catalog.insertFlangeSpecs fresh specs db = (db', Ok returned) ->
  exists st,
    Catalog.upsertAll fresh 0 specs
      {| Catalog.rows := flangeSpecs db; Catalog.touched := [];
         Catalog.returning := [] |} = Some st
    /\ db' = Catalog.set_flangeSpecs db (Catalog.rows st)
    /\ returned = Catalog.returning st.
Proof.
  unfold Catalog.insertFlangeSpecs. intros H.
  destruct specs as [|s specs].
  - inversion H; subst. exists {| Catalog.rows := flangeSpecs db';
                                  Catalog.touched := [];
                                  Catalog.returning := [] |}.
    simpl. destruct db'; auto.
  - destruct (Catalog.upsertAll fresh 0 (s :: specs) _) as [st|] eqn:E;
      inversion H; subst.
    exists st. auto.
Qed.

(** X18: a successful ingestion keeps the catalog well formed.  The
    natural keys stay pairwise different, and every part selection and
    order row still refers to existing rows: the other tables are not
    touched and no catalog row loses its id. *)
Theorem insertFlangeSpecs_keeps_integrity
        (fresh : nat -> string * Z) (specs : list InsertFlangeSpec.t)
        (db db' : Db) (returned : list FlangeSpec.t) :
  Catalog.insertFlangeSpecs fresh specs db = (db', Ok returned) ->
  (Integrity.uniqueKeys db -> Integrity.uniqueKeys db')
  /\ (Integrity.referential db -> Integrity.referential db')
  /\ stackHeaders db' = stackHeaders db
  /\ partSelections db' = partSelections db
  /\ stackOrders db' = stackOrders db.
Proof.
  intros H. apply insertFlangeSpecs_cases in H.
  destruct H as [st [Hall [-> _]]].
  destruct (upsertAll_invariants fresh specs 0%nat _ st Hall)
    as [Hu [[added Hk] _]]; [intros r []|].
  simpl in Hu, Hk.
  split; [exact Hu|]. split; [|simpl; auto].
  intros [Hnd [Hparts Horders]]. split; [exact Hnd|]. split; [|exact Horders].
  intros p Hp. destruct (Hparts p Hp) as [H1 H2]. split; [exact H1|].
  unfold Integrity.specIds in *. simpl.
  assert (Hids : forall l : list FlangeSpec.t,
             map FlangeSpec.id l
             = map (fun k => fst (fst (fst (fst k))))
                   (map Integrity.keptColumns l)).
  { intros l. rewrite map_map. reflexivity. }
  rewrite Hids, Hk, map_app, <- Hids. apply in_app_iff. left. exact H2.
Qed.

Lemma insertFlangeSpecs_keeps_integrity_witness :
  let result := Catalog.insertFlangeSpecs SampleUpload.fresh
                  [SampleUpload.respecA; SampleUpload.specC]
                  Sample.twoMembers in
  List.length (flangeSpecs (fst result)) = 3%nat
  /\ (Integrity.uniqueKeys Sample.twoMembers ->
      Integrity.uniqueKeys (fst result)).
Proof.
  intros result. split; [reflexivity|].
  exact (proj1 (insertFlangeSpecs_keeps_integrity SampleUpload.fresh
                  [SampleUpload.respecA; SampleUpload.specC]
                  Sample.twoMembers (fst result) _ eq_refl)).
Defined.

(** X19: what a successful ingestion writes and what it leaves.  The rows
    it returns are, in order, one per supplied spec, each with the key of
    its spec and the spec's values in the seven updated columns, and they
    are in the catalog afterwards.  Every old row is still there with its
    id, key, pressure class psi, raw flange size and creation time, also
    when a supplied spec with the same key gives other values for them:
    up to the order of the rows, these columns of the catalog are the old
    ones followed by those of the added rows. *)
Theorem insertFlangeSpecs_written_and_kept
        (fresh : nat -> string * Z) (specs : list InsertFlangeSpec.t)
        (db db' : Db) (returned : list FlangeSpec.t) :
  Catalog.insertFlangeSpecs fresh specs db = (db', Ok returned) ->
  Forall2 Integrity.carries specs returned
  /\ (forall r, In r returned -> In r (flangeSpecs db'))
  /\ exists added,
       Permutation (map Integrity.keptColumns (flangeSpecs db'))
                   (map Integrity.keptColumns (flangeSpecs db) ++ added).
Proof.
  intros H. apply insertFlangeSpecs_cases in H.
  destruct H as [st [Hall [-> ->]]].
  destruct (upsertAll_invariants fresh specs 0%nat _ st Hall)
    as [_ [[added Hk] [Hret [ret [Hr Hf]]]]]; [intros r []|].
  simpl in Hk, Hr.
  split; [rewrite Hr; exact Hf|].
  split; [exact Hret|].
  exists added. simpl. rewrite Hk. apply Permutation_refl.
Qed.

Lemma insertFlangeSpecs_written_and_kept_witness :
  let result := Catalog.insertFlangeSpecs SampleUpload.fresh
                  [SampleUpload.respecA; SampleUpload.specC]
                  Sample.twoMembers in
  exists returned,
    snd result = Ok returned
    /\ map FlangeSpec.id returned = ["spec-a"; "new-1"]
    /\ map FlangeSpec.flangeSizeRaw returned = ["13-5/8 5M"; "11 10M"]
    /\ map FlangeSpec.wrenchNo returned = [4; 5]
    /\ Forall2 Integrity.carries
         [SampleUpload.respecA; SampleUpload.specC] returned.
Proof.
  intros result. eexists.
  split; [reflexivity|]. split; [reflexivity|].
  split; [reflexivity|]. split; [reflexivity|].
  exact (proj1 (insertFlangeSpecs_written_and_kept SampleUpload.fresh
                  [SampleUpload.respecA; SampleUpload.specC]
                  Sample.twoMembers (fst result) _ eq_refl)).
Defined.

(** X20: a batch that holds two specs with the same natural key is
    refused as a whole: the command would affect one row twice, and the
    catalog stays as it was, whatever else the batch holds. *)
Theorem insertFlangeSpecs_refuses_repeated_key
        (fresh : nat -> string * Z) (db : Db)
        (a b c : list InsertFlangeSpec.t) (s1 s2 : InsertFlangeSpec.t) :
  Catalog.proposedKey s1 = Catalog.proposedKey s2 ->
  Catalog.insertFlangeSpecs fresh (a ++ s1 :: b ++ s2 :: c) db
  = (db, Throw "insert into flange_spec failed").
Proof.
  intros Hk. unfold Catalog.insertFlangeSpecs.
  destruct (a ++ s1 :: b ++ s2 :: c) as [|s l] eqn:E.
  - destruct a; discriminate.
  - rewrite <- E, (upsertAll_repeated_key fresh a b c s1 s2 Hk). reflexivity.
Qed.

Lemma insertFlangeSpecs_refuses_repeated_key_witness :
  Catalog.proposedKey SampleUpload.specC = Catalog.proposedKey SampleUpload.specC
  /\ Catalog.insertFlangeSpecs SampleUpload.fresh
       ([] ++ SampleUpload.specC
           :: [SampleUpload.respecA] ++ SampleUpload.specC :: [])
       Sample.catalog
     = (Sample.catalog, Throw "insert into flange_spec failed").
Proof.
  split; [reflexivity|].
  exact (insertFlangeSpecs_refuses_repeated_key SampleUpload.fresh
           Sample.catalog [] [SampleUpload.respecA] []
           SampleUpload.specC SampleUpload.specC eq_refl).
Defined.

(** ** Stack headers and reports *)

Lemma filter_implied_In {A : Type} (f g : A -> bool) (l : list A) :
  (forall x, In x l -> f x = true -> g x = true) ->
  filter f (filter g l) = filter f l.
Proof.
  induction l as [|x l IH]; simpl; intros H; [reflexivity|].
  assert (IH' : filter f (filter g l) = filter f l)
    by (apply IH; intros y Hy; apply H; right; exact Hy).
  destruct (g x) eqn:Hg; simpl.
  - rewrite IH'. reflexivity.
  - destruct (f x) eqn:Hf; [|exact IH'].
    rewrite (H x (or_introl eq_refl) Hf) in Hg. discriminate.
Qed.

Lemma In_stackIds_filter (hs : list StackHeader.t) (id k : string) :
  In k (map StackHeader.id hs) -> k <> id ->
  In k (map StackHeader.id
          (filter (fun h => negb (StackHeader.id h =? id)%string) hs)).
Proof.
  intros Hin Hne. apply in_map_iff in Hin. destruct Hin as [h [Hk Hh]].
  apply in_map_iff. exists h. split; [exact Hk|].
  apply filter_In. split; [exact Hh|].
  apply negb_true_iff, String.eqb_neq. congruence.
Qed.

Lemma getStack_absent (db : Db) (id : string) :
  ~ In id (Integrity.stackIds db) -> Storage.getStack db id = None.
Proof.
  intros Hno. unfold Storage.getStack. rewrite filter_none; [reflexivity|].
  intros h Hh. apply String.eqb_neq. intros He. apply Hno.
  unfold Integrity.stackIds. rewrite <- He. apply in_map. exact Hh.
Qed.

(** X21: deleting a stack takes everything of that stack away and keeps
    the database well formed.  Afterwards the stack cannot be read, no
    part selection, order row or report refers to it, every remaining
    reference points to an existing row, and the catalog is as before. *)
Theorem deleteStack_cascade (s : Store) (id : string) :
  Integrity.referential (tables s) ->
  Integrity.reportsReferential s ->
  let s' := fst (Admin.deleteStack id s) in
  Integrity.referential (tables s')
  /\ Integrity.reportsReferential s'
  /\ Storage.getStackWithParts (tables s') id = None
  /\ (forall p, In p (partSelections (tables s')) ->
        PartSelection.stackId p <> id)
  /\ (forall o, In o (stackOrders (tables s')) -> StackOrder.stackId o <> id)
  /\ (forall r, In r (reportExports s') -> ReportExport.stackId r <> id)
  /\ flangeSpecs (tables s') = flangeSpecs (tables s).
Proof.
  intros Href Hrep. pose proof Href as [Hnd [Hparts Horders]].
  unfold Admin.deleteStack.
  destruct (existsb (fun h => (StackHeader.id h =? id)%string)
                    (stackHeaders (tables s))) eqn:Ex; simpl.
  - split; [|split; [|split; [|split; [|split; [|split]]]]].
    + unfold Integrity.referential, Integrity.partIds, Integrity.stackIds,
        Integrity.specIds. simpl.
      split; [apply NoDup_map_filter, Hnd|]. split.
      * intros p Hp. apply filter_In in Hp. destruct Hp as [Hp Hne].
        apply negb_true_iff, String.eqb_neq in Hne.
        destruct (Hparts p Hp) as [H1 H2]. split; [|exact H2].
        apply In_stackIds_filter; assumption.
      * intros o Ho. apply filter_In in Ho. destruct Ho as [Ho Hk].
        apply andb_true_iff in Hk. destruct Hk as [Hne Hdel].
        apply negb_true_iff, String.eqb_neq in Hne.
        apply negb_true_iff in Hdel.
        destruct (Horders o Ho) as [H1 H2].
        split; [apply In_stackIds_filter; assumption|].
        apply in_map_iff in H2. destruct H2 as [p [Hid Hp]].
        apply in_map_iff. exists p. split; [exact Hid|].
        apply filter_In. split; [exact Hp|].
        apply negb_true_iff.
        destruct (PartSelection.stackId p =? id)%string eqn:E; [|reflexivity].
        exfalso.
        assert (Hin : memb String.eqb (StackOrder.partSelectionId o)
                        (map PartSelection.id
                           (filter (fun p => (PartSelection.stackId p =? id)%string)
                                   (partSelections (tables s)))) = true).
        { apply (memb_In String.eqb String.eqb_eq). rewrite <- Hid.
          apply in_map, filter_In. auto. }
        congruence.
    + intros r Hr. simpl in Hr. apply filter_In in Hr. destruct Hr as [Hr Hne].
      apply negb_true_iff, String.eqb_neq in Hne.
      unfold Integrity.stackIds. simpl.
      apply In_stackIds_filter; [apply Hrep, Hr | exact Hne].
    + unfold Storage.getStackWithParts, Storage.getStack. simpl.
      rewrite filter_none; [reflexivity|].
      intros h Hh. apply filter_In in Hh. destruct Hh as [_ Hh].
      apply negb_true_iff in Hh. exact Hh.
    + intros p Hp. apply filter_In in Hp. destruct Hp as [_ Hp].
      apply negb_true_iff, String.eqb_neq in Hp. exact Hp.
    + intros o Ho. apply filter_In in Ho. destruct Ho as [_ Ho].
      apply andb_true_iff in Ho. destruct Ho as [Ho _].
      apply negb_true_iff, String.eqb_neq in Ho. exact Ho.
    + intros r Hr. apply filter_In in Hr. destruct Hr as [_ Hr].
      apply negb_true_iff, String.eqb_neq in Hr. exact Hr.
    + reflexivity.
  - assert (Hno : ~ In id (Integrity.stackIds (tables s))).
    { intros Hin. apply existsb_id_In in Hin. congruence. }
    split; [exact Href|]. split; [exact Hrep|].
    split; [unfold Storage.getStackWithParts;
            rewrite (getStack_absent _ _ Hno); reflexivity|].
    split; [intros p Hp He; apply Hno; rewrite <- He; apply (Hparts p Hp)|].
    split; [intros o Ho He; apply Hno; rewrite <- He; apply (Horders o Ho)|].
    split; [intros r Hr He; apply Hno; rewrite <- He; apply (Hrep r Hr)|].
    reflexivity.
Qed.

Lemma sampleStore_reports_referential :
  Integrity.reportsReferential SampleUpload.store.
Proof.
  intros r [<- | []]. left. reflexivity.
Defined.

Lemma deleteStack_cascade_witness :
  let s' := fst (Admin.deleteStack "s1" SampleUpload.store) in
  Integrity.referential (tables SampleUpload.store)
  /\ Integrity.reportsReferential SampleUpload.store
  /\ partSelections (tables s') = []
  /\ stackOrders (tables s') = []
  /\ reportExports s' = []
  /\ Integrity.referential (tables s').
Proof.
  intros s'.
  split; [exact twoMembers_referential|].
  split; [exact sampleStore_reports_referential|].
  split; [reflexivity|]. split; [reflexivity|]. split; [reflexivity|].
  exact (proj1 (deleteStack_cascade SampleUpload.store "s1"
                  twoMembers_referential sampleStore_reports_referential)).
Defined.

Lemma leftJoin_after_deleteStack (s : Store) (id : string) (r : PartWithSpec) :
  Integrity.referential (tables s) ->
  Integrity.ordersOwnStack (tables s) ->
  In (part r) (partSelections (tables s)) ->
  PartSelection.stackId (part r) <> id ->
  Storage.leftJoin_stackOrders (tables (fst (Admin.deleteStack id s))) r
  = Storage.leftJoin_stackOrders (tables s) r.
Proof.
  intros [Hnd _] Hown Hp Hne. unfold Admin.deleteStack.
  destruct (existsb _ (stackHeaders (tables s))); [|reflexivity].
  unfold Storage.leftJoin_stackOrders. simpl.
  rewrite filter_implied_In; [reflexivity|].
  intros o Ho He. apply String.eqb_eq in He.
  destruct (Hown o Ho) as [p' [Hp' [Hid Hst]]].
  assert (p' = part r).
  { apply (NoDup_key_inj PartSelection.id (partSelections (tables s)));
      auto. congruence. }
  subst p'. apply andb_true_iff. split.
  - apply negb_true_iff, String.eqb_neq. congruence.
  - apply negb_true_iff.
    destruct (memb String.eqb (StackOrder.partSelectionId o) _) eqn:Em;
      [|reflexivity].
    exfalso. apply (memb_In String.eqb String.eqb_eq) in Em.
    apply in_map_iff in Em. destruct Em as [q [Hq Hin]].
    apply filter_In in Hin. destruct Hin as [Hin Hqs].
    apply String.eqb_eq in Hqs.
    assert (q = part r).
    { apply (NoDup_key_inj PartSelection.id (partSelections (tables s)));
        auto. congruence. }
    subst q. contradiction.
Qed.

(** X22: deleting a stack leaves the other stacks as they are.  In a
    database whose order rows position parts of their own stack, every
    other stack keeps its header and its joined rows, and order rows still
    position parts of their own stack.  When the positions of the other
    stack's rows are pairwise different, it reads back after the deletion
    exactly as before. *)
Theorem deleteStack_other_stacks (s : Store) (id other : string) :
  Integrity.referential (tables s) ->
  Integrity.ordersOwnStack (tables s) ->
  other <> id ->
  let s' := fst (Admin.deleteStack id s) in
  Storage.getStack (tables s') other = Storage.getStack (tables s) other
  /\ Permutation (Storage.selectStackParts (tables s') other)
                 (Storage.selectStackParts (tables s) other)
  /\ (Integrity.positionsDistinct (tables s) other ->
      Storage.getStackWithParts (tables s') other
      = Storage.getStackWithParts (tables s) other)
  /\ Integrity.ordersOwnStack (tables s').
Proof.
  intros Href Hown Hne s'.
  assert (Hsel : Permutation (Storage.selectStackParts (tables s') other)
                             (Storage.selectStackParts (tables s) other)).
  { unfold Storage.selectStackParts.
    eapply Permutation_trans; [apply sort_by_perm|].
    eapply Permutation_trans; [|apply Permutation_sym, sort_by_perm].
    rewrite !(filter_flat_map _ _
                (fun r => (PartSelection.stackId (part r) =? other)%string))
      by (intros r row Hrow; apply leftJoin_In in Hrow;
          destruct Hrow as [-> _]; reflexivity).
    rewrite !(filter_flat_map _ _
                (fun p => (PartSelection.stackId p =? other)%string))
      by (intros p r Hr; apply innerJoin_In in Hr;
          destruct Hr as [-> _]; reflexivity).
    assert (Hparts : filter (fun p => (PartSelection.stackId p =? other)%string)
                       (partSelections (tables s'))
                     = filter (fun p => (PartSelection.stackId p =? other)%string)
                         (partSelections (tables s))).
    { subst s'. unfold Admin.deleteStack.
      destruct (existsb _ (stackHeaders (tables s))); [|reflexivity].
      simpl. apply filter_implied. intros p Hp.
      apply String.eqb_eq in Hp. apply negb_true_iff, String.eqb_neq.
      congruence. }
    rewrite Hparts.
    assert (Hinner : forall p,
               Storage.innerJoin_flangeSpecs (tables s') p
               = Storage.innerJoin_flangeSpecs (tables s) p).
    { intros p. subst s'. unfold Admin.deleteStack.
      destruct (existsb _ (stackHeaders (tables s))); reflexivity. }
    rewrite (flat_map_ext_In _ _ _ (fun p _ => Hinner p)).
    rewrite (flat_map_ext_In
               (Storage.leftJoin_stackOrders (tables s'))
               (Storage.leftJoin_stackOrders (tables s)));
      [apply Permutation_refl|].
    intros r Hr.
    apply in_flat_map in Hr. destruct Hr as [p [Hp Hr]].
    apply filter_In in Hp. destruct Hp as [Hp Hst].
    apply String.eqb_eq in Hst.
    apply innerJoin_In in Hr. destruct Hr as [Hr _].
    apply leftJoin_after_deleteStack; auto; rewrite Hr; congruence. }
  assert (Hget : Storage.getStack (tables s') other
                 = Storage.getStack (tables s) other).
  { subst s'. unfold Admin.deleteStack, Storage.getStack.
    destruct (existsb _ (stackHeaders (tables s))); [|reflexivity].
    simpl. f_equal. apply filter_implied. intros h Hh.
    apply String.eqb_eq in Hh. apply negb_true_iff, String.eqb_neq.
    congruence. }
  split; [exact Hget|]. split; [exact Hsel|]. split.
  - intros Hdistinct. unfold Storage.getStackWithParts. rewrite Hget.
    destruct (Storage.getStack (tables s) other); [|reflexivity].
    do 3 f_equal. symmetry. apply joinedRows_determined.
    + apply selectStackParts_sorted.
    + apply selectStackParts_sorted.
    + apply Permutation_sym, Hsel.
    + exact Hdistinct.
  - subst s'. unfold Admin.deleteStack.
    destruct (existsb _ (stackHeaders (tables s))); [|exact Hown].
    intros o Ho. simpl in Ho. apply filter_In in Ho. destruct Ho as [Ho Hk].
    apply andb_true_iff in Hk. destruct Hk as [Hk _].
    apply negb_true_iff, String.eqb_neq in Hk.
    destruct (Hown o Ho) as [p [Hp [Hid Hst]]].
    exists p. split; [|auto]. simpl. apply filter_In. split; [exact Hp|].
    apply negb_true_iff, String.eqb_neq. congruence.
Qed.

Lemma twoStacks_referential :
  Integrity.referential (tables SampleUpload.twoStacks).
Proof.
  split; [|split].
  - simpl. constructor; [intros [H|[H|[]]]; discriminate|].
    constructor; [intros [H|[]]; discriminate|].
    constructor; [intros []|constructor].
  - intros p [<-|[<-|[<-|[]]]]; simpl; auto.
  - intros o [<-|[<-|[<-|[]]]]; simpl; auto.
Defined.

Lemma twoStacks_orders_own_stack :
  Integrity.ordersOwnStack (tables SampleUpload.twoStacks).
Proof.
  intros o [<-|[<-|[<-|[]]]].
  - exists (Sample.selection "id2" PartType.ROTATING_HEAD None None "spec-b" 20).
    simpl. auto.
  - exists {| PartSelection.id := "id3"; PartSelection.stackId := "s2";
              PartSelection.partType := PartType.MUD_CROSS;
              PartSelection.spoolGroupId := None;
              PartSelection.pressureValue := Some 5000;
              PartSelection.flangeSpecId := "spec-a";
              PartSelection.createdAt := Some 15 |}.
    simpl. auto.
  - exists (Sample.selection "id1" PartType.ANNULAR None (Some 5000) "spec-a" 10).
    simpl. auto.
Defined.

Lemma deleteStack_other_stacks_witness :
  let s' := fst (Admin.deleteStack "s2" SampleUpload.twoStacks) in
  Integrity.referential (tables SampleUpload.twoStacks)
  /\ Integrity.ordersOwnStack (tables SampleUpload.twoStacks)
  /\ "s1" <> "s2"
  /\ Integrity.positionsDistinct (tables SampleUpload.twoStacks) "s1"
  /\ Integrity.partIds (tables SampleUpload.twoStacks) = ["id1"; "id3"; "id2"]
  /\ Integrity.partIds (tables s') = ["id1"; "id2"]
  /\ map StackOrder.partSelectionId (stackOrders (tables s')) = ["id2"; "id1"]
  /\ reportExports s' = []
  /\ Storage.getStackWithParts (tables s') "s1"
     = Storage.getStackWithParts (tables SampleUpload.twoStacks) "s1".
Proof.
  intros s'.
  assert (Hne : "s1" <> "s2") by discriminate.
  assert (Hd : Integrity.positionsDistinct (tables SampleUpload.twoStacks) "s1").
  { unfold Integrity.positionsDistinct. simpl.
    constructor; [intros [H | []]; discriminate|].
    constructor; [intros []|constructor]. }
  split; [exact twoStacks_referential|].
  split; [exact twoStacks_orders_own_stack|].
  split; [exact Hne|]. split; [exact Hd|].
  split; [reflexivity|]. split; [reflexivity|].
  split; [reflexivity|]. split; [reflexivity|].
  exact (proj1 (proj2 (proj2
           (deleteStack_other_stacks SampleUpload.twoStacks "s2" "s1"
              twoStacks_referential twoStacks_orders_own_stack Hne)))
           Hd).
Defined.

(** X23: a created stack reads back empty.  When [createStack] succeeds
    in a well-formed database, the header it returns has the drawn id and
    the default title when none was given, reading the stack gives that
    header with no parts, and the database stays well formed. *)
Theorem createStack_read_back
        (newId : string) (now : Z) (stack : InsertStackHeader.t)
        (s s' : Store) (h : StackHeader.t) :
  Integrity.referential (tables s) ->
  Admin.createStack newId now stack s = (s', Ok h) ->
  Storage.getStackWithParts (tables s') newId
  = Some {| stack := h; parts := [] |}
  /\ StackHeader.id h = newId
  /\ (InsertStackHeader.title stack = None ->
      StackHeader.title h = Some "B.O.P Stack")
  /\ Integrity.referential (tables s')
  /\ (Integrity.reportsReferential s -> Integrity.reportsReferential s').
Proof.
  intros [Hnd [Hparts Horders]]. unfold Admin.createStack.
  destruct (existsb (fun h => (StackHeader.id h =? newId)%string)
                    (stackHeaders (tables s))) eqn:Ex; [discriminate|].
  intros H. inversion H; subst; clear H. simpl.
  assert (Hno : ~ In newId (Integrity.stackIds (tables s))).
  { intros Hin. apply existsb_id_In in Hin. congruence. }
  split; [|split; [reflexivity|split; [intros ->; reflexivity|split]]].
  - unfold Storage.getStackWithParts, Storage.getStack. simpl.
    rewrite filter_app, filter_none.
    + simpl. rewrite String.eqb_refl. simpl. do 2 f_equal.
      destruct (Storage.selectStackParts _ newId) as [|row rows] eqn:E;
        [reflexivity|].
      exfalso.
      assert (Hin : In row (Storage.selectStackParts
                              {| flangeSpecs := flangeSpecs (tables s);
                                 stackHeaders := stackHeaders (tables s) ++ _;
                                 partSelections := partSelections (tables s);
                                 stackOrders := stackOrders (tables s) |}
                              newId))
        by (rewrite E; left; reflexivity).
      apply selectStackParts_In in Hin. simpl in Hin.
      destruct Hin as [Hp [Hst _]]. apply Hno. rewrite <- Hst.
      apply (Hparts _ Hp).
    + intros x Hx. apply String.eqb_neq. intros He. apply Hno.
      rewrite <- He. apply in_map. exact Hx.
  - unfold Integrity.referential, Integrity.stackIds. simpl.
    split; [exact Hnd|]. split.
    + intros p Hp. destruct (Hparts p Hp) as [H1 H2]. split; [|exact H2].
      rewrite map_app. apply in_app_iff. left. exact H1.
    + intros o Ho. destruct (Horders o Ho) as [H1 H2]. split; [|exact H2].
      rewrite map_app. apply in_app_iff. left. exact H1.
  - intros Hrep r Hr. unfold Integrity.stackIds. simpl.
    rewrite map_app. apply in_app_iff. left. apply (Hrep r Hr).
Qed.

Lemma createStack_read_back_witness :
  let result := Admin.createStack "s2" 7 {| InsertStackHeader.title := None |}
                  SampleUpload.store in
  Integrity.referential (tables SampleUpload.store)
  /\ Storage.getStackWithParts (tables (fst result)) "s2"
     = Some {| stack := {| StackHeader.id := "s2";
                           StackHeader.title := Some "B.O.P Stack";
                           StackHeader.createdAt := Some 7 |};
               parts := [] |}.
Proof.
  intros result. split; [exact twoMembers_referential|].
  exact (proj1 (createStack_read_back "s2" 7
                  {| InsertStackHeader.title := None |}
                  SampleUpload.store (fst result) _
                  twoMembers_referential eq_refl)).
Defined.

(** X24: the life of a report.  When [createReport] succeeds, the report
    belongs to an existing stack and reads back as returned; the reports
    that were there read back as before; setting its PDF path changes that
    column of that report alone; after deleting it, it is not found. *)
Theorem report_lifecycle
        (newId : string) (now : Z) (report : InsertReportExport.t)
        (id : option string) (s s' : Store) (created : ReportExport.t) :
  Admin.createReport newId now report id s = (s', Ok created) ->
  Admin.getReport s' (ReportExport.id created) = Some created
  /\ In (ReportExport.stackId created) (Integrity.stackIds (tables s'))
  /\ (Integrity.reportsReferential s -> Integrity.reportsReferential s')
  /\ (forall other, other <> ReportExport.id created ->
        Admin.getReport s' other = Admin.getReport s other)
  /\ (forall path,
        Admin.getReport
          (Admin.updateReportPdfPath (ReportExport.id created) path s')
          (ReportExport.id created)
        = Some {| ReportExport.id := ReportExport.id created;
                  ReportExport.stackId := ReportExport.stackId created;
                  ReportExport.renderedHtml := ReportExport.renderedHtml created;
                  ReportExport.pdfPath := Some path;
                  ReportExport.createdAt := ReportExport.createdAt created |})
  /\ Admin.getReport (Admin.deleteReport (ReportExport.id created) s')
       (ReportExport.id created) = None.
Proof.
  unfold Admin.createReport.
  set (c := {| ReportExport.id := _ |}). clearbody c.
  destruct (negb (existsb (fun r => (ReportExport.id r =? ReportExport.id c)%string)
                          (reportExports s))
            && existsb (fun h => (StackHeader.id h =? ReportExport.stackId c)%string)
                       (stackHeaders (tables s))) eqn:E; [|discriminate].
  intros H. inversion H; subst s' created; clear H.
  apply andb_true_iff in E. destruct E as [Hfresh Hfk].
  apply negb_true_iff in Hfresh.
  assert (Hno : forall r, In r (reportExports s) ->
                  (ReportExport.id r =? ReportExport.id c)%string = false).
  { intros r Hr. destruct (ReportExport.id r =? ReportExport.id c)%string eqn:Er;
      [|reflexivity].
    assert (Hex : existsb (fun r => (ReportExport.id r =? ReportExport.id c)%string)
                          (reportExports s) = true)
      by (apply existsb_exists; exists r; auto).
    congruence. }
  apply existsb_id_In in Hfk.
  split; [|split; [|split; [|split; [|split]]]].
  - unfold Admin.getReport. simpl.
    rewrite filter_app, (filter_none _ _ Hno). simpl.
    rewrite String.eqb_refl. reflexivity.
  - exact Hfk.
  - intros Hrep r Hr. simpl in Hr. apply in_app_iff in Hr.
    destruct Hr as [Hr | [<- | []]]; [apply (Hrep r Hr) | exact Hfk].
  - intros other Hne. unfold Admin.getReport. simpl.
    rewrite filter_app. simpl.
    apply String.eqb_neq in Hne. rewrite String.eqb_sym in Hne.
    rewrite Hne, app_nil_r. reflexivity.
  - intros path. unfold Admin.getReport, Admin.updateReportPdfPath. simpl.
    rewrite map_app, filter_app. simpl. rewrite String.eqb_refl. simpl.
    rewrite String.eqb_refl, filter_none; [reflexivity|].
    intros x Hx. apply in_map_iff in Hx. destruct Hx as [r [<- Hr]].
    rewrite (Hno r Hr). apply Hno, Hr.
  - unfold Admin.getReport, Admin.deleteReport. simpl.
    rewrite filter_none; [reflexivity|].
    intros x Hx. apply filter_In in Hx. destruct Hx as [_ Hx].
    apply negb_true_iff in Hx. exact Hx.
Qed.

Lemma report_lifecycle_witness :
  let report := {| InsertReportExport.stackId := "s1";
                   InsertReportExport.renderedHtml := None;
                   InsertReportExport.pdfPath := Some "reports/r2.pdf" |} in
  let result := Admin.createReport "r2" 9 report (Some "") SampleUpload.store in
  exists created,
    snd result = Ok created
    /\ ReportExport.id created = "r2"
    /\ Admin.getReport (fst result) "r2" = Some created.
Proof.
  intros report result. eexists.
  split; [reflexivity|]. split; [reflexivity|].
  exact (proj1 (report_lifecycle "r2" 9 report (Some "") SampleUpload.store
                  (fst result) _ eq_refl)).
Defined.
